(** * Comment-preserving content insertion for Google Docs

    A shallow embedding of [gdocs/scripts/content_inserter.py] together with
    the parts of [gdocs_editor.py] and [comment_manager.py] it calls, and the
    properties of the resolver, the planner, the sequencer and the merge
    orchestrator.

    Conventions of the embedding.
    - A Python [int] is a [Z]; [//] is [Z.div] (both round towards minus
      infinity for a positive divisor).
    - A Python [str] is a [pystr], a list of characters.  A character is an
      [ascii], read as a code point below 256, so [len] is [length] and the
      case mapping and the white space of [str.lower] and [str.strip] are
      the ones Python has on these code points.
    - A [dict] read with [.get(key, default)] is a record whose fields are
      [option]s: [None] is the absent key.
    - The remote services (Docs and Drive) are an interface, [DocStore]; the
      program is written in a state-and-exception monad over it.  Output on
      [stdout] is not modelled. *)

From Stdlib Require Import String Ascii.
From Stdlib Require Import ZArith List Bool Lia Arith QArith.
From Stdlib Require Import Numbers.DecimalString.
Import ListNotations.
Local Open Scope Z_scope.
Set Warnings "-register-all".

(** ** Python strings *)

Module PyStr.

Definition pystr := list ascii.

(** A literal. *)
Definition lit (s : string) : pystr := list_ascii_of_string s.

Definition len (s : pystr) : Z := Z.of_nat (length s).

Definition newline : ascii := ascii_of_nat 10.
Definition space : ascii := ascii_of_nat 32.
Definition dquote : ascii := ascii_of_nat 34.

Fixpoint eqb (s t : pystr) : bool :=
  match s, t with
  | [], [] => true
  | a :: s', b :: t' => Ascii.eqb a b && eqb s' t'
  | _, _ => false
  end.

(** [prefixb p s]: [p] is a prefix of [s]. *)
Fixpoint prefixb (p s : pystr) : bool :=
  match p, s with
  | [], _ => true
  | a :: p', b :: s' => Ascii.eqb a b && prefixb p' s'
  | _ :: _, [] => false
  end.

(** [s.startswith(p)] and [s.endswith(p)]. *)
Definition startswith (s p : pystr) : bool := prefixb p s.
Definition endswith (s p : pystr) : bool := prefixb (rev p) (rev s).

(** [s.find(sub)]: the lowest offset at which [sub] occurs, [None] for
    Python's [-1]. *)
Fixpoint find (sub s : pystr) {struct s} : option nat :=
  if prefixb sub s then Some O
  else match s with
       | [] => None
       | _ :: s' => option_map S (find sub s')
       end.

(** [sub in s]. *)
Definition contains (s sub : pystr) : bool :=
  match find sub s with Some _ => true | None => false end.

(** [s.index(sub)], called only where [sub in s] holds; the [ValueError] of
    the other case is the default [0] here. *)
Definition index (s sub : pystr) : Z :=
  match find sub s with Some i => Z.of_nat i | None => 0 end.

(** [s.find(sub, pos)] for [pos >= 0]. *)
Definition find_from (s sub : pystr) (pos : nat) : option nat :=
  if (pos <=? length s)%nat
  then option_map (Nat.add pos) (find sub (skipn pos s))
  else None.

(** [s[a:b]] for [0 <= a]. *)
Definition slice (s : pystr) (a b : nat) : pystr := firstn (b - a) (skipn a s).

(** [str.lower] on one code point: the capital letters of ASCII and of
    Latin-1 (all of 192..222 but the multiplication sign, 215). *)
Definition lower_char (c : ascii) : ascii :=
  let n := nat_of_ascii c in
  if ((65 <=? n) && (n <=? 90))%nat
     || ((192 <=? n) && (n <=? 222) && negb (n =? 215))%nat
  then ascii_of_nat (n + 32)
  else c.

Definition lower (s : pystr) : pystr := map lower_char s.

(** [c.isspace()]. *)
Definition isspace (c : ascii) : bool :=
  let n := nat_of_ascii c in
  (((9 <=? n) && (n <=? 13)) || ((28 <=? n) && (n <=? 32))
   || (n =? 133) || (n =? 160))%nat.

Fixpoint lstrip (s : pystr) : pystr :=
  match s with
  | c :: s' => if isspace c then lstrip s' else s
  | [] => []
  end.

Definition rstrip (s : pystr) : pystr := rev (lstrip (rev s)).
Definition strip (s : pystr) : pystr := rstrip (lstrip s).

(** [s.rstrip('\n')]. *)
Fixpoint lstrip_char (c : ascii) (s : pystr) : pystr :=
  match s with
  | d :: s' => if Ascii.eqb d c then lstrip_char c s' else s
  | [] => []
  end.
Definition rstrip_char (c : ascii) (s : pystr) : pystr :=
  rev (lstrip_char c (rev s)).

(** [s.replace(a, b)] for single characters. *)
Definition replace_char (a b : ascii) (s : pystr) : pystr :=
  map (fun c => if Ascii.eqb c a then b else c) s.

(** [s.replace(old, '')] for a non-empty [old]: every occurrence, left to
    right, without overlap.  [fuel] bounds the scan by the length of [s]. *)
Fixpoint remove_all_fuel (fuel : nat) (old s : pystr) : pystr :=
  match fuel with
  | O => s
  | S fuel' =>
      match s with
      | [] => []
      | c :: s' =>
          if prefixb old s
          then remove_all_fuel fuel' old (skipn (length old) s)
          else c :: remove_all_fuel fuel' old s'
      end
  end.
Definition remove_all (old s : pystr) : pystr :=
  match old with
  | [] => s
  | _ => remove_all_fuel (length s) old s
  end.

(** [str(n)] for an integer. *)
Definition str_of_Z (n : Z) : pystr :=
  lit (NilZero.string_of_int (Z.to_int n)).

(** A truthy string: not empty. *)
Definition truthy (s : pystr) : bool :=
  match s with [] => false | _ => true end.

(** [x or d] and truthiness for an optional string ([None] and [''] are
    falsy). *)
Definition opt_truthy (o : option pystr) : bool :=
  match o with Some s => truthy s | None => false end.

End PyStr.
Import PyStr.

(** ** Data classes of [content_inserter.py] *)

Record CommentedRange := mkCommentedRange {
  start_index : Z;
  end_index : Z;
  comment_id : pystr;
  comment_content : pystr;
  anchor_text : pystr
}.

(** [CommentedRange.contains]: both bounds inclusive. *)
Definition cr_contains (cr : CommentedRange) (index : Z) : bool :=
  (start_index cr <=? index) && (index <=? end_index cr).

(** [CommentedRange.overlaps]. *)
Definition cr_overlaps (cr : CommentedRange) (start end_ : Z) : bool :=
  negb ((end_ <? start_index cr) || (start >? end_index cr)).

Record InsertionPoint := mkInsertionPoint {
  ip_index : Z;
  ip_section_name : option pystr;
  ip_safe : bool;
  ip_affected_comments : list pystr;
  ip_strategy : pystr;
  ip_reason : pystr
}.

Record MergeOptions := mkMergeOptions {
  preserve_comments : bool;
  comment_strategy : pystr;
  add_source_comment : bool;
  add_inline_attribution : bool;
  source_description : option pystr;
  target_section : option pystr
}.

(** [MergeOptions()]: the defaults of the data class. *)
Definition default_MergeOptions : MergeOptions :=
  mkMergeOptions true (lit "preserve") true true None None.

(** ** Requests of a [batchUpdate] *)

Record rgbColor := mkRgb { red : Q; green : Q; blue : Q }.

Inductive Request :=
| insertText (index : Z) (tabId : option pystr) (text : pystr)
| updateParagraphStyle (startIndex endIndex : Z) (namedStyleType fields : pystr)
| updateTextStyle (startIndex endIndex : Z) (italic : bool)
    (foregroundColor : rgbColor) (fields : pystr)
| deleteContentRange (startIndex endIndex : Z).

(** ** The content formatter *)

Definition _format_content_for_insertion (content : pystr) : pystr :=
  let content :=
    if negb (startswith content [newline])
    then [newline; newline] ++ content else content in
  let content :=
    if negb (endswith content [newline])
    then content ++ [newline; newline] else content in
  content.

(** ** The sequencer: the requests of the two insertion paths *)

(** [tab_id] is truthy. *)
Definition tab_of (tab_id : option pystr) : option pystr :=
  if opt_truthy tab_id then tab_id else None.

Definition purple : rgbColor := mkRgb (6 # 10) (2 # 10) (8 # 10).

(** The list [requests] that [_simple_insert] builds before it submits it. *)
Definition _simple_insert_requests (index : Z) (content : pystr)
    (tab_id : option pystr) (add_inline_attribution : bool)
    (attribution_text : option pystr) : list Request :=
  let requests :=
    [ insertText index (tab_of tab_id) content;
      updateParagraphStyle index (index + len content)
        (lit "NORMAL_TEXT") (lit "namedStyleType") ] in
  if add_inline_attribution && opt_truthy attribution_text then
    let attribution_full :=
      lit " (from: " ++ match attribution_text with Some d => d | None => [] end
        ++ lit ")" in
    let attribution_index := index + len content in
    requests
      ++ [ insertText attribution_index (tab_of tab_id) attribution_full ]
      ++ [ updateTextStyle attribution_index
             (attribution_index + len attribution_full) true purple
             (lit "italic,foregroundColor") ]
  else requests.

(** The list [requests] that [_insert_with_comment_preservation] builds
    before it submits it.  The argument [index] of the source is not read. *)
Definition _insert_with_comment_preservation_requests (new_text : pystr)
    (commented_range : CommentedRange) : list Request :=
  let start_idx := start_index commented_range in
  let end_idx := end_index commented_range in
  let insert_position := start_idx + (end_idx - start_idx) / 2 in
  let requests := [ insertText insert_position None new_text ] in
  let delete_after_start := insert_position + len new_text in
  let delete_after_end := end_idx + len new_text in
  let requests :=
    if delete_after_end >? delete_after_start
    then requests ++ [ deleteContentRange delete_after_start delete_after_end ]
    else requests in
  let requests :=
    if insert_position >? start_idx
    then requests ++ [ deleteContentRange start_idx insert_position ]
    else requests in
  requests.

(** ** The flat text buffer

    What a batch does to the text of a document, as a buffer addressed by
    absolute offsets: each request is read against the buffer the requests
    before it left.  The store refuses an offset outside the buffer and an
    empty or inverted range, and then the whole batch (it is atomic). *)

Definition apply_request (r : Request) (buf : pystr) : option pystr :=
  match r with
  | insertText i _ t =>
      if (0 <=? i) && (i <=? len buf)
      then Some (firstn (Z.to_nat i) buf ++ t ++ skipn (Z.to_nat i) buf)
      else None
  | deleteContentRange s e =>
      if (0 <=? s) && (s <? e) && (e <=? len buf)
      then Some (firstn (Z.to_nat s) buf ++ skipn (Z.to_nat e) buf)
      else None
  | updateParagraphStyle _ _ _ _ => Some buf
  | updateTextStyle _ _ _ _ _ => Some buf
  end.

Fixpoint apply_batch (rs : list Request) (buf : pystr) : option pystr :=
  match rs with
  | [] => Some buf
  | r :: rs' =>
      match apply_request r buf with
      | Some buf' => apply_batch rs' buf'
      | None => None
      end
  end.

(** A delete request names a non-empty range. *)
Definition delete_nonempty (r : Request) : Prop :=
  match r with
  | deleteContentRange s e => s < e
  | _ => True
  end.

(** ** The document resource of the Docs API

    Only the keys the program reads.  A [tableRows], [tableCells] or cell
    [content] key that is absent reads as the empty list, as in the source
    ([.get(key, [])]). *)

Record TextRun := mkTextRun { tr_content : option pystr }.

Record ParagraphElement := mkParagraphElement {
  pe_startIndex : option Z;
  pe_textRun : option TextRun
}.

Record ParagraphStyle := mkParagraphStyle { ps_namedStyleType : option pystr }.

Record Paragraph := mkParagraph {
  p_elements : option (list ParagraphElement);
  p_paragraphStyle : option ParagraphStyle
}.

Inductive StructuralElement :=
| mkStructuralElement
    (startIndex endIndex : option Z)
    (paragraph : option Paragraph)
    (table : option (list (list (list StructuralElement)))).

Definition se_startIndex (e : StructuralElement) : option Z :=
  match e with mkStructuralElement s _ _ _ => s end.
Definition se_endIndex (e : StructuralElement) : option Z :=
  match e with mkStructuralElement _ n _ _ => n end.
Definition se_paragraph (e : StructuralElement) : option Paragraph :=
  match e with mkStructuralElement _ _ p _ => p end.
Definition se_table (e : StructuralElement)
  : option (list (list (list StructuralElement))) :=
  match e with mkStructuralElement _ _ _ t => t end.

Record Body := mkBody { content : option (list StructuralElement) }.

Inductive Tab :=
| mkTab (tabId : option pystr) (documentTab_body : option Body)
    (childTabs : list Tab).

Record Document := mkDocument {
  title : option pystr;
  body : option Body;
  tabs : option (list Tab)
}.

(** [d.get(key, default)]. *)
Definition get {A : Type} (o : option A) (default : A) : A :=
  match o with Some a => a | None => default end.

(** [doc.get('body', {}).get('content', [])]. *)
Definition body_content (b : option Body) : list StructuralElement :=
  get (content (get b (mkBody None))) [].

(** A paragraph dict is truthy when it has a key. *)
Definition paragraph_truthy (p : Paragraph) : bool :=
  match p_elements p, p_paragraphStyle p with
  | None, None => false
  | _, _ => true
  end.

(** The first result that is not [None], left to right: a [for] loop that
    returns on its first hit. *)
Definition first_some {A B : Type} (f : A -> option B) : list A -> option B :=
  fix go (l : list A) : option B :=
    match l with
    | [] => None
    | x :: l' => match f x with Some r => Some r | None => go l' end
    end.

(** ** Comments of the Drive API, and [comment_manager.Comment]

    The author, the time stamps and the replies of a comment are not read by
    the insertion engine and are left out. *)

Record CommentData := mkCommentData {
  cd_id : pystr;
  cd_content : option pystr;
  cd_resolved : option bool;
  (** [quotedFileContent]: [None] when the key is absent or the dict is
      empty, [Some None] when it has no [value]. *)
  cd_quotedFileContent : option (option pystr)
}.

Record Comment := mkComment {
  c_comment_id : pystr;
  c_content : pystr;
  c_resolved : bool;
  c_anchor : option pystr
}.

Definition _parse_comment (comment_data : CommentData) : Comment :=
  let anchor :=
    match cd_quotedFileContent comment_data with
    | Some quoted_content => Some (get quoted_content [])
    | None => None
    end in
  mkComment (cd_id comment_data) (get (cd_content comment_data) [])
    (get (cd_resolved comment_data) false) anchor.

(** ** Exceptions and the monad of the program *)

Inductive exn :=
| HttpError (status : Z) (reason : pystr)
| ValueError (msg : pystr)
| PermissionError (msg : pystr)
| RuntimeError (msg : pystr)
| IndexError (msg : pystr)
| OtherError (class msg : pystr).

(** [str(e)]. *)
Definition str_exn (e : exn) : pystr :=
  match e with
  | HttpError _ r => r
  | ValueError m | PermissionError m | RuntimeError m | IndexError m => m
  | OtherError _ m => m
  end.

(** What a call does: it returns, raises, or never comes back. *)
Inductive outcome (A : Type) :=
| Ret (a : A)
| Raise (e : exn)
| Diverge.
Arguments Ret {A} a.
Arguments Raise {A} e.
Arguments Diverge {A}.

Definition M (S A : Type) : Type := S -> outcome A * S.

Definition ret {S A : Type} (a : A) : M S A := fun s => (Ret a, s).
Definition raise {S A : Type} (e : exn) : M S A := fun s => (Raise e, s).
Definition diverge {S A : Type} : M S A := fun s => (Diverge, s).

Definition bind {S A B : Type} (m : M S A) (k : A -> M S B) : M S B :=
  fun s =>
    match m s with
    | (Ret a, s') => k a s'
    | (Raise e, s') => (Raise e, s')
    | (Diverge, s') => (Diverge, s')
    end.

(** [try: m except Exception as e: h e]. *)
Definition try_except {S A : Type} (m : M S A) (h : exn -> M S A) : M S A :=
  fun s =>
    match m s with
    | (Raise e, s') => h e s'
    | r => r
    end.

(** A call that reads the store and leaves it as it is. *)
Definition reading {S A : Type} (f : S -> outcome A) : M S A :=
  fun s => (f s, s).

(** A computation that leaves the store as it found it. *)
Definition readonly {S A : Type} (m : M S A) : Prop :=
  forall s, snd (m s) = s.

Declare Scope monad_scope.
Delimit Scope monad_scope with monad.
Notation "x <- m ;; k" := (bind m (fun x => k))
  (at level 61, m at next level, right associativity) : monad_scope.
Notation "m ;;; k" := (bind m (fun _ => k))
  (at level 61, right associativity) : monad_scope.
Local Open Scope monad_scope.

(** ** The remote services

    [ensure_authenticated] is what [_ensure_authenticated] raises, if
    anything.  [documents_get doc_id include_tabs_content] and
    [comments_list] read; [documents_batchUpdate] and [comments_create]
    are the two calls that change what the store holds. *)

Class DocStore (S : Type) := {
  ensure_authenticated : S -> option exn;
  documents_get : pystr -> bool -> S -> outcome Document;
  comments_list : pystr -> S -> outcome (list CommentData);
  documents_batchUpdate : pystr -> list Request -> M S unit;
  comments_create : pystr -> pystr -> M S (option pystr)
}.

(** ** [gdocs_editor.py] *)

Definition in_range (lo hi : nat) (c : ascii) : bool :=
  let n := nat_of_ascii c in ((lo <=? n) && (n <=? hi))%nat.

(** The class [[a-zA-Z0-9-_]] of the document-id pattern. *)
Definition is_id_char (c : ascii) : bool :=
  in_range 97 122 c || in_range 65 90 c || in_range 48 57 c
  || Ascii.eqb c "-"%char || Ascii.eqb c "_"%char.

Fixpoint take_while (p : ascii -> bool) (s : pystr) : pystr :=
  match s with
  | c :: s' => if p c then c :: take_while p s' else []
  | [] => []
  end.

(** [re.search(r'/d/([a-zA-Z0-9-_]+)', s)]: the group of the leftmost
    match. *)
Fixpoint search_doc_id (s : pystr) : option pystr :=
  match s with
  | [] => None
  | _ :: s' =>
      let hit :=
        if prefixb (lit "/d/") s
        then match take_while is_id_char (skipn 3 s) with
             | [] => None
             | g => Some g
             end
        else None in
      match hit with Some g => Some g | None => search_doc_id s' end
  end.

Definition extract_doc_id (doc_url_or_id : pystr) : pystr :=
  match search_doc_id doc_url_or_id with
  | Some g => g
  | None => doc_url_or_id
  end.

(** [re.search(r'[?&]tab=([^&]+)', s)]: the group of the leftmost match. *)
Fixpoint extract_tab_id (doc_url : pystr) : option pystr :=
  match doc_url with
  | [] => None
  | c :: s' =>
      let hit :=
        if (Ascii.eqb c "?"%char || Ascii.eqb c "&"%char)
           && prefixb (lit "tab=") s'
        then match take_while (fun d => negb (Ascii.eqb d "&"%char))
                     (skipn 4 s') with
             | [] => None
             | g => Some g
             end
        else None in
      match hit with Some g => Some g | None => extract_tab_id s' end
  end.

Definition tab_tabId (t : Tab) : option pystr :=
  match t with mkTab i _ _ => i end.
Definition tab_body (t : Tab) : Body :=
  match t with mkTab _ b _ => get b (mkBody None) end.

Definition opt_eqb (o : option pystr) (s : pystr) : bool :=
  match o with Some t => PyStr.eqb t s | None => false end.

Fixpoint find_tab_by_id_tab (tab_id : pystr) (tab : Tab) : option Tab :=
  match tab with
  | mkTab i _ child_tabs =>
      if opt_eqb i tab_id then Some tab
      else first_some (find_tab_by_id_tab tab_id) child_tabs
  end.

Definition find_tab_by_id (tabs : list Tab) (tab_id : pystr) : option Tab :=
  first_some (find_tab_by_id_tab tab_id) tabs.

Definition get_tab_body (document : Document) (tab_id : option pystr) : Body :=
  match get (tabs document) [] with
  | [] => get (body document) (mkBody None)
  | (first_tab :: _) as tabs =>
      let found :=
        match tab_id with
        | Some t => if truthy t then find_tab_by_id tabs t else None
        | None => None
        end in
      match found with
      | Some target_tab => tab_body target_tab
      | None => tab_body first_tab
      end
  end.

Section Editor.

Context {S : Type} `{DocStore S}.

Definition _ensure_authenticated : M S unit :=
  fun s => match ensure_authenticated s with
           | Some e => (Raise e, s)
           | None => (Ret tt, s)
           end.

Definition docx_message : pystr :=
  lit "This is a Word document (.docx) stored in Google Drive, not a native Google Doc."
  ++ [newline]
  ++ lit "The Google Docs API cannot read or edit .docx files." ++ [newline; newline]
  ++ lit "Options:" ++ [newline]
  ++ lit "1. Convert to Google Doc: In Google Drive, right-click → Open with → Google Docs"
  ++ [newline]
  ++ lit "2. Use the docx skill instead for Word documents" ++ [newline]
  ++ lit "3. Download the .docx file and work with it locally".

Definition get_document (doc_url_or_id : pystr) (include_tabs_content : bool)
  : M S Document :=
  _ensure_authenticated ;;;
  let doc_id := extract_doc_id doc_url_or_id in
  try_except (reading (documents_get doc_id include_tabs_content))
    (fun error =>
       match error with
       | HttpError status _ =>
           if status =? 404 then
             raise (ValueError
               (lit "Document not found: " ++ doc_id
                ++ lit ". This might be a Word document (.docx), which cannot be edited via the Google Docs API."))
           else if (status =? 400)
                   && contains (lower (str_exn error)) (lit "not supported")
           then raise (ValueError docx_message)
           else if status =? 403 then
             raise (PermissionError
               (lit "No permission to access document: " ++ doc_id))
           else raise error
       | _ => raise error
       end).

(** [CommentManager.get_comments]. *)
Definition get_comments (doc_id : pystr) (include_resolved : bool)
  : M S (list Comment) :=
  try_except
    (results <- reading (comments_list doc_id) ;;
     ret (map _parse_comment
            (filter (fun comment_data =>
                       negb (negb include_resolved
                             && get (cd_resolved comment_data) false))
                    results)))
    (fun e => raise (RuntimeError (lit "Failed to get comments: " ++ str_exn e))).

End Editor.

(** A section of [DocumentAnalysis.sections]: the dict with the keys
    [heading], [level], [start_index] and [end_index]. *)
Record SectionInfo := mkSectionInfo {
  heading : pystr;
  level : pystr;
  sec_start_index : Z;
  sec_end_index : Z
}.

Record DocumentAnalysis := mkDocumentAnalysis {
  da_doc_id : pystr;
  da_title : pystr;
  da_content : pystr;
  sections : list SectionInfo;
  total_chars : Z;
  da_comments : list Comment
}.

(** The text of the runs of a paragraph that have a [textRun] key, each
    read with [.get('content', '')]. *)
Definition run_texts (elements : list ParagraphElement) : list pystr :=
  flat_map (fun elem =>
              match pe_textRun elem with
              | Some text_run => [get (tr_content text_run) []]
              | None => []
              end) elements.

Definition _extract_paragraph_text (paragraph : Paragraph) : pystr :=
  rstrip_char newline (concat (run_texts (get (p_elements paragraph) []))).

(** [sep.join(parts)]. *)
Fixpoint join (sep : pystr) (parts : list pystr) : pystr :=
  match parts with
  | [] => []
  | [p] => p
  | p :: ps => p ++ sep ++ join sep ps
  end.

(** The state of the loop of [analyze_document]: the sections closed so far,
    the section being read, and the paragraph texts. *)
Definition analysis_step
    (st : list SectionInfo * option SectionInfo * list pystr)
    (element : StructuralElement)
  : list SectionInfo * option SectionInfo * list pystr :=
  let '(sections, current_section, text_content) := st in
  match se_paragraph element with
  | None => st
  | Some para =>
      let para_style := get (p_paragraphStyle para) (mkParagraphStyle None) in
      let named_style := get (ps_namedStyleType para_style) [] in
      let para_text := _extract_paragraph_text para in
      let text_content := text_content ++ [para_text] in
      if startswith named_style (lit "HEADING_") then
        let sections :=
          match current_section with
          | Some cs => sections ++ [cs]
          | None => sections
          end in
        let heading_level := remove_all (lit "HEADING_") named_style in
        (sections,
         Some (mkSectionInfo para_text heading_level
                 (get (se_startIndex element) 0) (get (se_endIndex element) 0)),
         text_content)
      else
        match current_section with
        | Some cs =>
            (sections,
             Some (mkSectionInfo (heading cs) (level cs) (sec_start_index cs)
                     (get (se_endIndex element) 0)),
             text_content)
        | None => (sections, None, text_content)
        end
  end.

Definition analyze_sections (content_elements : list StructuralElement)
  : list SectionInfo * list pystr :=
  let '(sections, current_section, text_content) :=
    fold_left analysis_step content_elements ([], None, []) in
  (match current_section with
   | Some cs => sections ++ [cs]
   | None => sections
   end, text_content).

Section Analysis.

Context {S : Type} `{DocStore S}.

Definition analyze_document (doc_url_or_id : pystr) (include_comments : bool)
  : M S DocumentAnalysis :=
  doc <- get_document doc_url_or_id true ;;
  let doc_id := extract_doc_id doc_url_or_id in
  let tab_id := extract_tab_id doc_url_or_id in
  let body := get_tab_body doc tab_id in
  let title := get (title doc) (lit "Untitled") in
  let content_elements := get (content body) [] in
  let '(sections, text_content) := analyze_sections content_elements in
  let total_chars :=
    match content_elements with
    | [] => 0
    | e :: es => get (se_endIndex (last es e)) 0
    end in
  comments <-
    (if include_comments
     then try_except (get_comments doc_id false) (fun _ => ret [])
     else ret []) ;;
  ret (mkDocumentAnalysis doc_id title (join [newline] text_content)
         sections total_chars comments).

End Analysis.

(** ** The resolver *)

(** The paragraph part of the loop body of [_find_text_range]: the first
    text run that holds [target_text]. *)
Definition find_in_run (target_text : pystr) (text_elem : ParagraphElement)
  : option (Z * Z) :=
  match pe_textRun text_elem with
  | Some text_run =>
      let text_content := get (tr_content text_run) [] in
      if contains text_content target_text then
        let start_index := get (pe_startIndex text_elem) 0 in
        let text_offset := index text_content target_text in
        let actual_start := start_index + text_offset in
        let actual_end := actual_start + len target_text in
        Some (actual_start, actual_end)
      else None
  | None => None
  end.

Fixpoint _find_text_range_element (target_text : pystr)
    (element : StructuralElement) : option (Z * Z) :=
  match element with
  | mkStructuralElement _ _ paragraph table =>
      let in_paragraph :=
        match paragraph with
        | Some para =>
            first_some (find_in_run target_text) (get (p_elements para) [])
        | None => None
        end in
      match in_paragraph with
      | Some r => Some r
      | None =>
          match table with
          | Some tableRows =>
              first_some
                (first_some
                   (first_some (_find_text_range_element target_text)))
                tableRows
          | None => None
          end
      end
  end.

Definition _find_text_range (content_elements : list StructuralElement)
    (target_text : pystr) : option (Z * Z) :=
  first_some (_find_text_range_element target_text) content_elements.

(** The loop of [find_commented_ranges] over the comments it fetched. *)
Definition commented_range_of (content_elements : list StructuralElement)
    (comment : Comment) : list CommentedRange :=
  match c_anchor comment with
  | Some anchor_text =>
      if truthy anchor_text then
        match _find_text_range content_elements anchor_text with
        | Some (start_idx, end_idx) =>
            [ mkCommentedRange start_idx end_idx (c_comment_id comment)
                (c_content comment) anchor_text ]
        | None => []
        end
      else []
  | None => []
  end.

Definition commented_ranges (content_elements : list StructuralElement)
    (comments : list Comment) : list CommentedRange :=
  flat_map (commented_range_of content_elements) comments.

(** *** The text runs of a document, in reading order

    What the resolver scans: the runs of each block that have a [textRun]
    key, each with its [startIndex] (0 when the key is absent) and its text;
    for a block with a table, the runs of its cells follow, row by row and
    cell by cell, nested tables included. *)

Definition runs_of_paragraph (para : Paragraph) : list (Z * pystr) :=
  flat_map (fun text_elem =>
              match pe_textRun text_elem with
              | Some text_run =>
                  [(get (pe_startIndex text_elem) 0,
                    get (tr_content text_run) [])]
              | None => []
              end) (get (p_elements para) []).

Fixpoint text_runs_element (element : StructuralElement) : list (Z * pystr) :=
  match element with
  | mkStructuralElement _ _ paragraph table =>
      match paragraph with
      | Some para => runs_of_paragraph para
      | None => []
      end
      ++ match table with
         | Some tableRows =>
             flat_map (flat_map (flat_map text_runs_element)) tableRows
         | None => []
         end
  end.

Definition text_runs (content_elements : list StructuralElement)
  : list (Z * pystr) :=
  flat_map text_runs_element content_elements.

(** The range of the first occurrence of [target_text] in one run. *)
Definition range_in_run (target_text : pystr) (run : Z * pystr)
  : option (Z * Z) :=
  if contains (snd run) target_text
  then Some (fst run + index (snd run) target_text,
             fst run + index (snd run) target_text + len target_text)
  else None.

(** [buf] is the text of the document, addressed by absolute offsets: every
    run stands in it at its [startIndex]. *)
Definition run_stands_in (buf : pystr) (run : Z * pystr) : Prop :=
  0 <= fst run
  /\ slice buf (Z.to_nat (fst run)) (Z.to_nat (fst run) + length (snd run))
     = snd run.

Definition document_text (buf : pystr)
    (content_elements : list StructuralElement) : Prop :=
  Forall (run_stands_in buf) (text_runs content_elements).

(** ** The planner *)

Definition _find_section_boundaries (analysis : DocumentAnalysis)
    (section_name : pystr) : option (Z * Z) :=
  first_some
    (fun section =>
       if truthy (heading section)
          && contains (lower (heading section)) (lower section_name)
       then Some (sec_start_index section, sec_end_index section)
       else None)
    (sections analysis).

(** [doc.get('body', {}).get('content', [{}])[-1].get('endIndex', 1)]: the
    default list has one empty dict; an empty list under the key has no last
    element. *)
Definition doc_end_of (doc : Document) : outcome Z :=
  match content (get (body doc) (mkBody None)) with
  | None => Ret 1
  | Some [] => Raise (IndexError (lit "list index out of range"))
  | Some (e :: es) => Ret (get (se_endIndex (last es e)) 1)
  end.

Section Planner.

Context {S : Type} `{DocStore S}.

Definition find_commented_ranges (doc_id : pystr) : M S (list CommentedRange) :=
  doc <- get_document doc_id true ;;
  comments <- get_comments doc_id false ;;
  let content_elements := body_content (body doc) in
  ret (commented_ranges content_elements comments).

(** The two places that insert at the end of the document. *)
Definition at_document_end (doc_id reason : pystr) : M S InsertionPoint :=
  doc <- get_document doc_id true ;;
  doc_end <- reading (fun _ => doc_end_of doc) ;;
  ret (mkInsertionPoint (doc_end - 1) None true [] (lit "new_section") reason).

Definition calculate_insertion_point (doc_id : pystr)
    (section_name : option pystr) (strategy : pystr) : M S InsertionPoint :=
  analysis <- analyze_document doc_id true ;;
  commented_ranges <- find_commented_ranges doc_id ;;
  let no_section :=
    at_document_end doc_id (lit "Inserting at document end") in
  match section_name with
  | Some name =>
      if truthy name then
        match _find_section_boundaries analysis name with
        | Some (section_start, section_end) =>
            if PyStr.eqb strategy (lit "safe") then
              let insertion_idx := section_end - 1 in
              let affected :=
                map comment_id
                  (filter (fun cr => cr_contains cr insertion_idx)
                     commented_ranges) in
              ret (mkInsertionPoint insertion_idx (Some name)
                     (Z.of_nat (length affected) =? 0) affected (lit "after")
                     (lit "End of section " ++ [dquote] ++ name ++ [dquote]))
            else no_section
        | None =>
            at_document_end doc_id
              (lit "Section " ++ [dquote] ++ name ++ [dquote]
               ++ lit " not found, inserting at document end")
        end
      else no_section
  | None => no_section
  end.

End Planner.

(** ** The search of [comment_manager.py] *)

Record Match := mkMatch {
  paragraph_index : Z;
  doc_start : Z;
  match_length : Z;
  excerpt : pystr
}.

(** The first [startIndex] among the elements of a paragraph. *)
Definition first_startIndex (elements : list ParagraphElement) : option Z :=
  first_some pe_startIndex elements.

(** The text of the runs that have a [textRun] with a [content] key. *)
Definition text_parts (elements : list ParagraphElement) : list pystr :=
  flat_map (fun element =>
              match pe_textRun element with
              | Some text_run =>
                  match tr_content text_run with
                  | Some c => [c]
                  | None => []
                  end
              | None => []
              end) elements.

(** The [while True] loop over one paragraph, from [pos].  Each turn takes
    one unit of [fuel]; [None] is a loop that has not ended when the fuel
    is spent. *)
Fixpoint find_occurrences (fuel : nat) (para_idx : Z) (start_index : option Z)
    (full_text lower_text lower_search search_text : pystr) (pos : nat)
  : option (list Match) :=
  match fuel with
  | O => None
  | Datatypes.S fuel' =>
      match find_from lower_text lower_search pos with
      | None => Some []
      | Some idx =>
          let doc_start :=
            (match start_index with
             | Some 0 | None => 1
             | Some i => i
             end) + Z.of_nat idx in
          let excerpt_start := (idx - 40)%nat in
          let excerpt_end :=
            Nat.min (length full_text) (idx + length search_text + 40) in
          let excerpt :=
            strip (replace_char newline space
                     (slice full_text excerpt_start excerpt_end)) in
          match find_occurrences fuel' para_idx start_index full_text
                  lower_text lower_search search_text
                  (idx + length search_text) with
          | Some rest =>
              Some (mkMatch para_idx doc_start (len search_text) excerpt
                    :: rest)
          | None => None
          end
      end
  end.

(** The loop over the elements of the body: the matches so far and the
    paragraph counter. *)
Fixpoint find_in_paragraphs (search_text : pystr) (para_idx : Z)
    (content_elems : list StructuralElement) : option (list Match) :=
  match content_elems with
  | [] => Some []
  | content_elem :: rest =>
      match se_paragraph content_elem with
      | None => find_in_paragraphs search_text para_idx rest
      | Some paragraph =>
          if negb (paragraph_truthy paragraph)
          then find_in_paragraphs search_text para_idx rest
          else
            let para_idx := para_idx + 1 in
            let elements := get (p_elements paragraph) [] in
            match text_parts elements with
            | [] => find_in_paragraphs search_text para_idx rest
            | parts =>
                let full_text := concat parts in
                let lower_text := lower full_text in
                match find_occurrences (Datatypes.S (length lower_text))
                        para_idx (first_startIndex elements) full_text
                        lower_text (lower search_text) search_text 0 with
                | None => None
                | Some here =>
                    match find_in_paragraphs search_text para_idx rest with
                    | Some later => Some (here ++ later)
                    | None => None
                    end
                end
            end
      end
  end.

(** [None]: the call does not return (an empty [search_text] in front of a
    paragraph with text). *)
Definition _find_text_in_document (doc : Document) (search_text : pystr)
  : option (list Match) :=
  find_in_paragraphs search_text (-1) (body_content (body doc)).

(** A block whose paragraph, read as one lower-cased string over all its
    runs, holds the lower-cased [search_text]: what the search above tests
    block by block. *)
Definition paragraph_matches (search_text : pystr)
    (content_elem : StructuralElement) : bool :=
  match se_paragraph content_elem with
  | Some paragraph =>
      paragraph_truthy paragraph
      && match text_parts (get (p_elements paragraph) []) with
         | [] => false
         | parts => contains (lower (concat parts)) (lower search_text)
         end
  | None => false
  end.

(** ** Comment creation ([comment_manager.py])

    The marks in front of the messages are written here as the source file
    has them; a character outside Latin-1 stands as its UTF-8 bytes. *)

Section Comments.

Context {S : Type} `{DocStore S}.

(** [CommentManager.create_comment] (the later of the two definitions of the
    class, which is the one in force): an error of the call is raised
    again. *)
Definition create_comment (doc_id content : pystr) : M S (option pystr) :=
  comments_create doc_id content.

(** [matches[occurrence]] after the clamp of [occurrence] to the last
    match; [matches] is not empty and [occurrence] is not negative. *)
Definition nth_match (matches : list Match) (occurrence : Z) (d : Match)
  : Match :=
  let n := Z.of_nat (length matches) in
  let occurrence := if occurrence >=? n then n - 1 else occurrence in
  nth (Z.to_nat occurrence) matches d.

Definition create_comment_with_context (doc_id content search_text : pystr)
    (occurrence : Z) : M S (option pystr) :=
  try_except
    (doc <- reading (documents_get doc_id false) ;;
     match _find_text_in_document doc search_text with
     | None => diverge
     | Some [] => ret None
     | Some (m :: ms) =>
         let match_ := nth_match (m :: ms) occurrence m in
         let contextual_content :=
           content ++ [newline; newline]
           ++ lit "ðŸ“ Location: Paragraph #"
           ++ str_of_Z (paragraph_index match_) ++ [newline]
           ++ lit "ðŸ“ Context: " ++ [dquote] ++ lit "..."
           ++ excerpt match_ ++ lit "..." ++ [dquote] in
         comments_create doc_id contextual_content
     end)
    (fun e =>
       match e with
       | HttpError _ _ => ret None
       | _ => raise e
       end).

End Comments.

(** ** The inserter and the merge orchestrator *)

(** The dict that [merge_content] returns: the keys [success] and [message]
    are always there, the others in some of its four shapes. *)
Record MergeResult := mkMergeResult {
  success : bool;
  message : pystr;
  requires_user_decision : option bool;
  affected_comments : option (list pystr);
  insertion_point : option InsertionPoint;
  options_offered : option (list pystr);
  comments_preserved : option Z;
  new_comment_id : option (option pystr);
  error : option pystr
}.

Definition decision_result (insertion_point : InsertionPoint) : MergeResult :=
  mkMergeResult false
    (lit "Insertion would affect "
     ++ str_of_Z (Z.of_nat (length (ip_affected_comments insertion_point)))
     ++ lit " comment(s)")
    (Some true) (Some (ip_affected_comments insertion_point))
    (Some insertion_point)
    (Some [lit "insert_before"; lit "insert_after";
           lit "update_with_preservation"])
    None None None.

Definition insert_failed_result (insertion_point : InsertionPoint)
  : MergeResult :=
  mkMergeResult false (lit "Failed to insert content") None None
    (Some insertion_point) None None None None.

Definition merged_result (insertion_point : InsertionPoint)
    (new_comment_id : option pystr) : MergeResult :=
  mkMergeResult true
    (lit "Content inserted successfully. " ++ ip_reason insertion_point)
    None None (Some insertion_point) None
    (Some (Z.of_nat (length (ip_affected_comments insertion_point))))
    (Some new_comment_id) None.

Definition error_result (e : exn) : MergeResult :=
  mkMergeResult false (lit "Error: " ++ str_exn e) None None None None None
    None (Some (str_exn e)).

(** [a or b] on optional strings. *)
Definition or_else (a b : option pystr) : option pystr :=
  if opt_truthy a then a else b.

Section Inserter.

Context {S : Type} `{DocStore S}.

Definition _simple_insert (doc_id : pystr) (index : Z) (content : pystr)
    (tab_id : option pystr) (add_inline_attribution : bool)
    (attribution_text : option pystr) : M S bool :=
  try_except
    (documents_batchUpdate doc_id
       (_simple_insert_requests index content tab_id add_inline_attribution
          attribution_text) ;;;
     ret true)
    (fun _ => ret false).

Definition _insert_with_comment_preservation (doc_id : pystr) (index : Z)
    (new_text : pystr) (commented_range : CommentedRange) : M S bool :=
  try_except
    (documents_batchUpdate doc_id
       (_insert_with_comment_preservation_requests new_text commented_range) ;;;
     ret true)
    (fun _ => ret false).

Definition insert_content (doc_id : pystr) (index : Z) (content : pystr)
    (tab_id : option pystr) (commented_range : option CommentedRange)
    (add_inline_attribution : bool) (attribution_text : option pystr)
  : M S bool :=
  match commented_range with
  | Some cr => _insert_with_comment_preservation doc_id index content cr
  | None =>
      _simple_insert doc_id index content tab_id add_inline_attribution
        attribution_text
  end.

(** Phase 4 of [merge_content]: the source comment, with its own
    [try]/[except]. *)
Definition add_source_comment_phase (doc_id formatted_content : pystr)
    (options : MergeOptions) : M S (option pystr) :=
  if add_source_comment options && opt_truthy (source_description options)
  then
    try_except
      (let clean_content := strip formatted_content in
       let search_text := firstn 50 clean_content in
       let comment_text :=
         lit "ðŸ“ Added from " ++ get (source_description options) [] in
       new_comment_id <-
         create_comment_with_context doc_id comment_text search_text 0 ;;
       match new_comment_id with
       | None => create_comment doc_id comment_text
       | Some _ => ret new_comment_id
       end)
      (fun _ => ret None)
  else ret None.

(** The body of the [try] of [merge_content]. *)
Definition merge_content_body (doc_url content : pystr)
    (section : option pystr) (options : MergeOptions) : M S MergeResult :=
  let doc_id := extract_doc_id doc_url in
  let tab_id := extract_tab_id doc_url in
  let strategy :=
    if preserve_comments options then lit "safe" else lit "simple" in
  insertion_point <-
    calculate_insertion_point doc_id
      (or_else section (target_section options)) strategy ;;
  if negb (Nat.eqb (length (ip_affected_comments insertion_point)) 0)
     && PyStr.eqb (comment_strategy options) (lit "ask")
  then ret (decision_result insertion_point)
  else
    let formatted_content := _format_content_for_insertion content in
    success <-
      insert_content doc_id (ip_index insertion_point) formatted_content
        tab_id None (add_inline_attribution options)
        (source_description options) ;;
    if negb success then ret (insert_failed_result insertion_point)
    else
      new_comment_id <-
        add_source_comment_phase doc_id formatted_content options ;;
      ret (merged_result insertion_point new_comment_id).

Definition merge_content (doc_url content : pystr) (section : option pystr)
    (options : option MergeOptions) : M S MergeResult :=
  let options := get options default_MergeOptions in
  try_except (merge_content_body doc_url content section options)
    (fun e => ret (error_result e)).

End Inserter.

(** ** A store to run the program on

    It answers every read with the same document and the same comments,
    accepts or refuses a batch as [sim_batch_error] says, and keeps the
    batches and the comments it accepted. *)

Record SimStore := mkSimStore {
  sim_auth : option exn;
  sim_document : outcome Document;
  sim_comments : outcome (list CommentData);
  sim_batch_error : option exn;
  sim_create : outcome (option pystr);
  sim_batches : list (pystr * list Request);
  sim_created : list (pystr * pystr)
}.

Definition sim_batchUpdate (doc_id : pystr) (requests : list Request)
  : M SimStore unit :=
  fun s =>
    match sim_batch_error s with
    | Some e => (Raise e, s)
    | None =>
        (Ret tt,
         mkSimStore (sim_auth s) (sim_document s) (sim_comments s)
           (sim_batch_error s) (sim_create s)
           (sim_batches s ++ [(doc_id, requests)]) (sim_created s))
    end.

Definition sim_comments_create (doc_id content : pystr)
  : M SimStore (option pystr) :=
  fun s =>
    match sim_create s with
    | Ret r =>
        (Ret r,
         mkSimStore (sim_auth s) (sim_document s) (sim_comments s)
           (sim_batch_error s) (sim_create s) (sim_batches s)
           (sim_created s ++ [(doc_id, content)]))
    | r => (r, s)
    end.

#[export] Instance SimStore_DocStore : DocStore SimStore := {
  ensure_authenticated := sim_auth;
  documents_get := fun _ _ s => sim_document s;
  comments_list := fun _ s => sim_comments s;
  documents_batchUpdate := sim_batchUpdate;
  comments_create := sim_comments_create
}.

(** A store that holds [doc] and [comments] and accepts every write. *)
Definition sim_of (doc : Document) (comments : list CommentData) : SimStore :=
  mkSimStore None (Ret doc) (Ret comments) None (Ret (Some (lit "new")))
    [] [].


(** *** Example documents *)

Definition text_paragraph (start_ end_ : Z) (style : option pystr)
    (runs : list (Z * pystr)) : StructuralElement :=
  mkStructuralElement (Some start_) (Some end_)
    (Some (mkParagraph
             (Some (map (fun r => mkParagraphElement (Some (fst r))
                                     (Some (mkTextRun (Some (snd r))))) runs))
             (Some (mkParagraphStyle style))))
    None.

Definition section_break : StructuralElement :=
  mkStructuralElement None (Some 1) None None.

Definition legacy_document (elements : list StructuralElement) : Document :=
  mkDocument (Some (lit "Example")) (Some (mkBody (Some elements))) None.

(** A new, empty Google Doc: the section break and one empty paragraph. *)
Definition blank_document : Document :=
  legacy_document
    [ section_break;
      text_paragraph 1 2 (Some (lit "NORMAL_TEXT")) [(1, [newline])] ].

(** One line, [Hello], and a comment on it. *)
Definition hello_document : Document :=
  legacy_document
    [ section_break;
      text_paragraph 1 7 (Some (lit "NORMAL_TEXT"))
        [(1, lit "Hello" ++ [newline])] ].

Definition hello_comment : CommentData :=
  mkCommentData (lit "c1") (Some (lit "Check this")) (Some false)
    (Some (Some (lit "Hello"))).

(** A heading [Notes] and one line under it that carries a comment on its
    last word. *)
Definition notes_document : Document :=
  legacy_document
    [ section_break;
      text_paragraph 1 7 (Some (lit "HEADING_1"))
        [(1, lit "Notes" ++ [newline])];
      text_paragraph 7 17 (Some (lit "NORMAL_TEXT"))
        [(7, lit "Todo "); (12, lit "item" ++ [newline])] ].

Definition item_comment : CommentData :=
  mkCommentData (lit "c7") (Some (lit "Which item?")) (Some false)
    (Some (Some (lit "item"))).

(** A table of one cell that holds the line [abc]. *)
Definition table_document : Document :=
  legacy_document
    [ section_break;
      mkStructuralElement (Some 1) (Some 9) None
        (Some [[[ text_paragraph 4 8 None [(4, lit "abc" ++ [newline])] ]]]) ].

(** A document resource that has no [body] key. *)
Definition bodiless_document : Document :=
  mkDocument (Some (lit "Example")) None None.

(** A body whose [content] is the empty list. *)
Definition blockless_document : Document := legacy_document [].

(** ** Views of the document used to state what the code computes *)

(** The tabs of a document in reading order: each tab, then its child tabs,
    nested ones included. *)
Fixpoint all_tabs_of (tab : Tab) : list Tab :=
  match tab with
  | mkTab _ _ child_tabs => tab :: flat_map all_tabs_of child_tabs
  end.

Definition all_tabs (tabs : list Tab) : list Tab :=
  flat_map all_tabs_of tabs.

(** The named style of a block ([''] for a block without a paragraph or
    without the key), and the blocks that are headings. *)
Definition named_style_of (element : StructuralElement) : pystr :=
  match se_paragraph element with
  | Some para =>
      get (ps_namedStyleType
             (get (p_paragraphStyle para) (mkParagraphStyle None))) []
  | None => []
  end.

Definition is_heading (element : StructuralElement) : bool :=
  startswith (named_style_of element) (lit "HEADING_").

Definition paragraph_text_of (element : StructuralElement) : pystr :=
  match se_paragraph element with
  | Some para => _extract_paragraph_text para
  | None => []
  end.

(** Where a section ends: at the [endIndex] of the last paragraph in front
    of the next heading ([end_] while no paragraph has been met). *)
Fixpoint section_end (end_ : Z) (rest : list StructuralElement) : Z :=
  match rest with
  | [] => end_
  | element :: rest' =>
      if is_heading element then end_
      else section_end
             (match se_paragraph element with
              | Some _ => get (se_endIndex element) 0
              | None => end_
              end) rest'
  end.

(** One section per heading, from the heading to the last paragraph in
    front of the next heading. *)
Fixpoint sections_of (content_elements : list StructuralElement)
  : list SectionInfo :=
  match content_elements with
  | [] => []
  | element :: rest =>
      if is_heading element
      then mkSectionInfo (paragraph_text_of element)
             (remove_all (lit "HEADING_") (named_style_of element))
             (get (se_startIndex element) 0)
             (section_end (get (se_endIndex element) 0) rest)
           :: sections_of rest
      else sections_of rest
  end.

(** A string with no white space at either end. *)
Definition no_outer_space (s : pystr) : Prop :=
  match s with [] => True | c :: _ => isspace c = false end
  /\ match rev s with [] => True | c :: _ => isspace c = false end.

(** ** [intelligent_merger.py]

    The client of the language model is a function from the prompt to the
    text of the reply, or to what the call raises. *)

(** [s.split(sep)] for a separator of one character. *)
Fixpoint split_char (sep : ascii) (s : pystr) : list pystr :=
  match s with
  | [] => [[]]
  | c :: s' =>
      if Ascii.eqb c sep then [] :: split_char sep s'
      else match split_char sep s' with
           | part :: parts => (c :: part) :: parts
           | [] => [[c]]
           end
  end.

(** [s.split(sep, 1)[1]] where [sep] occurs in [s]: what follows the first
    separator.  It is called on lines that start with a marker ending in a
    colon, so the [IndexError] of the other case is the default [''] here. *)
Fixpoint after_first (sep : ascii) (s : pystr) : pystr :=
  match s with
  | [] => []
  | c :: s' => if Ascii.eqb c sep then s' else after_first sep s'
  end.

(** [c.isdigit()]: the decimal digits and the superscripts one, two and
    three. *)
Definition isdigit (c : ascii) : bool :=
  let n := nat_of_ascii c in
  (((48 <=? n) && (n <=? 57)) || (n =? 178) || (n =? 179) || (n =? 185))%nat.

Record MergeStrategy := mkMergeStrategy {
  ms_action : pystr;
  ms_target_section : option pystr;
  ms_reason : pystr;
  ms_operations : list (pystr * option pystr * pystr)
}.

(** [next((l for l in lines if l.startswith(marker)), '')]. *)
Definition first_line_with (marker : pystr) (lines : list pystr) : pystr :=
  match List.find (fun l => startswith l marker) lines with
  | Some l => l
  | None => []
  end.

(** [lines[ops_start + 1:]] for the index [ops_start] of the first line
    that starts with [marker]; [None] when there is none. *)
Fixpoint lines_after (marker : pystr) (lines : list pystr)
  : option (list pystr) :=
  match lines with
  | [] => None
  | l :: ls => if startswith l marker then Some ls else lines_after marker ls
  end.

(** [part.split(':')[1].strip()], read where [':' in part] holds. *)
Definition field_of (part : pystr) : pystr :=
  strip (nth 1 (split_char ":" part) []).

Definition has_colon (part : pystr) : bool := contains part (lit ":").

(** The dict of one operation line: its [action], [section] and
    [description]. *)
Definition parse_operation (line : pystr)
  : option (pystr * option pystr * pystr) :=
  match split_char "|" line with
  | p0 :: p1 :: rest =>
      Some (if has_colon p0 then field_of p0 else lit "append",
            if has_colon p1 then Some (field_of p1) else None,
            match rest with
            | p2 :: _ => if has_colon p2 then field_of p2 else []
            | [] => []
            end)
  | _ => None
  end.

Definition is_operation_line (line : pystr) : bool :=
  truthy (strip line)
  && match line with c :: _ => isdigit c | [] => false end.

Definition _parse_strategy_response (response : pystr) : MergeStrategy :=
  let lines := split_char newline (strip response) in
  let strategy_line := first_line_with (lit "STRATEGY:") lines in
  let target_line := first_line_with (lit "TARGET_SECTION:") lines in
  let reason_line := first_line_with (lit "REASON:") lines in
  let action :=
    if truthy strategy_line then strip (after_first ":" strategy_line)
    else lit "APPEND_TO_END" in
  let target :=
    if truthy target_line then Some (strip (after_first ":" target_line))
    else None in
  let reason :=
    if truthy reason_line then strip (after_first ":" reason_line)
    else lit "No specific reason provided" in
  let operations :=
    if PyStr.eqb action (lit "MULTIPLE_OPERATIONS") then
      match lines_after (lit "OPERATIONS:") lines with
      | Some ops =>
          flat_map (fun line =>
                      if is_operation_line line
                      then match parse_operation line with
                           | Some op => [op]
                           | None => []
                           end
                      else []) ops
      | None => []
      end
    else [] in
  mkMergeStrategy action
    (match target with
     | Some t => if PyStr.eqb t (lit "N/A") then None else Some t
     | None => None
     end)
    reason operations.

(** The dict that [_execute_merge_strategy] returns: the result of
    [merge_content] with the keys [strategy_used] and [strategy_reason]
    added. *)
Record StrategyResult := mkStrategyResult {
  sr_result : MergeResult;
  strategy_used : pystr;
  strategy_reason : pystr
}.

(** [str(x)] for an optional string. *)
Definition str_of_option (o : option pystr) : pystr :=
  match o with Some s => s | None => lit "None" end.

(** The sections of an analysis are the dicts [analyze_document] builds;
    the loop reads [section.level] of the first one, an attribute that a
    dict does not have, and that raises [AttributeError]. *)
Definition _format_document_structure (analysis : DocumentAnalysis)
  : outcome pystr :=
  let lines :=
    [ lit "Document: " ++ da_title analysis;
      lit "Total length: " ++ str_of_Z (total_chars analysis)
        ++ lit " characters";
      lit "Sections: " ++ str_of_Z (Z.of_nat (length (sections analysis)));
      [];
      lit "Section structure:" ] in
  match sections analysis with
  | [] => Ret (join [newline] lines)
  | _ :: _ =>
      Raise (OtherError (lit "AttributeError")
               (lit "'dict' object has no attribute 'level'"))
  end.

(** The prompt of [_determine_merge_strategy]. *)
Definition strategy_prompt (doc_structure document_content meeting_notes : pystr)
  : pystr :=
    lit "You are helping merge meeting notes into a Google Doc. Analyze the document structure and meeting notes, then determine the best merge strategy." ++ [newline; newline]
    ++ lit "CURRENT DOCUMENT STRUCTURE:" ++ [newline]
    ++ doc_structure ++ [newline; newline]
    ++ lit "DOCUMENT CONTENT PREVIEW:" ++ [newline]
    ++ firstn 1000 document_content ++ [newline; newline]
    ++ lit "MEETING NOTES TO MERGE:" ++ [newline]
    ++ meeting_notes ++ [newline; newline]
    ++ lit "Analyze:" ++ [newline]
    ++ lit "1. What is the document about?" ++ [newline]
    ++ lit "2. What content is in the meeting notes?" ++ [newline]
    ++ lit "3. Where should this content be integrated?" ++ [newline; newline]
    ++ lit "Determine the best strategy:" ++ [newline; newline]
    ++ lit "Option A: CREATE_NEW_SECTION" ++ [newline]
    ++ lit "- Use when: Meeting notes are about a new topic not covered in the document" ++ [newline]
    ++ lit "- Creates a new section at the end" ++ [newline; newline]
    ++ lit "Option B: UPDATE_EXISTING_SECTION" ++ [newline]
    ++ lit "- Use when: Meeting notes expand on or update an existing section" ++ [newline]
    ++ lit "- Identifies which section to update and where to insert" ++ [newline; newline]
    ++ lit "Option C: APPEND_TO_END" ++ [newline]
    ++ lit "- Use when: Meeting notes are supplementary and don't fit existing structure" ++ [newline]
    ++ lit "- Simple append (what we currently do)" ++ [newline; newline]
    ++ lit "Option D: MULTIPLE_OPERATIONS" ++ [newline]
    ++ lit "- Use when: Meeting notes contain content for multiple sections" ++ [newline]
    ++ lit "- Requires breaking notes into parts and placing each appropriately" ++ [newline; newline]
    ++ lit "Respond in this exact format:" ++ [newline; newline]
    ++ lit "STRATEGY: [CREATE_NEW_SECTION|UPDATE_EXISTING_SECTION|APPEND_TO_END|MULTIPLE_OPERATIONS]" ++ [newline]
    ++ lit "TARGET_SECTION: [section name if updating, " ++ [dquote] ++ lit "NEW: Section Title" ++ [dquote] ++ lit " if creating, or " ++ [dquote] ++ lit "N/A" ++ [dquote] ++ lit "]" ++ [newline]
    ++ lit "REASON: [one sentence explanation]" ++ [newline; newline]
    ++ lit "OPERATIONS:" ++ [newline]
    ++ lit "[If MULTIPLE_OPERATIONS, list each operation:" ++ [newline]
    ++ lit "  1. Action: [create/update/append] | Section: [name] | Content: [description]" ++ [newline]
    ++ lit "  2. ..." ++ [newline]
    ++ lit "Otherwise write: Single operation as described above]" ++ [newline].

Section Merger.

Context {S : Type} `{DocStore S}.

Definition _determine_merge_strategy (client : pystr -> outcome pystr)
    (doc_structure document_content meeting_notes : pystr)
  : M S MergeStrategy :=
  response <-
    reading (fun _ =>
               client (strategy_prompt doc_structure document_content
                         meeting_notes)) ;;
  ret (_parse_strategy_response response).

Definition _execute_merge_strategy (doc_url : pystr)
    (strategy : MergeStrategy) (meeting_notes : pystr)
    (add_source_comment : bool) (source_description : option pystr)
  : M S StrategyResult :=
  let merge :=
    merge_content doc_url meeting_notes None
      (Some (mkMergeOptions true (lit "preserve") add_source_comment true
               source_description None)) in
  let action := ms_action strategy in
  if PyStr.eqb action (lit "APPEND_TO_END")
     || PyStr.eqb action (lit "CREATE_NEW_SECTION")
  then
    result <- merge ;;
    ret (mkStrategyResult result action (ms_reason strategy))
  else if PyStr.eqb action (lit "UPDATE_EXISTING_SECTION") then
    result <- merge ;;
    ret (mkStrategyResult result (lit "APPEND_TO_END (fallback)")
           (lit "Target: " ++ str_of_option (ms_target_section strategy)
            ++ lit ". " ++ ms_reason strategy))
  else if PyStr.eqb action (lit "MULTIPLE_OPERATIONS") then
    result <- merge ;;
    ret (mkStrategyResult result (lit "APPEND_TO_END (fallback)")
           (lit "Multiple ops planned: "
            ++ str_of_Z (Z.of_nat (length (ms_operations strategy)))
            ++ lit ". " ++ ms_reason strategy))
  else raise (ValueError (lit "Unknown strategy: " ++ action)).

Definition analyze_and_merge (client : pystr -> outcome pystr)
    (doc_url meeting_notes : pystr) (add_source_comment : bool)
    (source_description : option pystr) : M S StrategyResult :=
  analysis <- analyze_document doc_url true ;;
  doc_structure <- reading (fun _ => _format_document_structure analysis) ;;
  strategy <-
    _determine_merge_strategy client doc_structure
      (firstn 2000 (da_content analysis)) meeting_notes ;;
  _execute_merge_strategy doc_url strategy meeting_notes add_source_comment
    source_description.

End Merger.

(** A character that starts no query parameter. *)
Definition starts_no_parameter (c : ascii) : bool :=
  negb (Ascii.eqb c "?"%char || Ascii.eqb c "&"%char).

(** A document of two tabs, each with one heading, and a URL that names
    the second tab. *)
Definition two_tab_document : Document :=
  mkDocument (Some (lit "Tabs")) None
    (Some
       [ mkTab (Some (lit "t.0"))
           (Some (mkBody (Some
              [ section_break;
                text_paragraph 1 7 (Some (lit "HEADING_1"))
                  [(1, lit "First" ++ [newline])] ])))
           [];
         mkTab (Some (lit "t.1"))
           (Some (mkBody (Some
              [ section_break;
                text_paragraph 1 8 (Some (lit "HEADING_1"))
                  [(1, lit "Second" ++ [newline])] ])))
           [ mkTab (Some (lit "t.2")) None [] ] ]).

Definition two_tab_url : pystr :=
  lit "https://docs.google.com/document/d/ABC/edit?tab=t.1".

(** What the loop of [analyze_document] holds after some blocks, closed as
    the code closes it at the end. *)
Definition closed_sections (st : list SectionInfo * option SectionInfo
                                 * list pystr) : list SectionInfo :=
  let '(sections, current_section, _) := st in
  match current_section with
  | Some cs => sections ++ [cs]
  | None => sections
  end.

(** A resolved comment on [Hello]. *)
Definition hello_resolved_comment : CommentData :=
  mkCommentData (lit "c0") (Some (lit "Done")) (Some true)
    (Some (Some (lit "Hello"))).

(** What [analyze_document] returns for the example with a heading and the
    comment on [item], and the one range of that comment. *)
Definition notes_analysis : DocumentAnalysis :=
  mkDocumentAnalysis (lit "doc") (lit "Example")
    (lit "Notes" ++ [newline] ++ lit "Todo item")
    [ mkSectionInfo (lit "Notes") (lit "1") 1 17 ] 17
    [ _parse_comment item_comment ].

Definition item_range : CommentedRange :=
  mkCommentedRange 12 16 (lit "c7") (lit "Which item?") (lit "item").

(** The text of the source comment for the description [d]. *)
Definition source_comment_text (d : pystr) : pystr :=
  lit "ðŸ“ Added from " ++ d.

(** *** Example merges into the one-line document *)

Definition hello_store : SimStore := sim_of hello_document [hello_comment].

(** The same store, with a Docs service that refuses every batch. *)
Definition refusing_store : SimStore :=
  mkSimStore None (Ret hello_document) (Ret [hello_comment])
    (Some (HttpError 400 (lit "Invalid requests"))) (Ret None) [] [].

(** Options with and without a source comment. *)
Definition quiet_options : MergeOptions :=
  mkMergeOptions true (lit "preserve") false true (Some (lit "meeting")) None.

Definition noted_options : MergeOptions :=
  mkMergeOptions true (lit "preserve") true true (Some (lit "meeting")) None.

(** The insertion point at the end of the one-line document. *)
Definition hello_end : InsertionPoint :=
  mkInsertionPoint 6 None true [] (lit "new_section")
    (lit "Inserting at document end").

(** The store once it has accepted the batch that inserts [New text]. *)
Definition hello_store_after_batch : SimStore :=
  snd (sim_batchUpdate (lit "doc")
         (_simple_insert_requests 6
            (_format_content_for_insertion (lit "New text")) None true
            (Some (lit "meeting")))
         hello_store).

(** A computation on the example store that submits no batch. *)
Definition keeps_batches {A : Type} (m : M SimStore A) : Prop :=
  forall s, sim_batches (snd (m s)) = sim_batches s.

Definition is_delete (r : Request) : bool :=
  match r with
  | deleteContentRange _ _ => true
  | _ => false
  end.

(** What every match of the search holds, for a paragraph counter of at
    least [low]. *)
Definition match_ok (search_text : pystr) (low : Z) (m : Match) : Prop :=
  low <= paragraph_index m
  /\ match_length m = len search_text
  /\ ~ In newline (excerpt m)
  /\ len (excerpt m) <= len search_text + 80
  /\ no_outer_space (excerpt m).

(** A reply in the format that the prompt asks for, and a client of the
    language model that gives it. *)
Definition update_reply : pystr :=
  lit "STRATEGY: UPDATE_EXISTING_SECTION" ++ [newline]
  ++ lit "TARGET_SECTION: Notes" ++ [newline]
  ++ lit "REASON: The notes extend the section." ++ [newline; newline]
  ++ lit "OPERATIONS:" ++ [newline]
  ++ lit "Single operation as described above".

Definition update_client : pystr -> outcome pystr := fun _ => Ret update_reply.

(** A client whose call does not come back. *)
Definition silent_client : pystr -> outcome pystr := fun _ => Diverge.

(** The options that [_execute_merge_strategy] passes to [merge_content]. *)
Definition strategy_options (add_source_comment : bool)
    (source_description : option pystr) : MergeOptions :=
  mkMergeOptions true (lit "preserve") add_source_comment true
    source_description None.

(** The text of the example with a heading, addressed by absolute offsets
    (offset 0 is the section break), and a comment on the two words of its
    second line, which stand in two text runs. *)
Definition notes_buffer : pystr :=
  [newline] ++ lit "Notes" ++ [newline] ++ lit "Todo item" ++ [newline].

Definition todo_item_comment : CommentData :=
  mkCommentData (lit "c8") (Some (lit "Both words")) (Some false)
    (Some (Some (lit "Todo item"))).

(** A document of one tab with one child tab, each with one paragraph of the
    given named style, and a URL that names the child tab. *)
Definition nested_tab_document (first_style child_style : pystr) : Document :=
  mkDocument (Some (lit "Nested")) None
    (Some
       [ mkTab (Some (lit "t.0"))
           (Some (mkBody (Some
              [ section_break;
                text_paragraph 1 7 (Some first_style)
                  [(1, lit "First" ++ [newline])] ])))
           [ mkTab (Some (lit "t.2"))
               (Some (mkBody (Some
                  [ section_break;
                    text_paragraph 1 7 (Some child_style)
                      [(1, lit "Child" ++ [newline])] ])))
               [] ] ]).

Definition child_tab_url : pystr :=
  lit "https://docs.google.com/document/d/ABC/edit?tab=t.2".

(** * Properties *)

(** ** Strings *)

Section StringFacts.

Lemma ascii_eqb_refl (c : ascii) : Ascii.eqb c c = true.
Proof. now apply Ascii.eqb_eq. Qed.

Lemma len_app (s t : pystr) : len (s ++ t) = len s + len t.
Proof. unfold len. rewrite length_app. lia. Qed.

Lemma len_nonneg (s : pystr) : 0 <= len s.
Proof. unfold len. lia. Qed.

Lemma prefixb_app (p t : pystr) : prefixb p (p ++ t) = true.
Proof.
  induction p as [|a p IH]; simpl; [reflexivity|].
  now rewrite ascii_eqb_refl, IH.
Qed.

Lemma prefixb_true (p s : pystr) :
  prefixb p s = true -> exists t, s = p ++ t.
Proof.
  revert s. induction p as [|a p IH]; intros s Hp.
  - now exists s.
  - destruct s as [|b s]; simpl in Hp; [discriminate|].
    apply andb_true_iff in Hp as [Hab Hp].
    apply Ascii.eqb_eq in Hab. subst b.
    destruct (IH _ Hp) as [t ->]. now exists t.
Qed.

Lemma prefixb_iff (p s : pystr) :
  prefixb p s = true <-> exists t, s = p ++ t.
Proof.
  split; [apply prefixb_true|]. intros [t ->]. apply prefixb_app.
Qed.

Lemma prefixb_app_r (p s t : pystr) :
  prefixb p s = true -> prefixb p (s ++ t) = true.
Proof.
  intros Hp. apply prefixb_true in Hp as [u ->].
  rewrite <- app_assoc. apply prefixb_app.
Qed.

Lemma prefixb_map (f : ascii -> ascii) (p s : pystr) :
  prefixb p s = true -> prefixb (map f p) (map f s) = true.
Proof.
  intros Hp. apply prefixb_true in Hp as [u ->].
  rewrite map_app. apply prefixb_app.
Qed.

(** [find] gives the lowest offset of an occurrence. *)
Lemma find_Some (sub s : pystr) (i : nat) :
  find sub s = Some i ->
  (i <= length s)%nat
  /\ prefixb sub (skipn i s) = true
  /\ forall j, (j < i)%nat -> prefixb sub (skipn j s) = false.
Proof.
  revert i. induction s as [|c s IH]; intros i; simpl.
  - destruct (prefixb sub []) eqn:Hp; [|discriminate].
    intros [= <-]. repeat split; [lia | exact Hp | lia].
  - destruct (prefixb sub (c :: s)) eqn:Hp.
    + intros [= <-]. repeat split; [lia | exact Hp | lia].
    + destruct (find sub s) as [k|]; [|discriminate].
      intros [= <-]. destruct (IH k eq_refl) as (Hk & Hpk & Hlow).
      repeat split; [simpl; lia | exact Hpk |].
      intros [|j] Hj; [exact Hp|]. simpl. apply Hlow. lia.
Qed.

Lemma find_None (sub s : pystr) :
  find sub s = None -> forall j, prefixb sub (skipn j s) = false.
Proof.
  induction s as [|c s IH]; simpl.
  - destruct (prefixb sub []) eqn:Hp; [discriminate|].
    intros _ j. now rewrite skipn_nil.
  - destruct (prefixb sub (c :: s)) eqn:Hp; [discriminate|].
    destruct (find sub s) as [k|]; [discriminate|].
    intros _ [|j]; [exact Hp|]. simpl. now apply IH.
Qed.

Lemma find_occurs (sub l1 l2 : pystr) :
  exists i, find sub (l1 ++ sub ++ l2) = Some i.
Proof.
  destruct (find sub (l1 ++ sub ++ l2)) as [i|] eqn:Hf; [now exists i|].
  pose proof (find_None _ _ Hf (length l1)) as Hp.
  rewrite skipn_app, skipn_all, Nat.sub_diag in Hp. simpl in Hp.
  now rewrite prefixb_app in Hp.
Qed.

Lemma contains_iff (s sub : pystr) :
  contains s sub = true <-> exists l1 l2, s = l1 ++ sub ++ l2.
Proof.
  unfold contains. split.
  - destruct (find sub s) as [i|] eqn:Hf; [|discriminate]. intros _.
    destruct (find_Some _ _ _ Hf) as (_ & Hp & _).
    apply prefixb_true in Hp as [t Ht].
    exists (firstn i s), t. now rewrite <- Ht, firstn_skipn.
  - intros (l1 & l2 & ->). now destruct (find_occurs sub l1 l2) as [i ->].
Qed.

Lemma contains_app (s sub a b : pystr) :
  contains s sub = true -> contains (a ++ s ++ b) sub = true.
Proof.
  rewrite !contains_iff. intros (l1 & l2 & ->).
  exists (a ++ l1), (l2 ++ b). now rewrite <- !app_assoc.
Qed.

Lemma contains_lower (s sub : pystr) :
  contains s sub = true -> contains (lower s) (lower sub) = true.
Proof.
  rewrite !contains_iff. intros (l1 & l2 & ->).
  exists (lower l1), (lower l2). unfold lower. now rewrite !map_app.
Qed.

(** A part of a concatenation occurs in it. *)
Lemma concat_part (parts : list pystr) (p : pystr) :
  In p parts -> exists a b, concat parts = a ++ p ++ b.
Proof.
  induction parts as [|q parts IH]; [intros []|].
  intros [-> | Hin]; simpl.
  - now exists [], (concat parts).
  - destruct (IH Hin) as (a & b & ->). exists (q ++ a), b.
    now rewrite <- app_assoc.
Qed.

Lemma firstn_exact {A : Type} (a b : list A) (n : nat) :
  n = length a -> firstn n (a ++ b) = a.
Proof.
  intros ->. rewrite firstn_app, Nat.sub_diag, firstn_all. simpl.
  apply app_nil_r.
Qed.

Lemma skipn_exact {A : Type} (a b : list A) (n : nat) :
  n = length a -> skipn n (a ++ b) = b.
Proof.
  intros ->. now rewrite skipn_app, Nat.sub_diag, skipn_all.
Qed.

End StringFacts.

(** ** The content formatter *)

Section Formatter.

Lemma startswith_app (s t p : pystr) :
  startswith s p = true -> startswith (s ++ t) p = true.
Proof. apply prefixb_app_r. Qed.

Lemma endswith_app (s t p : pystr) :
  endswith t p = true -> endswith (s ++ t) p = true.
Proof.
  unfold endswith. intros Hp. rewrite rev_app_distr. now apply prefixb_app_r.
Qed.

(** What the formatter returns starts and ends with a line break. *)
Lemma format_padded (content : pystr) :
  startswith (_format_content_for_insertion content) [newline] = true
  /\ endswith (_format_content_for_insertion content) [newline] = true.
Proof.
  unfold _format_content_for_insertion.
  set (c1 := if negb (startswith content [newline])
             then [newline; newline] ++ content else content).
  assert (H1 : startswith c1 [newline] = true).
  { subst c1. destruct (startswith content [newline]) eqn:Hs; cbn [negb];
      [exact Hs | reflexivity]. }
  destruct (endswith c1 [newline]) eqn:He; cbn [negb].
  - now split.
  - split; [now apply startswith_app | now apply endswith_app].
Qed.

(** Padded content is left as it is. *)
Lemma format_fixed (content : pystr) :
  startswith content [newline] = true ->
  endswith content [newline] = true ->
  _format_content_for_insertion content = content.
Proof.
  intros Hs He. unfold _format_content_for_insertion.
  rewrite Hs. cbn [negb]. now rewrite He.
Qed.

(** C8: the content formatter is idempotent: formatting what it returned
    gives the same string again, so content that is already padded (it
    starts and ends with a line break, as every result of the formatter
    does) gets no second pair of blank lines at either end. *)
Theorem format_content_idempotent (s : pystr) :
  _format_content_for_insertion (_format_content_for_insertion s)
  = _format_content_for_insertion s
  /\ startswith (_format_content_for_insertion s) [newline] = true
  /\ endswith (_format_content_for_insertion s) [newline] = true
  /\ (startswith s [newline] = true -> endswith s [newline] = true ->
      _format_content_for_insertion s = s).
Proof.
  destruct (format_padded s) as [Hs He].
  split; [now apply format_fixed | repeat split; auto using format_fixed].
Qed.

End Formatter.

(** ** The sequencer *)

Section Sequencer.

(** C9: every [deleteContentRange] of the comment-preserving batch has
    [startIndex < endIndex], for every range and every text: the delete of
    the tail is left out when its shifted range is empty, the delete of the
    head when the split point is the start.  A range of length 0 gives the
    insert alone, a range of length 1 the insert and the delete of the
    tail. *)
Theorem preservation_deletes_nonempty (new_text : pystr) :
  (forall cr,
     Forall delete_nonempty
       (_insert_with_comment_preservation_requests new_text cr))
  /\ (forall s id c a,
        _insert_with_comment_preservation_requests new_text
          (mkCommentedRange s s id c a)
        = [ insertText s None new_text ])
  /\ (forall s id c a,
        _insert_with_comment_preservation_requests new_text
          (mkCommentedRange s (s + 1) id c a)
        = [ insertText s None new_text;
            deleteContentRange (s + len new_text) (s + 1 + len new_text) ]).
Proof.
  split; [|split].
  - intros cr. unfold _insert_with_comment_preservation_requests.
    set (m := start_index cr + (end_index cr - start_index cr) / 2).
    destruct (Z.gtb_spec (end_index cr + len new_text) (m + len new_text));
      destruct (Z.gtb_spec m (start_index cr)); simpl;
      repeat constructor; simpl; lia.
  - intros s id c a. unfold _insert_with_comment_preservation_requests. simpl.
    replace (s - s) with 0 by lia. rewrite Z.div_0_l by lia.
    replace (s + 0) with s by lia.
    destruct (Z.gtb_spec (s + len new_text) (s + len new_text)); [lia|].
    destruct (Z.gtb_spec s s); [lia|]. reflexivity.
  - intros s id c a. unfold _insert_with_comment_preservation_requests. simpl.
    replace (s + 1 - s) with 1 by lia.
    change (1 / 2) with 0. replace (s + 0) with s by lia.
    destruct (Z.gtb_spec (s + 1 + len new_text) (s + len new_text)); [|lia].
    destruct (Z.gtb_spec s s); [lia|]. reflexivity.
Qed.

End Sequencer.

Section BufferSteps.

Lemma insert_at (a b t : pystr) (i : Z) (tab : option pystr) :
  i = len a ->
  apply_request (insertText i tab t) (a ++ b) = Some (a ++ t ++ b).
Proof.
  intros ->. unfold apply_request. rewrite len_app.
  pose proof (len_nonneg a). pose proof (len_nonneg b).
  destruct (Z.leb_spec 0 (len a)); [|lia].
  destruct (Z.leb_spec (len a) (len a + len b)); [|lia]. cbn [andb].
  unfold len. rewrite Nat2Z.id.
  now rewrite firstn_exact, skipn_exact.
Qed.

Lemma delete_at (a d b : pystr) (s e : Z) :
  s = len a -> e = s + len d -> d <> [] ->
  apply_request (deleteContentRange s e) (a ++ d ++ b) = Some (a ++ b).
Proof.
  intros -> -> Hd. unfold apply_request. rewrite !len_app.
  pose proof (len_nonneg a). pose proof (len_nonneg b).
  assert (0 < len d) by (destruct d; [congruence | unfold len; simpl; lia]).
  destruct (Z.leb_spec 0 (len a)); [|lia].
  destruct (Z.ltb_spec (len a) (len a + len d)); [|lia].
  destruct (Z.leb_spec (len a + len d) (len a + (len d + len b))); [|lia].
  cbn [andb]. rewrite firstn_exact by (unfold len; lia).
  rewrite app_assoc. rewrite skipn_exact; [reflexivity|].
  rewrite length_app. unfold len. lia.
Qed.

Lemma apply_batch_insert (a b t : pystr) (i : Z) (tab : option pystr)
    (rs : list Request) :
  i = len a ->
  apply_batch (insertText i tab t :: rs) (a ++ b)
  = apply_batch rs (a ++ t ++ b).
Proof. intros Hi. cbn [apply_batch]. now rewrite insert_at. Qed.

(** The style requests leave the text as it is. *)
Lemma apply_batch_paragraph_style (s e : Z) (style fields : pystr)
    (rs : list Request) (buf : pystr) :
  apply_batch (updateParagraphStyle s e style fields :: rs) buf
  = apply_batch rs buf.
Proof. reflexivity. Qed.

Lemma apply_batch_text_style (s e : Z) (italic : bool) (colour : rgbColor)
    (fields : pystr) (rs : list Request) (buf : pystr) :
  apply_batch (updateTextStyle s e italic colour fields :: rs) buf
  = apply_batch rs buf.
Proof. reflexivity. Qed.

End BufferSteps.

Section SimpleInsert.

(** C4, as the claim states it, fails: with the attribution requested and an
    empty description the batch has two steps, not four. *)
Lemma attribution_needs_description :
  ~ (forall (i : Z) (c d : pystr),
       _simple_insert_requests i c None true (Some d)
       = [ insertText i None c;
           updateParagraphStyle i (i + len c) (lit "NORMAL_TEXT")
             (lit "namedStyleType");
           insertText (i + len c) None (lit " (from: " ++ d ++ lit ")");
           updateTextStyle (i + len c)
             (i + len c + len (lit " (from: " ++ d ++ lit ")")) true purple
             (lit "italic,foregroundColor") ]).
Proof.
  intros Hall. specialize (Hall 5 (lit "x") []). discriminate Hall.
Qed.

(** C4, amended: the batch is, in order, the insert of the content at [i]
    and the paragraph style [NORMAL_TEXT] over [i, i + len c); when the
    inline attribution is requested and the description is not empty, these
    are followed by the insert of [" (from: " + d + ")"] at [i + len c] and
    the text style (italic, a colour of its own) over the span of that
    insert, both counted from the end of the inserted content: on a buffer
    the attribution lands right behind the content.  Without the request,
    or with an empty or absent description, the batch is the first two
    steps alone. *)
Theorem simple_insert_batch (i : Z) (c : pystr) (tab : option pystr) :
  (forall a d,
     _simple_insert_requests i c tab true (Some (a :: d))
     = [ insertText i (tab_of tab) c;
         updateParagraphStyle i (i + len c) (lit "NORMAL_TEXT")
           (lit "namedStyleType");
         insertText (i + len c) (tab_of tab)
           (lit " (from: " ++ (a :: d) ++ lit ")");
         updateTextStyle (i + len c)
           (i + len c + len (lit " (from: " ++ (a :: d) ++ lit ")")) true
           purple (lit "italic,foregroundColor") ]
     /\ forall pre post,
          i = len pre ->
          apply_batch (_simple_insert_requests i c tab true (Some (a :: d)))
            (pre ++ post)
          = Some (pre ++ c ++ (lit " (from: " ++ (a :: d) ++ lit ")") ++ post))
  /\ (forall d,
        _simple_insert_requests i c tab false d
        = [ insertText i (tab_of tab) c;
            updateParagraphStyle i (i + len c) (lit "NORMAL_TEXT")
              (lit "namedStyleType") ])
  /\ _simple_insert_requests i c tab true (Some [])
     = _simple_insert_requests i c tab false (Some [])
  /\ _simple_insert_requests i c tab true None
     = _simple_insert_requests i c tab false None.
Proof.
  split; [|repeat split; intros; reflexivity].
  intros a d. split; [reflexivity|].
  intros pre post ->.
  change (_simple_insert_requests (len pre) c tab true (Some (a :: d)))
    with [ insertText (len pre) (tab_of tab) c;
           updateParagraphStyle (len pre) (len pre + len c) (lit "NORMAL_TEXT")
             (lit "namedStyleType");
           insertText (len pre + len c) (tab_of tab)
             (lit " (from: " ++ (a :: d) ++ lit ")");
           updateTextStyle (len pre + len c)
             (len pre + len c + len (lit " (from: " ++ (a :: d) ++ lit ")"))
             true purple (lit "italic,foregroundColor") ].
  rewrite apply_batch_insert, apply_batch_paragraph_style by reflexivity.
  rewrite (app_assoc pre c post), apply_batch_insert
    by (rewrite len_app; reflexivity).
  rewrite apply_batch_text_style. cbn [apply_batch].
  now rewrite <- app_assoc.
Qed.

(** The content [New] with the description [meeting], inserted at offset 4
    of the buffer [Doc.End]. *)
Lemma simple_insert_batch_witness :
  apply_batch
    (_simple_insert_requests 4 (lit "New") None true (Some (lit "meeting")))
    (lit "Doc." ++ lit "End")
  = Some (lit "Doc." ++ lit "New"
          ++ (lit " (from: " ++ lit "meeting" ++ lit ")") ++ lit "End").
Proof.
  apply (proj2 (proj1 (simple_insert_batch 4 (lit "New") None)
                  "m"%char (lit "eeting")) (lit "Doc.") (lit "End")).
  reflexivity.
Defined.

End SimpleInsert.

Section RoundTrip.

(** A list splits at any offset inside it. *)
Lemma split_at {A : Type} (l : list A) (k : nat) :
  (k <= length l)%nat ->
  exists l1 l2, l = l1 ++ l2 /\ length l1 = k.
Proof.
  intros Hk. exists (firstn k l), (skipn k l).
  split; [now rewrite firstn_skipn | now apply firstn_length_le].
Qed.

(** C1: for a commented range [start, end) with [start < end] that holds the
    text [T] in the buffer [pre ++ T ++ post], and any replacement [U], the
    batch of the sequencer, run request by request on the buffer each one
    finds, gives [pre ++ U ++ post]: [U] stands where [T] stood, nothing of
    [T] is left, and the length changes by [len U - len T]. *)
Theorem case_B_round_trip (pre T post U : pystr) (cr : CommentedRange) :
  start_index cr = len pre ->
  end_index cr = start_index cr + len T ->
  start_index cr < end_index cr ->
  apply_batch (_insert_with_comment_preservation_requests U cr)
    (pre ++ T ++ post)
  = Some (pre ++ U ++ post)
  /\ len (pre ++ U ++ post) = len (pre ++ T ++ post) + (len U - len T).
Proof.
  intros Hs He Hlt. split; [|rewrite !len_app; lia].
  unfold _insert_with_comment_preservation_requests.
  rewrite He, Hs. replace (len pre + len T - len pre) with (len T) by lia.
  assert (HT : 0 < len T) by lia.
  assert (Hk : 0 <= len T / 2 < len T).
  { split; [apply Z.div_pos; lia | apply Z.div_lt_upper_bound; lia]. }
  destruct (split_at T (Z.to_nat (len T / 2))) as (T1 & T2 & -> & HT1).
  { unfold len in *. lia. }
  assert (H1 : len T1 = len (T1 ++ T2) / 2) by (unfold len in *; lia).
  rewrite <- H1. rewrite <- H1 in Hk. rewrite len_app in Hk, HT.
  assert (HT2 : T2 <> []).
  { intros ->. unfold len in Hk. simpl in Hk. lia. }
  destruct (Z.gtb_spec (len pre + len (T1 ++ T2) + len U)
              (len pre + len T1 + len U)) as [_|Hbad];
    [|rewrite len_app in Hbad; lia].
  assert (Hins :
    apply_request (insertText (len pre + len T1) None U)
      (pre ++ (T1 ++ T2) ++ post)
    = Some ((pre ++ T1 ++ U) ++ T2 ++ post)).
  { replace (pre ++ (T1 ++ T2) ++ post) with ((pre ++ T1) ++ T2 ++ post)
      by now rewrite <- !app_assoc.
    rewrite insert_at by (rewrite len_app; lia).
    now rewrite <- !app_assoc. }
  assert (Htail :
    apply_request
      (deleteContentRange (len pre + len T1 + len U)
         (len pre + len (T1 ++ T2) + len U))
      ((pre ++ T1 ++ U) ++ T2 ++ post)
    = Some (pre ++ T1 ++ U ++ post)).
  { rewrite delete_at; [now rewrite <- !app_assoc | | | exact HT2];
      rewrite !len_app; lia. }
  destruct (Z.gtb_spec (len pre + len T1) (len pre)) as [Hpos|Hzero].
  - cbn [app apply_batch]. rewrite Hins, Htail.
    rewrite delete_at; [reflexivity | reflexivity | lia |].
    intros ->. unfold len in Hpos. simpl in Hpos. lia.
  - cbn [app apply_batch]. rewrite Hins, Htail.
    assert (T1 = []) as ->; [|reflexivity].
    destruct T1; [reflexivity|]. unfold len in Hzero. simpl in Hzero. lia.
Qed.

(** The round trip on the comment of the preservation test of the
    repository, [Todo application addressing], replaced by
    [making the comment]. *)
Lemma case_B_round_trip_witness :
  apply_batch
    (_insert_with_comment_preservation_requests (lit "making the comment")
       (mkCommentedRange 4 31 (lit "c1") (lit "note")
          (lit "Todo application addressing")))
    (lit "The " ++ lit "Todo application addressing" ++ lit " the gaps")
  = Some (lit "The " ++ lit "making the comment" ++ lit " the gaps")
  /\ len (lit "The " ++ lit "making the comment" ++ lit " the gaps")
     = len (lit "The " ++ lit "Todo application addressing" ++ lit " the gaps")
       + (len (lit "making the comment")
          - len (lit "Todo application addressing")).
Proof.
  apply (case_B_round_trip (lit "The ") (lit "Todo application addressing")
           (lit " the gaps") (lit "making the comment")
           (mkCommentedRange 4 31 (lit "c1") (lit "note")
              (lit "Todo application addressing")));
    vm_compute; reflexivity.
Defined.

End RoundTrip.

(** ** The resolver *)

Section Resolver.

Lemma first_some_app {A B : Type} (f : A -> option B) (l1 l2 : list A) :
  first_some f (l1 ++ l2)
  = match first_some f l1 with
    | Some r => Some r
    | None => first_some f l2
    end.
Proof.
  induction l1 as [|x l1 IH]; simpl; [reflexivity|].
  destruct (f x); [reflexivity | exact IH].
Qed.

Lemma first_some_flat_map {A B C : Type} (f : B -> option C)
    (g : A -> list B) (l : list A) :
  first_some f (flat_map g l) = first_some (fun x => first_some f (g x)) l.
Proof.
  induction l as [|x l IH]; simpl; [reflexivity|].
  rewrite first_some_app, IH. reflexivity.
Qed.

Lemma first_some_ext {A B : Type} (f g : A -> option B) (l : list A) :
  Forall (fun x => f x = g x) l -> first_some f l = first_some g l.
Proof.
  induction 1 as [|x l Hx _ IH]; simpl; [reflexivity|].
  rewrite Hx, IH. reflexivity.
Qed.

(** The first hit of a scan splits the list at it. *)
Lemma first_some_split {A B : Type} (f : A -> option B) (l : list A) (r : B) :
  first_some f l = Some r ->
  exists before x after,
    l = before ++ x :: after
    /\ Forall (fun y => f y = None) before /\ f x = Some r.
Proof.
  induction l as [|y l IH]; simpl; [discriminate|].
  destruct (f y) as [r'|] eqn:Hy.
  - intros [= <-]. exists [], y, l. repeat split; [constructor | exact Hy].
  - intros Hr. destruct (IH Hr) as (before & x & after & -> & Hb & Hx).
    exists (y :: before), x, after. repeat split; [|exact Hx].
    now constructor.
Qed.

Lemma first_some_None {A B : Type} (f : A -> option B) (l : list A) :
  Forall (fun y => f y = None) l -> first_some f l = None.
Proof.
  induction 1 as [|x l Hx _ IH]; simpl; [reflexivity|]. now rewrite Hx.
Qed.

Lemma first_some_Exists {A B : Type} (f : A -> option B) (l : list A) :
  Exists (fun y => f y <> None) l -> exists r, first_some f l = Some r.
Proof.
  induction 1 as [x l Hx | x l _ IH]; simpl.
  - destruct (f x) as [r|]; [now exists r | congruence].
  - destruct (f x) as [r|]; [now exists r | exact IH].
Qed.

(** Induction on a block that reaches the blocks of its table cells. *)
Lemma StructuralElement_nested_ind (P : StructuralElement -> Prop) :
  (forall s e p t,
     (forall rows, t = Some rows -> Forall (Forall (Forall P)) rows) ->
     P (mkStructuralElement s e p t)) ->
  forall element, P element.
Proof.
  intros step. fix rec 1. intros [s e p t]. apply step.
  destruct t as [rows|]; [|discriminate].
  assert (Hrows : Forall (Forall (Forall P)) rows).
  { induction rows as [|row rows IHrows]; constructor; [|exact IHrows].
    induction row as [|cell row IHrow]; constructor; [|exact IHrow].
    induction cell as [|x cell IHcell]; constructor;
      [apply rec | exact IHcell]. }
  intros rows' [= <-]. exact Hrows.
Qed.

Lemma find_in_paragraph_runs (target : pystr) (para : Paragraph) :
  first_some (find_in_run target) (get (p_elements para) [])
  = first_some (range_in_run target) (runs_of_paragraph para).
Proof.
  unfold runs_of_paragraph. rewrite first_some_flat_map.
  apply first_some_ext, Forall_forall. intros text_elem _.
  unfold find_in_run, range_in_run.
  destruct (pe_textRun text_elem) as [text_run|]; simpl; [|reflexivity].
  destruct (contains (get (tr_content text_run) []) target); reflexivity.
Qed.

Lemma find_text_range_element_runs (target : pystr)
    (element : StructuralElement) :
  _find_text_range_element target element
  = first_some (range_in_run target) (text_runs_element element).
Proof.
  induction element as [s e p t IH] using StructuralElement_nested_ind.
  cbn [_find_text_range_element text_runs_element].
  rewrite first_some_app.
  assert (Hp :
    match p with
    | Some para =>
        first_some (find_in_run target) (get (p_elements para) [])
    | None => None
    end
    = first_some (range_in_run target)
        match p with Some para => runs_of_paragraph para | None => [] end).
  { destruct p as [para|]; [apply find_in_paragraph_runs | reflexivity]. }
  rewrite Hp.
  destruct (first_some (range_in_run target) _) as [r|]; [reflexivity|].
  destruct t as [rows|]; [|reflexivity].
  specialize (IH rows eq_refl).
  rewrite first_some_flat_map. apply first_some_ext.
  eapply Forall_impl; [|exact IH]. intros row Hrow. cbn beta.
  rewrite first_some_flat_map. apply first_some_ext.
  eapply Forall_impl; [|exact Hrow]. intros cell Hcell. cbn beta.
  rewrite first_some_flat_map. now apply first_some_ext.
Qed.

(** The resolver returns the range of the first run, in reading order, that
    holds the text. *)
Lemma find_text_range_runs (content_elements : list StructuralElement)
    (target : pystr) :
  _find_text_range content_elements target
  = first_some (range_in_run target) (text_runs content_elements).
Proof.
  unfold _find_text_range, text_runs. rewrite first_some_flat_map.
  apply first_some_ext, Forall_forall. intros element _.
  apply find_text_range_element_runs.
Qed.

End Resolver.

Section ResolverRanges.

Lemma truthy_nonempty (a : pystr) : a <> [] -> truthy a = true.
Proof. destruct a; [congruence | reflexivity]. Qed.

Lemma contains_find (text a : pystr) :
  contains text a = true -> exists off, find a text = Some off.
Proof.
  unfold contains. destruct (find a text) as [off|]; [|discriminate].
  now exists off.
Qed.

Lemma contains_false_find (text a : pystr) :
  contains text a = false -> find a text = None.
Proof.
  unfold contains. now destruct (find a text).
Qed.

Lemma range_in_run_found (a : pystr) (run : Z * pystr) (off : nat) :
  find a (snd run) = Some off ->
  range_in_run a run
  = Some (fst run + Z.of_nat off, fst run + Z.of_nat off + len a).
Proof.
  intros Hf. unfold range_in_run, contains, index. now rewrite Hf.
Qed.

Lemma range_in_run_None (a : pystr) (run : Z * pystr) :
  range_in_run a run = None <-> contains (snd run) a = false.
Proof.
  unfold range_in_run. destruct (contains (snd run) a); split; congruence.
Qed.

Lemma firstn_prefix (a l : pystr) :
  firstn (length a) l = a -> prefixb a l = true.
Proof.
  intros Hf. rewrite <- (firstn_skipn (length a) l), Hf. apply prefixb_app.
Qed.

Lemma slice_width (text : pystr) (j n : nat) :
  slice text j (j + n) = firstn n (skipn j text).
Proof. unfold slice. f_equal. lia. Qed.

(** The text stands at the offset [find] gives, and at no lower one. *)
Lemma slice_at_occurrence (a text : pystr) (off : nat) :
  find a text = Some off ->
  slice text off (off + length a) = a
  /\ forall j, (j < off)%nat -> slice text j (j + length a) <> a.
Proof.
  intros Hf. destruct (find_Some _ _ _ Hf) as (_ & Hp & Hlow). split.
  - rewrite slice_width. apply prefixb_true in Hp as [t ->].
    now apply firstn_exact.
  - intros j Hj Heq. rewrite slice_width in Heq.
    apply firstn_prefix in Heq. rewrite (Hlow j Hj) in Heq. discriminate.
Qed.

(** A run that stands in the buffer carries its occurrences there. *)
Lemma slice_in_document (buf a : pystr) (run : Z * pystr) (off : nat) :
  run_stands_in buf run ->
  find a (snd run) = Some off ->
  slice buf (Z.to_nat (fst run + Z.of_nat off))
    (Z.to_nat (fst run + Z.of_nat off + len a)) = a.
Proof.
  intros [Hpos Hrun] Hf.
  destruct (find_Some _ _ _ Hf) as (Hoff & Hp & _).
  apply prefixb_true in Hp as [t Ht].
  rewrite slice_width in Hrun.
  replace (Z.to_nat (fst run + Z.of_nat off + len a))
    with (Z.to_nat (fst run + Z.of_nat off) + length a)%nat
    by (unfold len; lia).
  rewrite slice_width.
  replace (Z.to_nat (fst run + Z.of_nat off))
    with (off + Z.to_nat (fst run))%nat by lia.
  rewrite <- skipn_skipn.
  rewrite <- (firstn_skipn (length (snd run)) (skipn (Z.to_nat (fst run)) buf)).
  rewrite Hrun, skipn_app.
  replace (off - length (snd run))%nat with O by lia.
  rewrite Ht. cbn [skipn]. rewrite <- app_assoc. now apply firstn_exact.
Qed.

Lemma commented_ranges_single (content_elements : list StructuralElement)
    (comment : Comment) :
  commented_ranges content_elements [comment]
  = commented_range_of content_elements comment.
Proof. unfold commented_ranges. simpl. apply app_nil_r. Qed.

(** C3, as the claim states it, fails: an anchor text can occur verbatim
    in the text of the document and still get no range.  In the example
    with a heading the words [Todo item] stand at [7, 16) of the text, but
    in two text runs, [Todo ] and [item]; the resolver looks for the anchor
    inside one run at a time and returns nothing for the comment. *)
Lemma anchor_across_runs_gets_no_range :
  document_text notes_buffer (body_content (body notes_document))
  /\ slice notes_buffer 7 16 = lit "Todo item"
  /\ c_anchor (_parse_comment todo_item_comment) = Some (lit "Todo item")
  /\ commented_ranges (body_content (body notes_document))
       [_parse_comment todo_item_comment] = [].
Proof.
  split; [|repeat split].
  unfold document_text. apply Forall_forall. intros run Hin.
  vm_compute in Hin.
  destruct Hin as [<- | [<- | [<- | []]]];
    (split; [vm_compute; discriminate | vm_compute; reflexivity]).
Qed.

(** C3, amended: for a comment whose anchor text [a] is not empty and
    stands inside a single text run of the document, the resolver returns
    exactly one range for it: [start] is the [startIndex] of the first run,
    in reading order (table cells included), that holds [a], plus the
    offset of the first occurrence of [a] in that run, [end] is
    [start + len a], and the text of the document at [start, end) is [a].
    A comment with no anchor, an empty anchor, or an anchor that no single
    run holds (even when it occurs in the text across runs), gives no
    range. *)
Theorem resolver_ranges (content_elements : list StructuralElement)
    (comment : Comment) :
  (forall a,
     c_anchor comment = Some a -> a <> [] ->
     Exists (fun run => contains (snd run) a = true)
       (text_runs content_elements) ->
     exists before run after off,
       text_runs content_elements = before ++ run :: after
       /\ Forall (fun r => contains (snd r) a = false) before
       /\ find a (snd run) = Some off
       /\ (forall j, (j < off)%nat -> slice (snd run) j (j + length a) <> a)
       /\ commented_ranges content_elements [comment]
          = [ mkCommentedRange (fst run + Z.of_nat off)
                (fst run + Z.of_nat off + len a) (c_comment_id comment)
                (c_content comment) a ]
       /\ forall buf,
            document_text buf content_elements ->
            slice buf (Z.to_nat (fst run + Z.of_nat off))
              (Z.to_nat (fst run + Z.of_nat off + len a)) = a)
  /\ (c_anchor comment = None \/ c_anchor comment = Some []
      \/ (exists a, c_anchor comment = Some a
                    /\ Forall (fun run => contains (snd run) a = false)
                         (text_runs content_elements)) ->
      commented_ranges content_elements [comment] = []).
Proof.
  split.
  - intros a Ha Hne Hex.
    destruct (first_some_Exists (range_in_run a) (text_runs content_elements))
      as [r Hr].
    { eapply Exists_impl; [|exact Hex]. intros run Hc. cbn beta in Hc.
      intros Hn. apply range_in_run_None in Hn. congruence. }
    destruct (first_some_split _ _ _ Hr)
      as (before & run & after & Hsplit & Hbefore & Hrun).
    assert (Hc : contains (snd run) a = true).
    { destruct (contains (snd run) a) eqn:Hc; [reflexivity|].
      apply range_in_run_None in Hc. congruence. }
    destruct (contains_find _ _ Hc) as [off Hoff].
    exists before, run, after, off.
    destruct (slice_at_occurrence _ _ _ Hoff) as [_ Hfirst].
    repeat split; [exact Hsplit | | exact Hoff | exact Hfirst | |].
    + eapply Forall_impl; [|exact Hbefore]. intros r0.
      apply range_in_run_None.
    + rewrite commented_ranges_single. unfold commented_range_of.
      rewrite Ha, (truthy_nonempty _ Hne), find_text_range_runs, Hr.
      rewrite (range_in_run_found _ _ _ Hoff) in Hrun.
      now injection Hrun as <-.
    + intros buf Hdoc. apply slice_in_document; [|exact Hoff].
      unfold document_text in Hdoc. rewrite Hsplit in Hdoc.
      apply Forall_app in Hdoc as [_ Hdoc]. now inversion Hdoc.
  - rewrite commented_ranges_single. unfold commented_range_of.
    intros [-> | [-> | (a & -> & Hnone)]]; [reflexivity | reflexivity |].
    destruct (truthy a); [|reflexivity].
    rewrite find_text_range_runs, first_some_None; [reflexivity|].
    eapply Forall_impl; [|exact Hnone]. intros run.
    apply range_in_run_None.
Qed.

(** The comment on [item] in the example with a heading: its range is
    [12, 16), in the second run of the second paragraph. *)
Lemma resolver_ranges_witness :
  exists before run after off,
    text_runs (body_content (body notes_document)) = before ++ run :: after
    /\ Forall (fun r => contains (snd r) (lit "item") = false) before
    /\ find (lit "item") (snd run) = Some off
    /\ (forall j, (j < off)%nat ->
          slice (snd run) j (j + length (lit "item")) <> lit "item")
    /\ commented_ranges (body_content (body notes_document))
         [_parse_comment item_comment]
       = [ mkCommentedRange (fst run + Z.of_nat off)
             (fst run + Z.of_nat off + len (lit "item"))
             (c_comment_id (_parse_comment item_comment))
             (c_content (_parse_comment item_comment)) (lit "item") ]
    /\ forall buf,
         document_text buf (body_content (body notes_document)) ->
         slice buf (Z.to_nat (fst run + Z.of_nat off))
           (Z.to_nat (fst run + Z.of_nat off + len (lit "item")))
         = lit "item".
Proof.
  apply (proj1 (resolver_ranges (body_content (body notes_document))
                  (_parse_comment item_comment)) (lit "item"));
    [reflexivity | discriminate |].
  apply Exists_cons_tl, Exists_cons_tl, Exists_cons_hd. reflexivity.
Defined.

End ResolverRanges.

(** ** The planner at the end of the document *)

Section PlannerAtEnd.

(** C2, on the code: with no section hint (and likewise with a hint that
    names no section) the planner answers [safe = true] and no affected
    comment without looking at the ranges.  In the one-line document the
    comment on [Hello] resolves to [1, 6], the target offset is 6, the
    range contains it under its inclusive bounds, and the planner still
    reports the offset as safe. *)
Theorem planner_skips_check_at_document_end :
  fst (find_commented_ranges (lit "doc")
         (sim_of hello_document [hello_comment]))
  = Ret [ mkCommentedRange 1 6 (lit "c1") (lit "Check this") (lit "Hello") ]
  /\ cr_contains
       (mkCommentedRange 1 6 (lit "c1") (lit "Check this") (lit "Hello")) 6
     = true
  /\ fst (calculate_insertion_point (lit "doc") None (lit "safe")
            (sim_of hello_document [hello_comment]))
     = Ret (mkInsertionPoint 6 None true [] (lit "new_section")
              (lit "Inserting at document end"))
  /\ fst (calculate_insertion_point (lit "doc") (Some (lit "Budget"))
            (lit "safe") (sim_of hello_document [hello_comment]))
     = Ret (mkInsertionPoint 6 None true [] (lit "new_section")
              (lit "Section " ++ [dquote] ++ lit "Budget" ++ [dquote]
               ++ lit " not found, inserting at document end")).
Proof. repeat split; vm_compute; reflexivity. Qed.

(** C5, on the code: with no section hint, a document resource without a
    body gives the offset 0, and a body whose content is the empty list
    makes the planner raise [IndexError]; a new, empty Google Doc (a section
    break and one empty paragraph) gives the offset 1. *)
Theorem planner_on_empty_documents :
  fst (calculate_insertion_point (lit "doc") None (lit "safe")
         (sim_of bodiless_document []))
  = Ret (mkInsertionPoint 0 None true [] (lit "new_section")
           (lit "Inserting at document end"))
  /\ fst (calculate_insertion_point (lit "doc") None (lit "safe")
            (sim_of blockless_document []))
     = Raise (IndexError (lit "list index out of range"))
  /\ fst (calculate_insertion_point (lit "doc") None (lit "safe")
            (sim_of blank_document []))
     = Ret (mkInsertionPoint 1 None true [] (lit "new_section")
              (lit "Inserting at document end")).
Proof. repeat split; vm_compute; reflexivity. Qed.

End PlannerAtEnd.

(** ** The search of the attribution step *)

Section Search.

Lemma find_from_Some (text sub : pystr) (pos idx : nat) :
  find_from text sub pos = Some idx ->
  (pos <= idx)%nat /\ (idx + length sub <= length text)%nat.
Proof.
  unfold find_from. destruct (Nat.leb_spec pos (length text)); [|discriminate].
  destruct (find sub (skipn pos text)) as [i|] eqn:Hf; [|discriminate].
  intros [= <-]. destruct (find_Some _ _ _ Hf) as (Hi & Hp & _).
  apply prefixb_true in Hp as [t Ht].
  apply (f_equal (@length ascii)) in Ht.
  rewrite !length_skipn, length_app in Ht. rewrite length_skipn in Hi. lia.
Qed.

Lemma find_from_0 (text sub : pystr) : find_from text sub 0 = find sub text.
Proof.
  unfold find_from. simpl. now destruct (find sub text).
Qed.

(** With a search text that is not empty the loop over a paragraph ends
    within the fuel it is given, and it has a match exactly when the text
    occurs from [pos] on. *)
Lemma find_occurrences_total (para_idx : Z) (start_index : option Z)
    (full_text lower_text lower_search search_text : pystr) :
  lower_search <> [] -> search_text <> [] ->
  forall fuel pos,
    (length lower_text - pos < fuel)%nat ->
    exists ms,
      find_occurrences fuel para_idx start_index full_text lower_text
        lower_search search_text pos = Some ms
      /\ (ms <> [] <-> find_from lower_text lower_search pos <> None).
Proof.
  intros Hls Hs. induction fuel as [|fuel IH]; intros pos Hfuel; [lia|].
  cbn [find_occurrences].
  destruct (find_from lower_text lower_search pos) as [idx|] eqn:Hf.
  - destruct (find_from_Some _ _ _ _ Hf) as [Hpos Hidx].
    assert (0 < length lower_search)%nat
      by (destruct lower_search; [congruence | simpl; lia]).
    assert (0 < length search_text)%nat
      by (destruct search_text; [congruence | simpl; lia]).
    destruct (IH (idx + length search_text)%nat) as (rest & -> & _); [lia|].
    eexists. split; [reflexivity|]. split; congruence.
  - exists []. split; [reflexivity|]. split; congruence.
Qed.

(** With the empty search text the loop over a paragraph never ends. *)
Lemma find_occurrences_empty_search (para_idx : Z) (start_index : option Z)
    (full_text lower_text : pystr) (fuel pos : nat) :
  (pos <= length lower_text)%nat ->
  find_occurrences fuel para_idx start_index full_text lower_text [] [] pos
  = None.
Proof.
  revert pos. induction fuel as [|fuel IH]; intros pos Hpos; [reflexivity|].
  cbn [find_occurrences]. unfold find_from.
  destruct (Nat.leb_spec pos (length lower_text)); [|lia].
  destruct (skipn pos lower_text); cbn [find prefixb option_map];
    rewrite Nat.add_0_r; cbn [length]; rewrite Nat.add_0_r;
    now rewrite IH.
Qed.

Lemma lower_nonempty (s : pystr) : s <> [] -> lower s <> [].
Proof. destruct s; [congruence | discriminate]. Qed.

Lemma app_nonempty {A : Type} (l1 l2 : list A) :
  l1 ++ l2 <> [] <-> l1 <> [] \/ l2 <> [].
Proof.
  destruct l1; simpl; split; try tauto; try (intros _; discriminate).
  intros _. left. discriminate.
Qed.

(** The search returns for every search text that is not empty, and it has
    a match exactly when some block matches. *)
Lemma find_in_paragraphs_matches (search_text : pystr) :
  search_text <> [] ->
  forall content_elems para_idx,
    exists ms,
      find_in_paragraphs search_text para_idx content_elems = Some ms
      /\ (ms <> []
          <-> existsb (paragraph_matches search_text) content_elems = true).
Proof.
  intros Hs.
  induction content_elems as [|elem rest IH]; intros para_idx.
  - exists []. split; [reflexivity|]. simpl. split; congruence.
  - cbn [find_in_paragraphs existsb]. unfold paragraph_matches at 1.
    destruct (se_paragraph elem) as [paragraph|]; [|apply IH].
    destruct (paragraph_truthy paragraph); cbn [negb andb orb]; [|apply IH].
    destruct (text_parts (get (p_elements paragraph) [])) as [|part parts]
      eqn:Hparts; [apply IH|].
    set (full_text := concat (part :: parts)).
    destruct (find_occurrences_total (para_idx + 1)
                (first_startIndex (get (p_elements paragraph) [])) full_text
                (lower full_text) (lower search_text) search_text
                (lower_nonempty _ Hs) Hs (S (length (lower full_text))) 0)
      as (here & -> & Hhere); [lia|].
    destruct (IH (para_idx + 1)) as (later & -> & Hlater).
    exists (here ++ later). split; [reflexivity|].
    rewrite app_nonempty, Hhere, Hlater, find_from_0, orb_true_iff.
    unfold contains.
    destruct (find (lower search_text) (lower full_text));
      split; intros [Hl | Hr]; try congruence; auto.
    left. congruence.
Qed.

End Search.

Section SearchAgainstResolver.

(** A run of a top-level paragraph that the resolver would take is part of
    a block that matches. *)
Lemma resolver_hit_matches (search_text : pystr)
    (content_elems : list StructuralElement) (elem : StructuralElement)
    (para : Paragraph) (text_elem : ParagraphElement) :
  In elem content_elems ->
  se_paragraph elem = Some para ->
  In text_elem (get (p_elements para) []) ->
  find_in_run search_text text_elem <> None ->
  search_text <> [] ->
  existsb (paragraph_matches search_text) content_elems = true.
Proof.
  intros Hin Hpara Hrun Hhit Hs. apply existsb_exists. exists elem.
  split; [exact Hin|]. unfold paragraph_matches. rewrite Hpara.
  assert (Htruthy : paragraph_truthy para = true).
  { unfold paragraph_truthy. destruct (p_elements para); [reflexivity|].
    destruct Hrun. }
  rewrite Htruthy. cbn [andb].
  unfold find_in_run in Hhit.
  destruct (pe_textRun text_elem) as [text_run|] eqn:Htr; [|congruence].
  destruct (contains (get (tr_content text_run) []) search_text) eqn:Hc;
    [|congruence].
  destruct (tr_content text_run) as [text|] eqn:Htext.
  2:{ simpl in Hc. unfold contains in Hc. simpl in Hc.
      destruct search_text; [congruence | discriminate]. }
  assert (Hpart : In text (text_parts (get (p_elements para) []))).
  { unfold text_parts. apply in_flat_map. exists text_elem.
    split; [exact Hrun|]. rewrite Htr, Htext. now left. }
  destruct (text_parts (get (p_elements para) [])) as [|part parts] eqn:Hparts;
    [destruct Hpart|].
  destruct (concat_part _ _ Hpart) as (a & b & ->).
  apply contains_lower. now apply contains_app.
Qed.

(** A text that stands in the concatenation of the runs of a top-level
    paragraph, in whatever letter case, is part of a block that matches. *)
Lemma paragraph_text_matches (search_text t : pystr)
    (content_elems : list StructuralElement) (elem : StructuralElement)
    (para : Paragraph) :
  In elem content_elems ->
  se_paragraph elem = Some para ->
  contains (concat (text_parts (get (p_elements para) []))) t = true ->
  lower search_text = lower t ->
  search_text <> [] ->
  existsb (paragraph_matches search_text) content_elems = true.
Proof.
  intros Hin Hpara Ht Hcase Hs. apply existsb_exists. exists elem.
  split; [exact Hin|]. unfold paragraph_matches. rewrite Hpara.
  assert (Hparts : text_parts (get (p_elements para) []) <> []).
  { intros Hnil. rewrite Hnil in Ht. cbn [concat] in Ht.
    apply contains_iff in Ht as (l1 & l2 & Hl).
    destruct l1; [|discriminate]. destruct t; [|discriminate].
    destruct search_text; [congruence | discriminate]. }
  assert (Htruthy : paragraph_truthy para = true).
  { unfold paragraph_truthy.
    destruct (p_elements para); [reflexivity|]. now destruct Hparts. }
  rewrite Htruthy. cbn [andb].
  destruct (text_parts (get (p_elements para) [])) as [|part parts];
    [congruence|].
  rewrite Hcase. now apply contains_lower.
Qed.

(** C10, as the claim states it, fails: the resolver finds text in a table
    cell that the search of the attribution step does not find, so the
    inputs of the search are not a superset of those of the resolver. *)
Lemma search_misses_table_cells :
  ~ (forall (doc : Document) (search_text : pystr),
       search_text <> [] ->
       _find_text_range (body_content (body doc)) search_text <> None ->
       exists m ms, _find_text_in_document doc search_text = Some (m :: ms)).
Proof.
  intros Hall.
  destruct (Hall table_document (lit "abc")) as (m & ms & Hm);
    [discriminate | vm_compute; discriminate | vm_compute in Hm; discriminate].
Qed.

(** C10, amended: on strings of Latin-1 characters (the strings of this
    development, on which [lower] works character by character) and for a
    search text that is not empty, the search of the attribution step
    returns, and it has a match exactly when, for some top-level paragraph,
    the lower-cased search text occurs in the lower-cased concatenation of
    the text runs of that paragraph.  So it finds every text the resolver
    finds in a run of a top-level paragraph, and every text that stands in
    the concatenation of the runs of a top-level paragraph, across runs or
    not, in whatever letter case; the resolver, case-sensitive and run by
    run, finds neither [NOTES] nor [Todo item] in the example with a
    heading.  But the search does not look into table cells, where the
    resolver does. *)
Theorem search_is_caseless_over_paragraphs :
  (forall (doc : Document) (search_text : pystr),
     search_text <> [] ->
     exists ms,
       _find_text_in_document doc search_text = Some ms
       /\ (ms <> []
           <-> existsb (paragraph_matches search_text)
                 (body_content (body doc)) = true))
  /\ (forall (doc : Document) (search_text : pystr) elem para text_elem,
        search_text <> [] ->
        In elem (body_content (body doc)) ->
        se_paragraph elem = Some para ->
        In text_elem (get (p_elements para) []) ->
        find_in_run search_text text_elem <> None ->
        exists m ms, _find_text_in_document doc search_text = Some (m :: ms))
  /\ (forall (doc : Document) (search_text t : pystr) elem para,
        search_text <> [] ->
        In elem (body_content (body doc)) ->
        se_paragraph elem = Some para ->
        contains (concat (text_parts (get (p_elements para) []))) t = true ->
        lower search_text = lower t ->
        exists m ms, _find_text_in_document doc search_text = Some (m :: ms))
  /\ (_find_text_range (body_content (body notes_document)) (lit "NOTES")
      = None
      /\ exists m,
           _find_text_in_document notes_document (lit "NOTES") = Some [m])
  /\ (_find_text_range (body_content (body notes_document)) (lit "Todo item")
      = None
      /\ exists m,
           _find_text_in_document notes_document (lit "Todo item") = Some [m])
  /\ (_find_text_range (body_content (body table_document)) (lit "abc")
      = Some (4, 7)
      /\ _find_text_in_document table_document (lit "abc") = Some []).
Proof.
  split; [|split; [|split; [|split; [|split]]]].
  - intros doc search_text Hs. now apply find_in_paragraphs_matches.
  - intros doc search_text elem para text_elem Hs Hin Hpara Hrun Hhit.
    destruct (find_in_paragraphs_matches search_text Hs
                (body_content (body doc)) (-1)) as (ms & Hms & Hiff).
    unfold _find_text_in_document. rewrite Hms.
    destruct ms as [|m ms]; [|now exists m, ms].
    exfalso. apply (proj2 Hiff); [|reflexivity].
    eapply resolver_hit_matches; eassumption.
  - intros doc search_text t elem para Hs Hin Hpara Ht Hcase.
    destruct (find_in_paragraphs_matches search_text Hs
                (body_content (body doc)) (-1)) as (ms & Hms & Hiff).
    unfold _find_text_in_document. rewrite Hms.
    destruct ms as [|m ms]; [|now exists m, ms].
    exfalso. apply (proj2 Hiff); [|reflexivity].
    eapply paragraph_text_matches; eassumption.
  - split; [reflexivity|]. eexists. vm_compute. reflexivity.
  - split; [reflexivity|]. eexists. vm_compute. reflexivity.
  - split; reflexivity.
Qed.

(** The word [item] of the example: the resolver takes it from the second
    run of the paragraph, and the search finds it too. *)
Lemma search_is_caseless_over_paragraphs_witness :
  exists m ms, _find_text_in_document notes_document (lit "item") = Some (m :: ms).
Proof.
  apply (proj1 (proj2 search_is_caseless_over_paragraphs) notes_document
           (lit "item")
           (text_paragraph 7 17 (Some (lit "NORMAL_TEXT"))
              [(7, lit "Todo "); (12, lit "item" ++ [newline])])
           (mkParagraph
              (Some [ mkParagraphElement (Some 7)
                        (Some (mkTextRun (Some (lit "Todo "))));
                      mkParagraphElement (Some 12)
                        (Some (mkTextRun (Some (lit "item" ++ [newline])))) ])
              (Some (mkParagraphStyle (Some (lit "NORMAL_TEXT")))))
           (mkParagraphElement (Some 12)
              (Some (mkTextRun (Some (lit "item" ++ [newline]))))));
    [discriminate | | reflexivity | | ].
  - right. right. left. reflexivity.
  - right. left. reflexivity.
  - vm_compute. discriminate.
Defined.

End SearchAgainstResolver.

(** ** The merge orchestrator *)

Section Reads.

Context {S : Type} `{DocStore S}.

Lemma readonly_ret {A : Type} (a : A) : readonly (@ret S A a).
Proof. intros s. reflexivity. Qed.

Lemma readonly_raise {A : Type} (e : exn) : readonly (@raise S A e).
Proof. intros s. reflexivity. Qed.

Lemma readonly_reading {A : Type} (f : S -> outcome A) : readonly (reading f).
Proof. intros s. reflexivity. Qed.

Lemma readonly_bind {A B : Type} (m : M S A) (k : A -> M S B) :
  readonly m -> (forall a, readonly (k a)) -> readonly (bind m k).
Proof.
  intros Hm Hk s. unfold bind. specialize (Hm s).
  destruct (m s) as [[a|e|] s']; simpl in Hm; subst s';
    [apply Hk | reflexivity | reflexivity].
Qed.

Lemma readonly_try_except {A : Type} (m : M S A) (h : exn -> M S A) :
  readonly m -> (forall e, readonly (h e)) -> readonly (try_except m h).
Proof.
  intros Hm Hh s. unfold try_except. specialize (Hm s).
  destruct (m s) as [[a|e|] s']; simpl in Hm; subst s';
    [reflexivity | apply Hh | reflexivity].
Qed.

Lemma readonly_ensure_authenticated : readonly _ensure_authenticated.
Proof.
  intros s. unfold _ensure_authenticated. now destruct (ensure_authenticated s).
Qed.

Lemma readonly_get_document (doc_url_or_id : pystr) (tabs_content : bool) :
  readonly (get_document doc_url_or_id tabs_content).
Proof.
  unfold get_document.
  apply readonly_bind; [apply readonly_ensure_authenticated|]. intros _.
  apply readonly_try_except; [apply readonly_reading|].
  intros [status reason| | | | |]; try apply readonly_raise.
  destruct (status =? 404); [apply readonly_raise|].
  destruct ((status =? 400) && _); [apply readonly_raise|].
  destruct (status =? 403); apply readonly_raise.
Qed.

Lemma readonly_get_comments (doc_id : pystr) (include_resolved : bool) :
  readonly (get_comments doc_id include_resolved).
Proof.
  unfold get_comments. apply readonly_try_except.
  - apply readonly_bind; [apply readonly_reading|].
    intros results. apply readonly_ret.
  - intros e. apply readonly_raise.
Qed.

Lemma readonly_analyze_document (doc_url_or_id : pystr)
    (include_comments : bool) :
  readonly (analyze_document doc_url_or_id include_comments).
Proof.
  unfold analyze_document.
  apply readonly_bind; [apply readonly_get_document|]. intros doc.
  destruct (analyze_sections _) as [sections text_content].
  apply readonly_bind; [|intros comments; apply readonly_ret].
  destruct include_comments; [|apply readonly_ret].
  apply readonly_try_except; [apply readonly_get_comments|].
  intros e. apply readonly_ret.
Qed.

Lemma readonly_find_commented_ranges (doc_id : pystr) :
  readonly (find_commented_ranges doc_id).
Proof.
  unfold find_commented_ranges.
  apply readonly_bind; [apply readonly_get_document|]. intros doc.
  apply readonly_bind; [apply readonly_get_comments|]. intros comments.
  apply readonly_ret.
Qed.

Lemma readonly_at_document_end (doc_id reason : pystr) :
  readonly (at_document_end doc_id reason).
Proof.
  unfold at_document_end.
  apply readonly_bind; [apply readonly_get_document|]. intros doc.
  apply readonly_bind; [apply readonly_reading|]. intros doc_end.
  apply readonly_ret.
Qed.

(** The planner only reads. *)
Lemma readonly_calculate_insertion_point (doc_id : pystr)
    (section_name : option pystr) (strategy : pystr) :
  readonly (calculate_insertion_point doc_id section_name strategy).
Proof.
  unfold calculate_insertion_point.
  apply readonly_bind; [apply readonly_analyze_document|]. intros analysis.
  apply readonly_bind; [apply readonly_find_commented_ranges|]. intros ranges.
  destruct section_name as [name|]; [|apply readonly_at_document_end].
  destruct (truthy name); [|apply readonly_at_document_end].
  destruct (_find_section_boundaries analysis name) as [[start_ end_]|];
    [|apply readonly_at_document_end].
  destruct (PyStr.eqb strategy (lit "safe"));
    [apply readonly_ret | apply readonly_at_document_end].
Qed.

Lemma run_readonly {A : Type} (m : M S A) (s : S) (r : outcome A) :
  readonly m -> fst (m s) = r -> m s = (r, s).
Proof.
  intros Hm Hr. specialize (Hm s). destruct (m s) as [r' s'].
  simpl in *. now subst.
Qed.

End Reads.

Section DocumentId.

Lemma take_while_all (p : ascii -> bool) (s : pystr) :
  Forall (fun c => p c = true) (take_while p s).
Proof.
  induction s as [|c s IH]; simpl; [constructor|].
  destruct (p c) eqn:Hc; now constructor.
Qed.

(** A string of id characters has no [/d/] in it. *)
Lemma search_doc_id_of_id (g : pystr) :
  Forall (fun c => is_id_char c = true) g -> search_doc_id g = None.
Proof.
  induction 1 as [|c g Hc _ IH]; [reflexivity|].
  cbn [search_doc_id].
  assert (Hp : prefixb (lit "/d/") (c :: g) = false).
  { cbn [lit list_ascii_of_string prefixb].
    destruct (Ascii.eqb "/" c) eqn:Heq; [|reflexivity].
    apply Ascii.eqb_eq in Heq. subst c. discriminate Hc. }
  rewrite Hp. exact IH.
Qed.

Lemma search_doc_id_Some (u g : pystr) :
  search_doc_id u = Some g -> Forall (fun c => is_id_char c = true) g.
Proof.
  induction u as [|c u IH]; [discriminate|]. cbn [search_doc_id].
  destruct (prefixb (lit "/d/") (c :: u)).
  - destruct (take_while is_id_char (skipn 3 (c :: u))) as [|a g'] eqn:Ht.
    + exact IH.
    + intros [= <-]. rewrite <- Ht. apply take_while_all.
  - exact IH.
Qed.

(** The id of an id is the id: [get_document] extracts it once more from
    what [merge_content] extracted. *)
Lemma extract_doc_id_idempotent (u : pystr) :
  extract_doc_id (extract_doc_id u) = extract_doc_id u.
Proof.
  unfold extract_doc_id at 2 3.
  destruct (search_doc_id u) as [g|] eqn:Hu.
  - unfold extract_doc_id.
    now rewrite (search_doc_id_of_id g (search_doc_id_Some _ _ Hu)).
  - unfold extract_doc_id. now rewrite Hu.
Qed.

End DocumentId.

Section Merge.

Context {S : Type} `{DocStore S}.

Lemma bind_Ret {A B : Type} (m : M S A) (k : A -> M S B) (s s' : S) (a : A) :
  m s = (Ret a, s') -> bind m k s = k a s'.
Proof. intros Hm. unfold bind. now rewrite Hm. Qed.

Lemma bind_Raise {A B : Type} (m : M S A) (k : A -> M S B) (s s' : S)
    (e : exn) :
  m s = (Raise e, s') -> bind m k s = (Raise e, s').
Proof. intros Hm. unfold bind. now rewrite Hm. Qed.

(** C6: when the planned insertion point has affected comments and the
    comment strategy of the options is [ask], [merge_content] returns the
    decision payload ([success] false, the flag [requires_user_decision],
    the ids of the affected comments, the insertion point and the three
    strategies offered) and leaves the store as it found it: no batch is
    submitted and no comment is created. *)
Theorem ask_returns_decision_without_mutation (s : S)
    (doc_url content : pystr) (section : option pystr)
    (options : MergeOptions) (ip : InsertionPoint) :
  fst (calculate_insertion_point (extract_doc_id doc_url)
         (or_else section (target_section options))
         (if preserve_comments options then lit "safe" else lit "simple") s)
  = Ret ip ->
  ip_affected_comments ip <> [] ->
  comment_strategy options = lit "ask" ->
  merge_content doc_url content section (Some options) s
  = (Ret (decision_result ip), s)
  /\ success (decision_result ip) = false
  /\ requires_user_decision (decision_result ip) = Some true
  /\ affected_comments (decision_result ip) = Some (ip_affected_comments ip)
  /\ insertion_point (decision_result ip) = Some ip
  /\ options_offered (decision_result ip)
     = Some [ lit "insert_before"; lit "insert_after";
              lit "update_with_preservation" ].
Proof.
  intros Hplan Haffected Hask.
  split; [|repeat split].
  apply run_readonly in Hplan; [|apply readonly_calculate_insertion_point].
  unfold merge_content, try_except, merge_content_body. cbn [get].
  rewrite (bind_Ret _ _ _ _ _ Hplan), Hask.
  destruct (ip_affected_comments ip); [congruence | reflexivity].
Qed.




End Merge.

Section MergeExamples.

(** The example with a heading, asked to merge into [Notes] with the
    strategy [ask]: the end of the section lies in the range of the comment
    on [item]. *)
Lemma ask_returns_decision_without_mutation_witness :
  merge_content (lit "doc") (lit "New text") (Some (lit "notes"))
    (Some (mkMergeOptions true (lit "ask") true true (Some (lit "meeting"))
             None))
    (sim_of notes_document [item_comment])
  = (Ret (decision_result
            (mkInsertionPoint 16 (Some (lit "notes")) false [lit "c7"]
               (lit "after")
               (lit "End of section " ++ [dquote] ++ lit "notes" ++ [dquote]))),
     sim_of notes_document [item_comment]).
Proof.
  apply (ask_returns_decision_without_mutation
           (sim_of notes_document [item_comment]) (lit "doc") (lit "New text")
           (Some (lit "notes"))
           (mkMergeOptions true (lit "ask") true true (Some (lit "meeting"))
              None)
           (mkInsertionPoint 16 (Some (lit "notes")) false [lit "c7"]
              (lit "after")
              (lit "End of section " ++ [dquote] ++ lit "notes" ++ [dquote])));
    [vm_compute; reflexivity | discriminate | reflexivity].
Defined.



End MergeExamples.

(** ** More on the planner and on the source comment *)

Section PlannerClassification.

Context {S : Type} `{DocStore S}.

Lemma at_document_end_safe (s : S) (doc_id reason : pystr)
    (ip : InsertionPoint) :
  fst (at_document_end doc_id reason s) = Ret ip ->
  ip_safe ip = true /\ ip_affected_comments ip = [].
Proof.
  unfold at_document_end, bind, reading, ret.
  destruct (get_document doc_id true s) as [[doc|e|] s']; try discriminate.
  destruct (doc_end_of doc) as [doc_end|e|]; try discriminate.
  simpl. intros [= <-]. now split.
Qed.

(** With no section hint the planner reports every offset as safe, whatever
    the commented ranges are. *)
Lemma document_end_reports_safe (s : S) (doc_id strategy : pystr)
    (ip : InsertionPoint) :
  fst (calculate_insertion_point doc_id None strategy s) = Ret ip ->
  ip_safe ip = true /\ ip_affected_comments ip = [].
Proof.
  unfold calculate_insertion_point, bind.
  destruct (analyze_document doc_id true s) as [[analysis|e|] s1];
    try discriminate.
  destruct (find_commented_ranges doc_id s1) as [[ranges|e|] s2];
    try discriminate.
  apply at_document_end_safe.
Qed.

Lemma filter_nil_iff {A : Type} (f : A -> bool) (l : list A) :
  filter f l = [] <-> forall x, In x l -> f x = false.
Proof.
  induction l as [|x l IH]; simpl; [tauto|].
  destruct (f x) eqn:Hx.
  - split; [discriminate|]. intros Hall.
    specialize (Hall x (or_introl eq_refl)). congruence.
  - rewrite IH. split.
    + intros Hall y [<- | Hy]; auto.
    + intros Hall y Hy. apply Hall. now right.
Qed.

(** At the end of a section that was found, under the strategy [safe], the
    planner does classify: the affected comments are the ids of the ranges
    that contain the offset [section_end - 1], bounds included, and the
    offset is unsafe exactly when there is such a range. *)
Lemma section_end_classification (s : S) (doc_id name : pystr)
    (analysis : DocumentAnalysis) (ranges : list CommentedRange)
    (section_start section_end : Z) :
  fst (analyze_document doc_id true s) = Ret analysis ->
  fst (find_commented_ranges doc_id s) = Ret ranges ->
  truthy name = true ->
  _find_section_boundaries analysis name = Some (section_start, section_end) ->
  exists ip,
    calculate_insertion_point doc_id (Some name) (lit "safe") s = (Ret ip, s)
    /\ ip_index ip = section_end - 1
    /\ ip_affected_comments ip
       = map comment_id
           (filter (fun cr => cr_contains cr (section_end - 1)) ranges)
    /\ (ip_safe ip = false
        <-> exists cr, In cr ranges /\ cr_contains cr (section_end - 1) = true).
Proof.
  intros Hanalysis Hranges Hname Hbounds.
  apply run_readonly in Hanalysis; [|apply readonly_analyze_document].
  apply run_readonly in Hranges; [|apply readonly_find_commented_ranges].
  eexists. split.
  - unfold calculate_insertion_point.
    rewrite (bind_Ret _ _ _ _ _ Hanalysis), (bind_Ret _ _ _ _ _ Hranges).
    rewrite Hname, Hbounds. reflexivity.
  - cbn [ip_index ip_affected_comments ip_safe]. repeat split.
    + rewrite length_map. intros Hsafe.
      destruct (filter _ ranges) as [|cr rest] eqn:Hf; [discriminate|].
      exists cr.
      apply (proj1 (filter_In (fun c => cr_contains c (section_end - 1))
                      cr ranges)).
      rewrite Hf. now left.
    + intros (cr & Hin & Hc). rewrite length_map.
      destruct (filter _ ranges) as [|cr' rest] eqn:Hf; [|reflexivity].
      pose proof (proj1 (filter_nil_iff _ _) Hf cr Hin). congruence.
Qed.

End PlannerClassification.

Section SourceComment.

(** With an empty search text the search does not return as soon as a
    paragraph has text: the loop finds the empty string at the same offset
    again and again. *)
Lemma empty_search_never_returns (doc : Document) :
  existsb (paragraph_matches []) (body_content (body doc)) = true ->
  _find_text_in_document doc [] = None.
Proof.
  unfold _find_text_in_document. generalize (-1).
  induction (body_content (body doc)) as [|elem rest IH]; intros para_idx;
    [discriminate|].
  cbn [existsb find_in_paragraphs]. unfold paragraph_matches at 1.
  destruct (se_paragraph elem) as [paragraph|]; [|apply IH].
  destruct (paragraph_truthy paragraph); cbn [negb andb orb]; [|apply IH].
  destruct (text_parts (get (p_elements paragraph) [])) as [|part parts];
    [apply IH|].
  intros _. cbn [lower map].
  now rewrite find_occurrences_empty_search by lia.
Qed.

(** So a merge of content that is white space only, with a source comment
    to add, inserts the content and then never returns. *)
Lemma blank_content_merge_never_returns :
  fst (merge_content (lit "doc") [newline] None
         (Some (mkMergeOptions true (lit "preserve") true true
                  (Some (lit "meeting")) None))
         (sim_of notes_document [item_comment]))
  = Diverge.
Proof. vm_compute. reflexivity. Qed.

End SourceComment.

(** * Further properties of the code *)

(** ** Ranges, document ids and tabs *)

Section Overlaps.

(** X1: for a range with [start_index <= end_index] and an interval with
    [start <= end], [overlaps] holds exactly when some offset of the
    interval is contained in the range, both with inclusive bounds (so two
    intervals that only touch at an end point overlap); on a single offset
    [overlaps] is [contains]. *)
Theorem overlaps_iff_common_offset (cr : CommentedRange) (start end_ : Z) :
  start <= end_ ->
  start_index cr <= end_index cr ->
  (cr_overlaps cr start end_ = true
   <-> exists i, start <= i <= end_ /\ cr_contains cr i = true)
  /\ forall i, cr_overlaps cr i i = cr_contains cr i.
Proof.
  intros Hse Hcr. unfold cr_overlaps, cr_contains. split; [split|].
  - intros Ho. exists (Z.max start (start_index cr)).
    destruct (Z.ltb_spec end_ (start_index cr));
      destruct (Z.gtb_spec start (end_index cr)); try discriminate.
    split; [lia|].
    apply andb_true_iff. split; apply Z.leb_le; lia.
  - intros (i & Hi & Hc). apply andb_true_iff in Hc as [H1 H2].
    apply Z.leb_le in H1, H2.
    destruct (Z.ltb_spec end_ (start_index cr)); [lia|].
    destruct (Z.gtb_spec start (end_index cr)); [lia|]. reflexivity.
  - intros i.
    destruct (Z.ltb_spec i (start_index cr));
      destruct (Z.gtb_spec i (end_index cr));
      destruct (Z.leb_spec (start_index cr) i);
      destruct (Z.leb_spec i (end_index cr)); try reflexivity; lia.
Qed.

(** The range [10, 20] and the interval [20, 30] meet at the offset 20. *)
Lemma overlaps_iff_common_offset_witness :
  (cr_overlaps (mkCommentedRange 10 20 (lit "c1") [] (lit "0123456789")) 20 30
   = true
   <-> exists i,
         20 <= i <= 30
         /\ cr_contains
              (mkCommentedRange 10 20 (lit "c1") [] (lit "0123456789")) i
            = true)
  /\ forall i,
       cr_overlaps (mkCommentedRange 10 20 (lit "c1") [] (lit "0123456789"))
         i i
       = cr_contains (mkCommentedRange 10 20 (lit "c1") [] (lit "0123456789"))
           i.
Proof.
  apply (overlaps_iff_common_offset
           (mkCommentedRange 10 20 (lit "c1") [] (lit "0123456789")) 20 30);
    simpl; lia.
Defined.

End Overlaps.

Section DocumentIdOfUrl.

Lemma take_while_app (p : ascii -> bool) (g rest : pystr) :
  Forall (fun c => p c = true) g ->
  match rest with [] => True | c :: _ => p c = false end ->
  take_while p (g ++ rest) = g.
Proof.
  intros Hg Hrest. induction Hg as [|c g Hc _ IH]; simpl.
  - destruct rest as [|c rest]; [reflexivity|]. simpl. now rewrite Hrest.
  - now rewrite Hc, IH.
Qed.

Lemma search_doc_id_miss (c : ascii) (s : pystr) :
  prefixb (lit "/d/") (c :: s) = false ->
  search_doc_id (c :: s) = search_doc_id s.
Proof. intros Hp. cbn [search_doc_id]. now rewrite Hp. Qed.

(** X2: from the canonical URL of a document, [extract_doc_id] gives the id
    between [/d/] and the next character that is not an id character, for
    every non-empty id of letters, digits, [-] and [_]; and it returns such
    an id, given alone, as it is. *)
Theorem extract_doc_id_of_url (id rest : pystr) :
  id <> [] ->
  Forall (fun c => is_id_char c = true) id ->
  match rest with [] => True | c :: _ => is_id_char c = false end ->
  extract_doc_id (lit "https://docs.google.com/document/d/" ++ id ++ rest) = id
  /\ extract_doc_id id = id.
Proof.
  intros Hne Hid Hrest. split.
  - unfold extract_doc_id. cbn [lit list_ascii_of_string app].
    repeat (rewrite search_doc_id_miss by reflexivity).
    cbn [search_doc_id prefixb lit list_ascii_of_string].
    rewrite !ascii_eqb_refl. cbn [andb skipn].
    rewrite (take_while_app _ _ _ Hid Hrest).
    destruct id; [congruence | reflexivity].
  - unfold extract_doc_id. now rewrite (search_doc_id_of_id _ Hid).
Qed.

(** The example of the docstring: [ABC123] from its edit URL. *)
Lemma extract_doc_id_of_url_witness :
  extract_doc_id
    (lit "https://docs.google.com/document/d/" ++ lit "ABC123" ++ lit "/edit")
  = lit "ABC123"
  /\ extract_doc_id (lit "ABC123") = lit "ABC123".
Proof.
  apply (extract_doc_id_of_url (lit "ABC123") (lit "/edit"));
    [discriminate | repeat constructor | reflexivity].
Defined.

End DocumentIdOfUrl.

Section TabIdOfUrl.

Lemma extract_tab_id_skip (base s : pystr) :
  forallb starts_no_parameter base = true ->
  extract_tab_id (base ++ s) = extract_tab_id s.
Proof.
  induction base as [|c base IH]; [reflexivity|]. cbn [forallb app].
  intros Hb. apply andb_true_iff in Hb as [Hc Hb].
  cbn [extract_tab_id]. unfold starts_no_parameter in Hc.
  apply negb_true_iff in Hc. rewrite Hc. cbn [andb]. now apply IH.
Qed.

Lemma extract_tab_id_none (base : pystr) :
  forallb starts_no_parameter base = true -> extract_tab_id base = None.
Proof.
  intros Hb. rewrite <- (app_nil_r base). now rewrite extract_tab_id_skip.
Qed.

(** X3: from a URL whose part in front of [?tab=] has no [?] and no [&],
    [extract_tab_id] gives the text between [?tab=] and the next [&] (or
    the end), for every such non-empty text; a URL with no [?] and no [&]
    at all has no tab id. *)
Theorem extract_tab_id_of_url (base t rest : pystr) :
  forallb starts_no_parameter base = true ->
  t <> [] ->
  Forall (fun c => negb (Ascii.eqb c "&"%char) = true) t ->
  match rest with [] => True | c :: _ => c = "&"%char end ->
  extract_tab_id (base ++ lit "?tab=" ++ t ++ rest) = Some t
  /\ extract_tab_id base = None.
Proof.
  intros Hbase Hne Ht Hrest. split; [|now apply extract_tab_id_none].
  rewrite extract_tab_id_skip by exact Hbase.
  cbn [lit list_ascii_of_string app extract_tab_id prefixb].
  rewrite !ascii_eqb_refl. cbn [orb andb skipn].
  rewrite take_while_app; [destruct t; [congruence | reflexivity] | exact Ht |].
  destruct rest as [|c rest]; [exact I|]. subst c. reflexivity.
Qed.

(** The two URLs of the tab test of the repository. *)
Lemma extract_tab_id_of_url_witness :
  extract_tab_id
    (lit "https://docs.google.com/document/d/ABC123/edit" ++ lit "?tab="
     ++ lit "t.82ynznspwjyi" ++ [])
  = Some (lit "t.82ynznspwjyi")
  /\ extract_tab_id (lit "https://docs.google.com/document/d/ABC123/edit")
     = None.
Proof.
  apply (extract_tab_id_of_url
           (lit "https://docs.google.com/document/d/ABC123/edit")
           (lit "t.82ynznspwjyi") []);
    [reflexivity | discriminate | repeat constructor | exact I].
Defined.

Lemma id_char_starts_no_parameter (c : ascii) :
  is_id_char c = true -> starts_no_parameter c = true.
Proof.
  unfold starts_no_parameter. intros Hc.
  destruct (Ascii.eqb c "?") eqn:Hq;
    [apply Ascii.eqb_eq in Hq; subst c; discriminate Hc|].
  destruct (Ascii.eqb c "&") eqn:Ha;
    [apply Ascii.eqb_eq in Ha; subst c; discriminate Hc|].
  reflexivity.
Qed.

End TabIdOfUrl.

Section FirstTab.

Context {S : Type} `{DocStore S}.

Lemma analyze_document_sections (s : S) (d : pystr) (include_comments : bool)
    (doc : Document) (analysis : DocumentAnalysis) :
  fst (get_document d true s) = Ret doc ->
  fst (analyze_document d include_comments s) = Ret analysis ->
  sections analysis
  = fst (analyze_sections
           (get (content (get_tab_body doc (extract_tab_id d))) [])).
Proof.
  intros Hdoc. apply run_readonly in Hdoc; [|apply readonly_get_document].
  unfold analyze_document. rewrite (bind_Ret _ _ _ _ _ Hdoc).
  destruct (analyze_sections _) as [secs texts]. unfold bind.
  destruct ((if include_comments
             then try_except (get_comments (extract_doc_id d) false)
                    (fun _ => ret [])
             else ret []) s) as [[comments|e|] s']; try discriminate.
  cbn. now intros [= <-].
Qed.

(** X4: for a URL with a [/d/<id>] part, the id that [merge_content] hands
    to the planner carries no tab parameter, so the analysis the planner
    works on reads the first tab of the document (the legacy body when it
    has no tabs), whatever tab the URL names. *)
Theorem planner_reads_first_tab (doc_url g : pystr) (s : S) (doc : Document)
    (analysis : DocumentAnalysis) :
  search_doc_id doc_url = Some g ->
  fst (get_document (extract_doc_id doc_url) true s) = Ret doc ->
  fst (analyze_document (extract_doc_id doc_url) true s) = Ret analysis ->
  extract_tab_id (extract_doc_id doc_url) = None
  /\ sections analysis
     = fst (analyze_sections
              (get (content
                      match get (tabs doc) [] with
                      | [] => get (body doc) (mkBody None)
                      | first_tab :: _ => tab_body first_tab
                      end) [])).
Proof.
  intros Hg Hdoc Hanalysis.
  assert (Htab : extract_tab_id (extract_doc_id doc_url) = None).
  { unfold extract_doc_id. rewrite Hg. apply extract_tab_id_none.
    apply forallb_forall. intros c Hc.
    apply id_char_starts_no_parameter.
    pose proof (search_doc_id_Some _ _ Hg) as Hall.
    rewrite Forall_forall in Hall. now apply Hall. }
  split; [exact Htab|].
  rewrite (analyze_document_sections _ _ _ _ _ Hdoc Hanalysis), Htab.
  unfold get_tab_body. now destruct (get (tabs doc) []).
Qed.

End FirstTab.

Section FirstTabExample.

(** The URL names the tab [t.1], whose heading is [Second]; the planner's
    analysis has the section [First] of the tab [t.0]. *)
Lemma planner_reads_first_tab_witness :
  extract_tab_id (extract_doc_id two_tab_url) = None
  /\ sections
       (mkDocumentAnalysis (lit "ABC") (lit "Tabs") (lit "First")
          [ mkSectionInfo (lit "First") (lit "1") 1 7 ] 7 [])
     = fst (analyze_sections
              (get (content
                      match get (tabs two_tab_document) [] with
                      | [] => get (body two_tab_document) (mkBody None)
                      | first_tab :: _ => tab_body first_tab
                      end) [])).
Proof.
  apply (planner_reads_first_tab two_tab_url (lit "ABC")
           (sim_of two_tab_document []) two_tab_document
           (mkDocumentAnalysis (lit "ABC") (lit "Tabs") (lit "First")
              [ mkSectionInfo (lit "First") (lit "1") 1 7 ] 7 []));
    vm_compute; reflexivity.
Defined.

End FirstTabExample.

Section Tabs.

Lemma pystr_eqb_eq (s t : pystr) : PyStr.eqb s t = true <-> s = t.
Proof.
  revert t. induction s as [|a s IH]; intros [|b t]; simpl;
    try (split; [discriminate | discriminate]); [tauto|].
  rewrite andb_true_iff, IH. split.
  - intros [Hab ->]. apply Ascii.eqb_eq in Hab. now subst.
  - intros [= -> ->]. split; [apply ascii_eqb_refl | reflexivity].
Qed.

Lemma pystr_eqb_neq (s t : pystr) : s <> t -> PyStr.eqb s t = false.
Proof.
  intros Hne. destruct (PyStr.eqb s t) eqn:He; [|reflexivity].
  apply pystr_eqb_eq in He. contradiction.
Qed.

Lemma find_app_first {A : Type} (p : A -> bool) (l1 l2 : list A) :
  List.find p (l1 ++ l2)
  = match List.find p l1 with
    | Some x => Some x
    | None => List.find p l2
    end.
Proof.
  induction l1 as [|x l1 IH]; simpl; [reflexivity|].
  destruct (p x); [reflexivity | exact IH].
Qed.

Lemma find_flat_map {A B : Type} (p : B -> bool) (g : A -> list B)
    (l : list A) :
  List.find p (flat_map g l) = first_some (fun x => List.find p (g x)) l.
Proof.
  induction l as [|x l IH]; simpl; [reflexivity|].
  now rewrite find_app_first, IH.
Qed.

(** Induction on a tab that reaches its child tabs. *)
Lemma Tab_nested_ind (P : Tab -> Prop) :
  (forall i b children, Forall P children -> P (mkTab i b children)) ->
  forall tab, P tab.
Proof.
  intros step. fix rec 1. intros [i b children]. apply step.
  induction children as [|c children IH]; constructor;
    [apply rec | exact IH].
Qed.

Lemma find_tab_by_id_tab_reading_order (tab_id : pystr) (tab : Tab) :
  find_tab_by_id_tab tab_id tab
  = List.find (fun t => opt_eqb (tab_tabId t) tab_id) (all_tabs_of tab).
Proof.
  induction tab as [i b children IH] using Tab_nested_ind.
  cbn [find_tab_by_id_tab all_tabs_of List.find tab_tabId].
  destruct (opt_eqb i tab_id); [reflexivity|].
  rewrite find_flat_map. now apply first_some_ext.
Qed.

(** X5: [find_tab_by_id] returns the first tab, in reading order over the
    tabs and their nested child tabs, whose [tabId] is the id asked for: a
    tab it returns has that id and is one of the tabs, and it returns
    nothing only when no tab, at any depth, has the id. *)
Theorem find_tab_by_id_first_in_reading_order (tabs : list Tab)
    (tab_id : pystr) :
  find_tab_by_id tabs tab_id
  = List.find (fun t => opt_eqb (tab_tabId t) tab_id) (all_tabs tabs)
  /\ (forall tab,
        find_tab_by_id tabs tab_id = Some tab ->
        In tab (all_tabs tabs) /\ tab_tabId tab = Some tab_id)
  /\ (find_tab_by_id tabs tab_id = None ->
      forall tab, In tab (all_tabs tabs) -> tab_tabId tab <> Some tab_id).
Proof.
  assert (Heq : find_tab_by_id tabs tab_id
                = List.find (fun t => opt_eqb (tab_tabId t) tab_id)
                    (all_tabs tabs)).
  { unfold find_tab_by_id, all_tabs. rewrite find_flat_map.
    apply first_some_ext, Forall_forall. intros tab _.
    apply find_tab_by_id_tab_reading_order. }
  split; [exact Heq|]. rewrite Heq. split.
  - intros tab Hfind. apply find_some in Hfind as [Hin Hid].
    split; [exact Hin|]. unfold opt_eqb in Hid.
    destruct (tab_tabId tab) as [i|]; [|discriminate].
    apply pystr_eqb_eq in Hid. now subst.
  - intros Hnone tab Hin Hid.
    pose proof (find_none _ _ Hnone tab Hin) as Hno. cbn beta in Hno.
    rewrite Hid in Hno. unfold opt_eqb in Hno.
    now rewrite (proj2 (pystr_eqb_eq tab_id tab_id) eq_refl) in Hno.
Qed.

End Tabs.

(** ** The analysis of a document *)

Section Sections.

Lemma is_heading_paragraph (element : StructuralElement) :
  is_heading element = true -> exists para, se_paragraph element = Some para.
Proof.
  unfold is_heading, named_style_of.
  destruct (se_paragraph element) as [para|]; [now exists para|].
  discriminate.
Qed.

Lemma analysis_fold (content_elements : list StructuralElement) :
  forall sections current_section text_content,
    closed_sections
      (fold_left analysis_step content_elements
         (sections, current_section, text_content))
    = sections
      ++ match current_section with
         | Some cs =>
             [ mkSectionInfo (heading cs) (level cs) (sec_start_index cs)
                 (section_end (sec_end_index cs) content_elements) ]
         | None => []
         end
      ++ sections_of content_elements.
Proof.
  induction content_elements as [|element rest IH];
    intros sections current_section text_content.
  - cbn [fold_left closed_sections section_end sections_of].
    destruct current_section as [[h l s e]|]; cbn; now rewrite ?app_nil_r.
  - cbn [fold_left section_end sections_of]. unfold analysis_step at 2.
    unfold is_heading, named_style_of, paragraph_text_of.
    destruct (se_paragraph element) as [para|] eqn:Hpara.
    + destruct (startswith _ (lit "HEADING_")) eqn:Hhead.
      * rewrite IH. cbn [heading level sec_start_index sec_end_index].
        destruct current_section as [[h l s e]|]; cbn [app];
          now rewrite <- ?app_assoc.
      * destruct current_section as [cs|]; rewrite IH; reflexivity.
    + cbn [startswith prefixb lit list_ascii_of_string]. apply IH.
Qed.

Lemma sections_of_length (content_elements : list StructuralElement) :
  length (sections_of content_elements)
  = length (filter is_heading content_elements).
Proof.
  induction content_elements as [|element rest IH]; [reflexivity|].
  cbn [sections_of filter].
  destruct (is_heading element); cbn [length]; now rewrite IH.
Qed.

(** X6: the sections that [analyze_document] computes are one per heading
    paragraph, in order: the heading's text, the level (its named style
    without [HEADING_]), the [startIndex] of the heading, and as end the
    [endIndex] of the last paragraph in front of the next heading.  Blocks
    without a paragraph (tables, section breaks) neither open nor extend a
    section, and there are as many sections as heading paragraphs. *)
Theorem analyze_sections_by_heading
    (content_elements : list StructuralElement) :
  fst (analyze_sections content_elements) = sections_of content_elements
  /\ length (fst (analyze_sections content_elements))
     = length (filter is_heading content_elements).
Proof.
  assert (Heq : fst (analyze_sections content_elements)
                = sections_of content_elements).
  { unfold analyze_sections.
    pose proof (analysis_fold content_elements [] None []) as Hfold.
    destruct (fold_left analysis_step content_elements ([], None, []))
      as [[sections current_section] text_content].
    exact Hfold. }
  split; [exact Heq|]. rewrite Heq. apply sections_of_length.
Qed.

End Sections.

Section SectionLookup.

Lemma lower_char_idempotent (c : ascii) :
  lower_char (lower_char c) = lower_char c.
Proof.
  destruct c as [[] [] [] [] [] [] [] []]; reflexivity.
Qed.

Lemma lower_idempotent (s : pystr) : lower (lower s) = lower s.
Proof.
  unfold lower. rewrite map_map. apply map_ext. apply lower_char_idempotent.
Qed.

(** X7: the lookup of a section does not depend on the letter case of the
    hint (the hint and its lower-cased form find the same section), and
    when it finds one it is the first section, in document order, whose
    heading is not empty and holds the hint case-insensitively; it returns
    the start and the end of that section. *)
Theorem find_section_first_caseless_match (analysis : DocumentAnalysis)
    (section_name : pystr) :
  _find_section_boundaries analysis (lower section_name)
  = _find_section_boundaries analysis section_name
  /\ forall start_ end_,
       _find_section_boundaries analysis section_name = Some (start_, end_) ->
       exists before section after,
         sections analysis = before ++ section :: after
         /\ Forall (fun sec =>
                      heading sec = []
                      \/ contains (lower (heading sec)) (lower section_name)
                         = false) before
         /\ heading section <> []
         /\ contains (lower (heading section)) (lower section_name) = true
         /\ start_ = sec_start_index section
         /\ end_ = sec_end_index section.
Proof.
  split.
  - unfold _find_section_boundaries. now rewrite lower_idempotent.
  - intros start_ end_ Hfind. unfold _find_section_boundaries in Hfind.
    destruct (first_some_split _ _ _ Hfind)
      as (before & section & after & Hsplit & Hbefore & Hsec).
    exists before, section, after. cbn beta in Hsec.
    destruct (truthy (heading section)) eqn:Ht; [|discriminate].
    destruct (contains (lower (heading section)) (lower section_name)) eqn:Hc;
      [|discriminate].
    cbn [andb] in Hsec. injection Hsec as <- <-.
    repeat split; try assumption.
    + eapply Forall_impl; [|exact Hbefore]. intros sec Hsec. cbn beta in Hsec.
      destruct (heading sec) as [|c h]; [now left|]. right.
      cbn [truthy andb] in Hsec.
      now destruct (contains (lower (c :: h)) (lower section_name)).
    + intros Hnil. now rewrite Hnil in Ht.
Qed.

End SectionLookup.

(** ** The resolver on what the store returns *)

Section ResolvedRanges.

Lemma range_in_run_width (a : pystr) (run : Z * pystr) (s e : Z) :
  range_in_run a run = Some (s, e) -> e = s + len a.
Proof.
  unfold range_in_run. destruct (contains (snd run) a); [|discriminate].
  now intros [= <- <-].
Qed.

Lemma find_text_range_width (content_elements : list StructuralElement)
    (a : pystr) (s e : Z) :
  _find_text_range content_elements a = Some (s, e) -> e = s + len a.
Proof.
  rewrite find_text_range_runs. intros Hfind.
  destruct (first_some_split _ _ _ Hfind) as (_ & run & _ & _ & _ & Hrun).
  now apply range_in_run_width in Hrun.
Qed.

(** A range comes from one of the comments. *)
Lemma range_of_some_comment
    (content_elements : list StructuralElement) (comments : list Comment)
    (cr : CommentedRange) :
  In cr (commented_ranges content_elements comments) ->
  exists comment, In comment comments /\ c_comment_id comment = comment_id cr.
Proof.
  intros Hin. apply in_flat_map in Hin as (comment & Hc & Hcr).
  exists comment. split; [exact Hc|].
  unfold commented_range_of in Hcr.
  destruct (c_anchor comment) as [a|]; [|destruct Hcr].
  destruct (truthy a); [|destruct Hcr].
  destruct (_find_text_range content_elements a) as [[s e]|]; [|destruct Hcr].
  now destruct Hcr as [<- | []].
Qed.

(** X8: every range the resolver returns is well formed and comes from a
    comment: its anchor text is not empty, [end_index] is [start_index]
    plus the length of the anchor text, so [start_index < end_index], and
    its id, content and anchor are those of one of the comments.  There
    are at most as many ranges as comments. *)
Theorem resolved_ranges_well_formed
    (content_elements : list StructuralElement) (comments : list Comment)
    (cr : CommentedRange) :
  In cr (commented_ranges content_elements comments) ->
  anchor_text cr <> []
  /\ end_index cr = start_index cr + len (anchor_text cr)
  /\ start_index cr < end_index cr
  /\ (exists comment,
        In comment comments
        /\ c_anchor comment = Some (anchor_text cr)
        /\ c_comment_id comment = comment_id cr
        /\ c_content comment = comment_content cr)
  /\ (length (commented_ranges content_elements comments)
      <= length comments)%nat.
Proof.
  intros Hin. unfold commented_ranges in *.
  assert (Hlen : (length (flat_map (commented_range_of content_elements)
                            comments) <= length comments)%nat).
  { clear. induction comments as [|c comments IH]; [simpl; lia|].
    cbn [flat_map]. rewrite length_app. unfold commented_range_of at 1.
    destruct (c_anchor c) as [a|]; [|simpl; lia].
    destruct (truthy a); [|simpl; lia].
    destruct (_find_text_range content_elements a) as [[s e]|]; simpl; lia. }
  apply in_flat_map in Hin as (comment & Hc & Hcr).
  unfold commented_range_of in Hcr.
  destruct (c_anchor comment) as [a|] eqn:Ha; [|destruct Hcr].
  destruct (truthy a) eqn:Ht; [|destruct Hcr].
  destruct (_find_text_range content_elements a) as [[s e]|] eqn:Hf;
    [|destruct Hcr].
  destruct Hcr as [<- | []]. cbn.
  apply find_text_range_width in Hf.
  assert (Hne : a <> []) by (intros ->; discriminate).
  assert (0 < len a) by (destruct a; [congruence | unfold len; simpl; lia]).
  repeat split; try assumption; try lia.
  exists comment. now repeat split.
Qed.

(** The comment on [Hello] in the one-line example. *)
Lemma resolved_ranges_well_formed_witness :
  lit "Hello" <> []
  /\ 6 = 1 + len (lit "Hello")
  /\ 1 < 6
  /\ (exists comment,
        In comment [_parse_comment hello_comment]
        /\ c_anchor comment = Some (lit "Hello")
        /\ c_comment_id comment = lit "c1"
        /\ c_content comment = lit "Check this")
  /\ (length (commented_ranges (body_content (body hello_document))
                [_parse_comment hello_comment])
      <= length [_parse_comment hello_comment])%nat.
Proof.
  apply (resolved_ranges_well_formed (body_content (body hello_document))
           [_parse_comment hello_comment]
           (mkCommentedRange 1 6 (lit "c1") (lit "Check this") (lit "Hello"))).
  left. reflexivity.
Defined.

End ResolvedRanges.

Section StoreRuns.

Context {S : Type} `{DocStore S}.

Lemma get_document_Ret (s : S) (d : pystr) (b : bool) (doc : Document) :
  ensure_authenticated s = None ->
  documents_get (extract_doc_id d) b s = Ret doc ->
  get_document d b s = (Ret doc, s).
Proof.
  intros Hauth Hget.
  unfold get_document, bind, _ensure_authenticated, try_except, reading.
  now rewrite Hauth, Hget.
Qed.

Lemma get_comments_Ret (s : S) (doc_id : pystr)
    (results : list CommentData) :
  comments_list doc_id s = Ret results ->
  get_comments doc_id false s
  = (Ret (map _parse_comment
            (filter (fun cd => negb (get (cd_resolved cd) false)) results)), s).
Proof.
  intros Hlist. unfold get_comments, try_except, bind, reading, ret.
  rewrite Hlist. repeat f_equal.
Qed.

Lemma get_comments_Raise (s : S) (doc_id : pystr) (e : exn) :
  comments_list doc_id s = Raise e ->
  get_comments doc_id false s
  = (Raise (RuntimeError (lit "Failed to get comments: " ++ str_exn e)), s).
Proof.
  intros Hlist. unfold get_comments, try_except, bind, reading.
  now rewrite Hlist.
Qed.

(** X9: the resolver works on the open comments only.  When the document
    and the comments can be read, [find_commented_ranges] returns the
    ranges of the comments that are not resolved, in the order of the
    listing, and leaves the store as it is; so every range it returns
    belongs to a comment of the listing that is not resolved. *)
Theorem resolver_skips_resolved_comments (s : S) (doc_id : pystr)
    (doc : Document) (results : list CommentData) :
  ensure_authenticated s = None ->
  documents_get (extract_doc_id doc_id) true s = Ret doc ->
  comments_list doc_id s = Ret results ->
  find_commented_ranges doc_id s
  = (Ret (commented_ranges (body_content (body doc))
            (map _parse_comment
               (filter (fun cd => negb (get (cd_resolved cd) false))
                  results))), s)
  /\ forall cr,
       In cr (commented_ranges (body_content (body doc))
                (map _parse_comment
                   (filter (fun cd => negb (get (cd_resolved cd) false))
                      results))) ->
       exists cd,
         In cd results /\ cd_id cd = comment_id cr
         /\ get (cd_resolved cd) false = false.
Proof.
  intros Hauth Hget Hlist. split.
  - unfold find_commented_ranges.
    rewrite (bind_Ret _ _ _ _ _ (get_document_Ret _ _ _ _ Hauth Hget)).
    now rewrite (bind_Ret _ _ _ _ _ (get_comments_Ret _ _ _ Hlist)).
  - intros cr Hin.
    destruct (range_of_some_comment _ _ _ Hin)
      as (comment & Hc & Hid).
    apply in_map_iff in Hc as (cd & <- & Hcd).
    apply filter_In in Hcd as [Hcd Hres].
    exists cd. repeat split; [exact Hcd | exact Hid |].
    now apply negb_true_iff in Hres.
Qed.

End StoreRuns.

Section StoreRunExamples.

(** The one-line example with a resolved and an open comment on [Hello]:
    only the open one gives a range. *)
Lemma resolver_skips_resolved_comments_witness :
  find_commented_ranges (lit "doc")
    (sim_of hello_document [hello_resolved_comment; hello_comment])
  = (Ret (commented_ranges (body_content (body hello_document))
            (map _parse_comment
               (filter (fun cd => negb (get (cd_resolved cd) false))
                  [hello_resolved_comment; hello_comment]))),
     sim_of hello_document [hello_resolved_comment; hello_comment])
  /\ forall cr,
       In cr (commented_ranges (body_content (body hello_document))
                (map _parse_comment
                   (filter (fun cd => negb (get (cd_resolved cd) false))
                      [hello_resolved_comment; hello_comment]))) ->
       exists cd,
         In cd [hello_resolved_comment; hello_comment]
         /\ cd_id cd = comment_id cr
         /\ get (cd_resolved cd) false = false.
Proof.
  apply (resolver_skips_resolved_comments
           (sim_of hello_document [hello_resolved_comment; hello_comment])
           (lit "doc") hello_document
           [hello_resolved_comment; hello_comment]);
    reflexivity.
Defined.

End StoreRunExamples.

(** ** The planner *)

Section PlannerPaths.

Context {S : Type} `{DocStore S}.

Lemma find_commented_ranges_Ret (s : S) (doc_id : pystr) (doc : Document)
    (results : list CommentData) :
  ensure_authenticated s = None ->
  documents_get (extract_doc_id doc_id) true s = Ret doc ->
  comments_list doc_id s = Ret results ->
  exists ranges, find_commented_ranges doc_id s = (Ret ranges, s).
Proof.
  intros Hauth Hget Hlist. eexists. unfold find_commented_ranges.
  rewrite (bind_Ret _ _ _ _ _ (get_document_Ret _ _ _ _ Hauth Hget)).
  now rewrite (bind_Ret _ _ _ _ _ (get_comments_Ret _ _ _ Hlist)).
Qed.

Lemma analyze_document_Ret (s : S) (d : pystr) (doc : Document)
    (results : list CommentData) :
  ensure_authenticated s = None ->
  documents_get (extract_doc_id d) true s = Ret doc ->
  comments_list (extract_doc_id d) s = Ret results ->
  exists analysis, analyze_document d true s = (Ret analysis, s).
Proof.
  intros Hauth Hget Hlist. unfold analyze_document.
  rewrite (bind_Ret _ _ _ _ _ (get_document_Ret _ _ _ _ Hauth Hget)).
  destruct (analyze_sections _) as [secs texts].
  eexists. unfold bind, try_except.
  now rewrite (get_comments_Ret _ _ _ Hlist).
Qed.

(** X10: with no section hint, on a document that can be read and whose
    body has at least one block, the planner returns the offset just in
    front of the end of the last block ([endIndex - 1], with 1 for a last
    block without [endIndex]), the strategy [new_section], [safe] true and
    no affected comment, and leaves the store as it is. *)
Theorem planner_at_document_end (s : S) (doc_id strategy : pystr)
    (doc : Document) (results : list CommentData)
    (e : StructuralElement) (es : list StructuralElement) :
  ensure_authenticated s = None ->
  extract_doc_id doc_id = doc_id ->
  documents_get doc_id true s = Ret doc ->
  comments_list doc_id s = Ret results ->
  content (get (body doc) (mkBody None)) = Some (e :: es) ->
  calculate_insertion_point doc_id None strategy s
  = (Ret (mkInsertionPoint (get (se_endIndex (last es e)) 1 - 1) None true []
            (lit "new_section") (lit "Inserting at document end")), s).
Proof.
  intros Hauth Hid Hget Hlist Hcontent.
  assert (Hget' : documents_get (extract_doc_id doc_id) true s = Ret doc)
    by now rewrite Hid.
  assert (Hlist' : comments_list (extract_doc_id doc_id) s = Ret results)
    by now rewrite Hid.
  destruct (analyze_document_Ret _ _ _ _ Hauth Hget' Hlist')
    as [analysis Hanalysis].
  destruct (find_commented_ranges_Ret _ _ _ _ Hauth Hget' Hlist)
    as [ranges Hranges].
  unfold calculate_insertion_point.
  rewrite (bind_Ret _ _ _ _ _ Hanalysis), (bind_Ret _ _ _ _ _ Hranges).
  unfold at_document_end.
  rewrite (bind_Ret _ _ _ _ _ (get_document_Ret _ _ _ _ Hauth Hget')).
  unfold bind, reading, doc_end_of. now rewrite Hcontent.
Qed.

(** X11: a section hint counts only under the strategy [safe]: for a hint
    that names a section of the document and any other strategy (the
    [simple] that [merge_content] passes when [preserve_comments] is
    false), the planner answers as it does with no hint at all, at the end
    of the document. *)
Theorem section_hint_needs_safe_strategy (s : S)
    (doc_id name strategy : pystr) (analysis : DocumentAnalysis) :
  fst (analyze_document doc_id true s) = Ret analysis ->
  _find_section_boundaries analysis name <> None ->
  strategy <> lit "safe" ->
  calculate_insertion_point doc_id (Some name) strategy s
  = calculate_insertion_point doc_id None strategy s.
Proof.
  intros Hanalysis Hfound Hstrategy.
  apply run_readonly in Hanalysis; [|apply readonly_analyze_document].
  unfold calculate_insertion_point.
  rewrite !(bind_Ret _ _ _ _ _ Hanalysis). unfold bind.
  destruct (find_commented_ranges doc_id s) as [[ranges|e|] s'];
    try reflexivity.
  destruct (truthy name); [|reflexivity].
  destruct (_find_section_boundaries analysis name) as [[start_ end_]|];
    [|congruence].
  now rewrite (pystr_eqb_neq _ _ Hstrategy).
Qed.

(** X12: under the strategy [safe], for a hint that names a section, the
    planner targets the offset [section_end - 1], reports as affected the
    ids of exactly the ranges that contain that offset (bounds included),
    in the order of the ranges, and reports the offset as unsafe exactly
    when there is such a range; it leaves the store as it is. *)
Theorem section_end_is_classified (s : S) (doc_id name : pystr)
    (analysis : DocumentAnalysis) (ranges : list CommentedRange)
    (section_start section_end : Z) :
  fst (analyze_document doc_id true s) = Ret analysis ->
  fst (find_commented_ranges doc_id s) = Ret ranges ->
  truthy name = true ->
  _find_section_boundaries analysis name = Some (section_start, section_end) ->
  exists ip,
    calculate_insertion_point doc_id (Some name) (lit "safe") s = (Ret ip, s)
    /\ ip_index ip = section_end - 1
    /\ ip_strategy ip = lit "after"
    /\ ip_affected_comments ip
       = map comment_id
           (filter (fun cr => cr_contains cr (section_end - 1)) ranges)
    /\ (ip_safe ip = false
        <-> exists cr, In cr ranges /\ cr_contains cr (section_end - 1) = true).
Proof.
  intros Hanalysis Hranges Hname Hbounds.
  destruct (section_end_classification s doc_id name analysis ranges
              section_start section_end Hanalysis Hranges Hname Hbounds)
    as (ip & Hrun & Hindex & Haffected & Hsafe).
  exists ip. repeat split; try assumption; try apply Hsafe.
  apply run_readonly in Hanalysis; [|apply readonly_analyze_document].
  apply run_readonly in Hranges; [|apply readonly_find_commented_ranges].
  unfold calculate_insertion_point in Hrun.
  rewrite (bind_Ret _ _ _ _ _ Hanalysis), (bind_Ret _ _ _ _ _ Hranges) in Hrun.
  rewrite Hname, Hbounds in Hrun. cbn in Hrun. now injection Hrun as <-.
Qed.

End PlannerPaths.

Section PlannerPathExamples.

(** The one-line example ends at 7: the offset is 6. *)
Lemma planner_at_document_end_witness :
  calculate_insertion_point (lit "doc") None (lit "safe")
    (sim_of hello_document [hello_comment])
  = (Ret (mkInsertionPoint
            (get (se_endIndex
                    (last []
                       (text_paragraph 1 7 (Some (lit "NORMAL_TEXT"))
                          [(1, lit "Hello" ++ [newline])]))) 1 - 1)
            None true [] (lit "new_section")
            (lit "Inserting at document end")),
     sim_of hello_document [hello_comment]).
Proof.
  apply (planner_at_document_end (sim_of hello_document [hello_comment])
           (lit "doc") (lit "safe") hello_document [hello_comment]
           section_break
           [ text_paragraph 1 7 (Some (lit "NORMAL_TEXT"))
               [(1, lit "Hello" ++ [newline])] ]);
    reflexivity.
Defined.

(** The section [Notes] exists, and under [simple] the hint changes
    nothing. *)
Lemma section_hint_needs_safe_strategy_witness :
  calculate_insertion_point (lit "doc") (Some (lit "notes")) (lit "simple")
    (sim_of notes_document [item_comment])
  = calculate_insertion_point (lit "doc") None (lit "simple")
      (sim_of notes_document [item_comment]).
Proof.
  apply (section_hint_needs_safe_strategy
           (sim_of notes_document [item_comment]) (lit "doc") (lit "notes")
           (lit "simple") notes_analysis);
    [vm_compute; reflexivity | discriminate | discriminate].
Defined.

(** The section [Notes] ends at 17; the offset 16 is the end of the range
    of the comment on [item]. *)
Lemma section_end_is_classified_witness :
  exists ip,
    calculate_insertion_point (lit "doc") (Some (lit "notes")) (lit "safe")
      (sim_of notes_document [item_comment])
    = (Ret ip, sim_of notes_document [item_comment])
    /\ ip_index ip = 17 - 1
    /\ ip_strategy ip = lit "after"
    /\ ip_affected_comments ip
       = map comment_id
           (filter (fun cr => cr_contains cr (17 - 1)) [item_range])
    /\ (ip_safe ip = false
        <-> exists cr, In cr [item_range] /\ cr_contains cr (17 - 1) = true).
Proof.
  apply (section_end_is_classified (sim_of notes_document [item_comment])
           (lit "doc") (lit "notes") notes_analysis [item_range] 1 17);
    vm_compute; reflexivity.
Defined.

End PlannerPathExamples.

(** ** The comment-preserving batch, step by step *)

Section PreservationSteps.

(** X13: for a commented range [start, end) with [start < end] that holds
    the text [T], the batch starts with the insert of the new text at a
    position inside the range ([start <= position < end]), and after every
    proper, non-empty part of the batch the buffer still holds some text
    between what stood in front of the range and what stood behind it: the
    old text is never all gone before the new text is in. *)
Theorem preservation_keeps_text_at_each_step (pre T post U : pystr)
    (cr : CommentedRange) :
  start_index cr = len pre ->
  end_index cr = start_index cr + len T ->
  start_index cr < end_index cr ->
  (exists position rest,
     _insert_with_comment_preservation_requests U cr
     = insertText position None U :: rest
     /\ start_index cr <= position < end_index cr)
  /\ forall n,
       (0 < n < length (_insert_with_comment_preservation_requests U cr))%nat ->
       exists X,
         X <> []
         /\ apply_batch
              (firstn n (_insert_with_comment_preservation_requests U cr))
              (pre ++ T ++ post)
            = Some (pre ++ X ++ post).
Proof.
  intros Hs He Hlt.
  unfold _insert_with_comment_preservation_requests.
  rewrite He, Hs. replace (len pre + len T - len pre) with (len T) by lia.
  assert (HT : 0 < len T) by lia.
  assert (Hk : 0 <= len T / 2 < len T).
  { split; [apply Z.div_pos; lia | apply Z.div_lt_upper_bound; lia]. }
  destruct (split_at T (Z.to_nat (len T / 2))) as (T1 & T2 & -> & HT1).
  { unfold len in *. lia. }
  assert (H1 : len T1 = len (T1 ++ T2) / 2) by (unfold len in *; lia).
  rewrite <- H1. rewrite <- H1 in Hk. rewrite len_app in Hk, HT.
  assert (HT2 : T2 <> []).
  { intros ->. unfold len in Hk. simpl in Hk. lia. }
  destruct (Z.gtb_spec (len pre + len (T1 ++ T2) + len U)
              (len pre + len T1 + len U)) as [_|Hbad];
    [|rewrite len_app in Hbad; lia].
  assert (Hins :
    apply_request (insertText (len pre + len T1) None U)
      (pre ++ (T1 ++ T2) ++ post)
    = Some (pre ++ (T1 ++ U ++ T2) ++ post)).
  { replace (pre ++ (T1 ++ T2) ++ post) with ((pre ++ T1) ++ T2 ++ post)
      by now rewrite <- !app_assoc.
    rewrite insert_at by (rewrite len_app; lia).
    now rewrite <- !app_assoc. }
  assert (Htail :
    apply_request
      (deleteContentRange (len pre + len T1 + len U)
         (len pre + len (T1 ++ T2) + len U))
      (pre ++ (T1 ++ U ++ T2) ++ post)
    = Some (pre ++ (T1 ++ U) ++ post)).
  { replace (pre ++ (T1 ++ U ++ T2) ++ post)
      with ((pre ++ T1 ++ U) ++ T2 ++ post) by now rewrite <- !app_assoc.
    rewrite delete_at; [now rewrite <- !app_assoc | | | exact HT2];
      rewrite !len_app; lia. }
  split.
  - destruct (len pre + len T1 >? len pre); eexists _, _;
      (split; [reflexivity | rewrite len_app; lia]).
  - destruct (Z.gtb_spec (len pre + len T1) (len pre)) as [Hpos|Hzero];
      cbn [app length]; intros n Hn.
    + assert (HT1ne : T1 <> []).
      { intros ->. unfold len in Hpos. simpl in Hpos. lia. }
      assert (Hcases : n = 1%nat \/ n = 2%nat) by lia.
      destruct Hcases as [-> | ->]; cbn [firstn apply_batch].
      * rewrite Hins. exists (T1 ++ U ++ T2). split; [|reflexivity].
        intros Hnil. apply app_eq_nil in Hnil as [Hnil _]. contradiction.
      * rewrite Hins, Htail. exists (T1 ++ U). split; [|reflexivity].
        intros Hnil. apply app_eq_nil in Hnil as [Hnil _]. contradiction.
    + assert (n = 1%nat) as -> by lia. cbn [firstn apply_batch].
      rewrite Hins. exists (T1 ++ U ++ T2). split; [|reflexivity].
      intros Hnil. apply app_eq_nil in Hnil as [_ Hnil].
      apply app_eq_nil in Hnil as [_ Hnil]. contradiction.
Qed.

(** The replacement of the preservation test of the repository, after the
    insert and after the delete of the tail. *)
Lemma preservation_keeps_text_at_each_step_witness :
  (exists position rest,
     _insert_with_comment_preservation_requests (lit "making the comment")
       (mkCommentedRange 4 31 (lit "c1") (lit "note")
          (lit "Todo application addressing"))
     = insertText position None (lit "making the comment") :: rest
     /\ 4 <= position < 31)
  /\ forall n,
       (0 < n
        < length
            (_insert_with_comment_preservation_requests
               (lit "making the comment")
               (mkCommentedRange 4 31 (lit "c1") (lit "note")
                  (lit "Todo application addressing"))))%nat ->
       exists X,
         X <> []
         /\ apply_batch
              (firstn n
                 (_insert_with_comment_preservation_requests
                    (lit "making the comment")
                    (mkCommentedRange 4 31 (lit "c1") (lit "note")
                       (lit "Todo application addressing"))))
              (lit "The " ++ lit "Todo application addressing"
               ++ lit " the gaps")
            = Some (lit "The " ++ X ++ lit " the gaps").
Proof.
  apply (preservation_keeps_text_at_each_step (lit "The ")
           (lit "Todo application addressing") (lit " the gaps")
           (lit "making the comment")
           (mkCommentedRange 4 31 (lit "c1") (lit "note")
              (lit "Todo application addressing")));
    vm_compute; reflexivity.
Defined.

End PreservationSteps.

(** ** The paths of [merge_content] *)

Section MergePaths.

Context {S : Type} `{DocStore S}.

Variables (s : S) (doc_url content : pystr) (section : option pystr)
  (options : MergeOptions) (ip : InsertionPoint).

(** The planner returned [ip], and the merge goes on: the strategy is not
    [ask], or no comment is affected. *)
Hypothesis Hplan :
  fst (calculate_insertion_point (extract_doc_id doc_url)
         (or_else section (target_section options))
         (if preserve_comments options then lit "safe" else lit "simple") s)
  = Ret ip.
Hypothesis Hgo :
  comment_strategy options <> lit "ask" \/ ip_affected_comments ip = [].

Lemma merge_content_goes_on :
  merge_content doc_url content section (Some options) s
  = try_except
      (success <-
         insert_content (extract_doc_id doc_url) (ip_index ip)
           (_format_content_for_insertion content) (extract_tab_id doc_url)
           None (add_inline_attribution options) (source_description options) ;;
       if negb success then ret (insert_failed_result ip)
       else
         new_comment_id <-
           add_source_comment_phase (extract_doc_id doc_url)
             (_format_content_for_insertion content) options ;;
         ret (merged_result ip new_comment_id))
      (fun e => ret (error_result e)) s.
Proof.
  pose proof Hplan as Hrun.
  apply run_readonly in Hrun; [|apply readonly_calculate_insertion_point].
  unfold merge_content, merge_content_body. cbn [get].
  unfold try_except. rewrite (bind_Ret _ _ _ _ _ Hrun).
  assert (Hif : negb (Nat.eqb (length (ip_affected_comments ip)) 0)
                && PyStr.eqb (comment_strategy options) (lit "ask") = false).
  { destruct Hgo as [Hask | Hnone].
    - rewrite (pystr_eqb_neq _ _ Hask). apply andb_false_r.
    - now rewrite Hnone. }
  now rewrite Hif.
Qed.

(** The source comment is swallowed by its own [try]: the phase returns or
    does not come back, it never raises. *)
Lemma add_source_comment_phase_never_raises (doc_id formatted : pystr)
    (s1 : S) (e : exn) :
  fst (add_source_comment_phase doc_id formatted options s1) <> Raise e.
Proof.
  unfold add_source_comment_phase.
  destruct (add_source_comment options
            && opt_truthy (source_description options)); [|discriminate].
  unfold try_except.
  match goal with |- context [bind ?m ?k s1] => destruct (bind m k s1)
    as [[r|e'|] s2] end; discriminate.
Qed.

Section BatchAccepted.

Variable s1 : S.

Hypothesis Haccepted :
  documents_batchUpdate (extract_doc_id doc_url)
    (_simple_insert_requests (ip_index ip)
       (_format_content_for_insertion content) (extract_tab_id doc_url)
       (add_inline_attribution options) (source_description options)) s
  = (Ret tt, s1).

Lemma merge_content_after_batch :
  merge_content doc_url content section (Some options) s
  = match add_source_comment_phase (extract_doc_id doc_url)
            (_format_content_for_insertion content) options s1 with
    | (Ret new_comment_id, s2) => (Ret (merged_result ip new_comment_id), s2)
    | (Raise e, s2) => (Ret (error_result e), s2)
    | (Diverge, s2) => (Diverge, s2)
    end.
Proof.
  rewrite merge_content_goes_on.
  unfold try_except at 1, bind at 1, insert_content, _simple_insert.
  unfold try_except at 1, bind at 1. rewrite Haccepted.
  cbn [ret negb]. unfold bind.
  destruct (add_source_comment_phase _ _ options s1) as [[r|e|] s2];
    reflexivity.
Qed.

(** X14: when the merge goes on (the strategy is not [ask], or no comment
    is affected) and the store accepts the batch, and no source comment is
    to be added, [merge_content] has submitted exactly the simple-insert
    batch of the padded content at the planned offset and returns
    [success] true with the planner's insertion point and, as
    [comments_preserved], the number of affected comments; the store is
    the one the batch left. *)
Theorem merge_submits_planned_batch :
  add_source_comment options = false
  \/ opt_truthy (source_description options) = false ->
  merge_content doc_url content section (Some options) s
  = (Ret (merged_result ip None), s1)
  /\ success (merged_result ip None) = true
  /\ insertion_point (merged_result ip None) = Some ip
  /\ comments_preserved (merged_result ip None)
     = Some (Z.of_nat (length (ip_affected_comments ip)))
  /\ new_comment_id (merged_result ip None) = Some None.
Proof.
  intros Hno. split; [|repeat split].
  rewrite merge_content_after_batch. unfold add_source_comment_phase.
  assert (Hif : add_source_comment options
                && opt_truthy (source_description options) = false).
  { destruct Hno as [-> | ->]; [reflexivity | apply andb_false_r]. }
  now rewrite Hif.
Qed.

(** X16: once the store has accepted the batch, nothing that happens to
    the source comment fails the merge: [merge_content] returns the success
    record with the planner's insertion point (with or without the id of a
    new comment), or it does not return; it returns no failure record and
    raises nothing. *)
Theorem source_comment_never_fails_the_merge :
  exists s2,
    merge_content doc_url content section (Some options) s = (Diverge, s2)
    \/ exists new_comment_id,
         merge_content doc_url content section (Some options) s
         = (Ret (merged_result ip new_comment_id), s2)
         /\ success (merged_result ip new_comment_id) = true.
Proof.
  rewrite merge_content_after_batch.
  pose proof (add_source_comment_phase_never_raises (extract_doc_id doc_url)
                (_format_content_for_insertion content) s1) as Hnever.
  destruct (add_source_comment_phase _ _ options s1) as [[r|e|] s2].
  - exists s2. right. exists r. now split.
  - exfalso. now apply (Hnever e).
  - exists s2. now left.
Qed.

(** X17: when the source comment is asked for with a description [d] and
    the search for the first 50 characters of the inserted content finds
    nothing in the document read back, [merge_content] falls back to one
    plain comment with the text of the description: it returns [success]
    true with the id of that comment, and still [success] true, with no
    comment id, when the creation of the plain comment raises. *)
Theorem merge_falls_back_to_plain_comment (d : pystr) (doc : Document)
    (s2 : S) :
  add_source_comment options = true ->
  source_description options = Some d ->
  d <> [] ->
  documents_get (extract_doc_id doc_url) false s1 = Ret doc ->
  _find_text_in_document doc
    (firstn 50 (strip (_format_content_for_insertion content))) = Some [] ->
  (forall new_comment_id,
     comments_create (extract_doc_id doc_url) (source_comment_text d) s1
     = (Ret new_comment_id, s2) ->
     merge_content doc_url content section (Some options) s
     = (Ret (merged_result ip new_comment_id), s2))
  /\ (forall e,
        comments_create (extract_doc_id doc_url) (source_comment_text d) s1
        = (Raise e, s2) ->
        merge_content doc_url content section (Some options) s
        = (Ret (merged_result ip None), s2)).
Proof.
  intros Hadd Hdesc Hd Hget Hsearch.
  assert (Hphase :
    add_source_comment_phase (extract_doc_id doc_url)
      (_format_content_for_insertion content) options s1
    = try_except
        (create_comment (extract_doc_id doc_url) (source_comment_text d))
        (fun _ => ret None) s1).
  { unfold add_source_comment_phase. rewrite Hadd, Hdesc.
    cbn [opt_truthy andb get]. rewrite (truthy_nonempty _ Hd).
    unfold try_except, bind at 1.
    unfold create_comment_with_context, try_except, bind at 1, reading.
    rewrite Hget, Hsearch. reflexivity. }
  split; intros r Hcreate; rewrite merge_content_after_batch, Hphase;
    unfold try_except, create_comment; rewrite Hcreate; reflexivity.
Qed.

End BatchAccepted.

(** X15: when the merge goes on and the store refuses the batch (the call
    raises), [merge_content] returns the failure record with the message
    [Failed to insert content] and the planner's insertion point; it makes
    no further call, so no source comment is created. *)
Theorem merge_reports_refused_batch (e : exn) (s1 : S) :
  documents_batchUpdate (extract_doc_id doc_url)
    (_simple_insert_requests (ip_index ip)
       (_format_content_for_insertion content) (extract_tab_id doc_url)
       (add_inline_attribution options) (source_description options)) s
  = (Raise e, s1) ->
  merge_content doc_url content section (Some options) s
  = (Ret (insert_failed_result ip), s1)
  /\ success (insert_failed_result ip) = false
  /\ message (insert_failed_result ip) = lit "Failed to insert content"
  /\ insertion_point (insert_failed_result ip) = Some ip.
Proof.
  intros Hrefused. split; [|repeat split].
  rewrite merge_content_goes_on.
  unfold try_except at 1, bind at 1, insert_content, _simple_insert.
  unfold try_except at 1, bind at 1. now rewrite Hrefused.
Qed.

End MergePaths.

Section MergePathExamples.

(** [New text] merged at the end of the one-line document, without a
    source comment. *)
Lemma merge_submits_planned_batch_witness :
  merge_content (lit "doc") (lit "New text") None (Some quiet_options)
    hello_store
  = (Ret (merged_result hello_end None), hello_store_after_batch)
  /\ success (merged_result hello_end None) = true
  /\ insertion_point (merged_result hello_end None) = Some hello_end
  /\ comments_preserved (merged_result hello_end None)
     = Some (Z.of_nat (length (ip_affected_comments hello_end)))
  /\ new_comment_id (merged_result hello_end None) = Some None.
Proof.
  apply (merge_submits_planned_batch hello_store (lit "doc") (lit "New text")
           None quiet_options hello_end);
    [vm_compute; reflexivity | left; discriminate | reflexivity
    | left; reflexivity].
Defined.

(** The same merge on the store that refuses the batch. *)
Lemma merge_reports_refused_batch_witness :
  merge_content (lit "doc") (lit "New text") None (Some noted_options)
    refusing_store
  = (Ret (insert_failed_result hello_end), refusing_store)
  /\ success (insert_failed_result hello_end) = false
  /\ message (insert_failed_result hello_end) = lit "Failed to insert content"
  /\ insertion_point (insert_failed_result hello_end) = Some hello_end.
Proof.
  apply (merge_reports_refused_batch refusing_store (lit "doc")
           (lit "New text") None noted_options hello_end)
    with (e := HttpError 400 (lit "Invalid requests"));
    [vm_compute; reflexivity | left; discriminate | reflexivity].
Defined.

(** The merge with a source comment returns the success record. *)
Lemma source_comment_never_fails_the_merge_witness :
  exists s2,
    merge_content (lit "doc") (lit "New text") None (Some noted_options)
      hello_store = (Diverge, s2)
    \/ exists new_comment_id,
         merge_content (lit "doc") (lit "New text") None (Some noted_options)
           hello_store
         = (Ret (merged_result hello_end new_comment_id), s2)
         /\ success (merged_result hello_end new_comment_id) = true.
Proof.
  apply (source_comment_never_fails_the_merge hello_store (lit "doc")
           (lit "New text") None noted_options hello_end)
    with (s1 := hello_store_after_batch);
    [vm_compute; reflexivity | left; discriminate | reflexivity].
Defined.

(** The store of the example does not show the inserted text when it is
    read back, so the search finds nothing and the plain comment is
    created. *)
Lemma merge_falls_back_to_plain_comment_witness :
  (forall new_comment_id,
     comments_create (extract_doc_id (lit "doc"))
       (source_comment_text (lit "meeting")) hello_store_after_batch
     = (Ret new_comment_id,
        snd (sim_comments_create (lit "doc")
               (source_comment_text (lit "meeting")) hello_store_after_batch)) ->
     merge_content (lit "doc") (lit "New text") None (Some noted_options)
       hello_store
     = (Ret (merged_result hello_end new_comment_id),
        snd (sim_comments_create (lit "doc")
               (source_comment_text (lit "meeting")) hello_store_after_batch)))
  /\ (forall e,
        comments_create (extract_doc_id (lit "doc"))
          (source_comment_text (lit "meeting")) hello_store_after_batch
        = (Raise e,
           snd (sim_comments_create (lit "doc")
                  (source_comment_text (lit "meeting"))
                  hello_store_after_batch)) ->
        merge_content (lit "doc") (lit "New text") None (Some noted_options)
          hello_store
        = (Ret (merged_result hello_end None),
           snd (sim_comments_create (lit "doc")
                  (source_comment_text (lit "meeting"))
                  hello_store_after_batch))).
Proof.
  apply (merge_falls_back_to_plain_comment hello_store (lit "doc")
           (lit "New text") None noted_options hello_end)
    with (doc := hello_document);
    [vm_compute; reflexivity | left; discriminate | reflexivity
    | reflexivity | reflexivity | discriminate | reflexivity
    | vm_compute; reflexivity].
Defined.

End MergePathExamples.

Section ListingFails.

Context {S : Type} `{DocStore S}.

(** X19: when the document can be read but the listing of its comments
    raises, [merge_content] returns the error record whose message is
    [Error: Failed to get comments: ] followed by the text of the
    exception, without any write: the store is as it was.  (The analysis
    tolerates the failure; the resolver, which runs next, does not.) *)
Theorem merge_stops_when_comments_cannot_be_listed (s : S)
    (doc_url content : pystr) (section : option pystr)
    (options : option MergeOptions) (doc : Document) (e : exn) :
  ensure_authenticated s = None ->
  documents_get (extract_doc_id doc_url) true s = Ret doc ->
  comments_list (extract_doc_id doc_url) s = Raise e ->
  merge_content doc_url content section options s
  = (Ret (error_result
            (RuntimeError (lit "Failed to get comments: " ++ str_exn e))), s)
  /\ message
       (error_result
          (RuntimeError (lit "Failed to get comments: " ++ str_exn e)))
     = lit "Error: Failed to get comments: " ++ str_exn e.
Proof.
  intros Hauth Hget Hlist. split; [|reflexivity].
  assert (Hget' : documents_get (extract_doc_id (extract_doc_id doc_url)) true s
                  = Ret doc) by now rewrite extract_doc_id_idempotent.
  pose proof (get_document_Ret _ _ _ _ Hauth Hget') as Hdoc.
  pose proof (get_comments_Raise _ _ _ Hlist) as Hcomments.
  unfold merge_content, try_except, merge_content_body,
    calculate_insertion_point.
  assert (Hanalysis : exists analysis,
            analyze_document (extract_doc_id doc_url) true s
            = (Ret analysis, s)).
  { unfold analyze_document. rewrite (bind_Ret _ _ _ _ _ Hdoc).
    destruct (analyze_sections _) as [secs texts].
    eexists. unfold bind, try_except.
    rewrite extract_doc_id_idempotent, Hcomments. reflexivity. }
  destruct Hanalysis as [analysis Hanalysis].
  assert (Hranges :
    find_commented_ranges (extract_doc_id doc_url) s
    = (Raise (RuntimeError (lit "Failed to get comments: " ++ str_exn e)), s)).
  { unfold find_commented_ranges. rewrite (bind_Ret _ _ _ _ _ Hdoc).
    now rewrite (bind_Raise _ _ _ _ _ Hcomments). }
  rewrite (bind_Raise _ _ _ _ _
             (eq_trans (bind_Ret _ _ _ _ _ Hanalysis)
                (bind_Raise _ _ _ _ _ Hranges))).
  reflexivity.
Qed.

End ListingFails.

Section ListingFailsExample.

(** A store whose Drive service fails to list the comments. *)
Lemma merge_stops_when_comments_cannot_be_listed_witness :
  merge_content (lit "doc") (lit "New text") None None
    (mkSimStore None (Ret hello_document)
       (Raise (HttpError 500 (lit "Backend Error"))) None (Ret None) [] [])
  = (Ret (error_result
            (RuntimeError
               (lit "Failed to get comments: "
                ++ str_exn (HttpError 500 (lit "Backend Error"))))),
     mkSimStore None (Ret hello_document)
       (Raise (HttpError 500 (lit "Backend Error"))) None (Ret None) [] [])
  /\ message
       (error_result
          (RuntimeError
             (lit "Failed to get comments: "
              ++ str_exn (HttpError 500 (lit "Backend Error")))))
     = lit "Error: Failed to get comments: "
       ++ str_exn (HttpError 500 (lit "Backend Error")).
Proof.
  apply (merge_stops_when_comments_cannot_be_listed
           (mkSimStore None (Ret hello_document)
              (Raise (HttpError 500 (lit "Backend Error"))) None (Ret None)
              [] [])
           (lit "doc") (lit "New text") None None hello_document
           (HttpError 500 (lit "Backend Error")));
    reflexivity.
Defined.

End ListingFailsExample.

(** ** What a merge submits *)

Section Batches.

Lemma keeps_ret {A : Type} (a : A) : keeps_batches (ret a).
Proof. intros s. reflexivity. Qed.

Lemma keeps_raise {A : Type} (e : exn) : keeps_batches (@raise SimStore A e).
Proof. intros s. reflexivity. Qed.

Lemma keeps_diverge {A : Type} : keeps_batches (@diverge SimStore A).
Proof. intros s. reflexivity. Qed.

Lemma keeps_readonly {A : Type} (m : M SimStore A) :
  readonly m -> keeps_batches m.
Proof. intros Hm s. now rewrite Hm. Qed.

Lemma keeps_bind {A B : Type} (m : M SimStore A) (k : A -> M SimStore B) :
  keeps_batches m -> (forall a, keeps_batches (k a)) ->
  keeps_batches (bind m k).
Proof.
  intros Hm Hk s. unfold bind. specialize (Hm s).
  destruct (m s) as [[a|e|] s']; cbn [snd] in *; [|exact Hm | exact Hm].
  now rewrite Hk.
Qed.

Lemma keeps_try_except {A : Type} (m : M SimStore A)
    (h : exn -> M SimStore A) :
  keeps_batches m -> (forall e, keeps_batches (h e)) ->
  keeps_batches (try_except m h).
Proof.
  intros Hm Hh s. unfold try_except. specialize (Hm s).
  destruct (m s) as [[a|e|] s']; cbn [snd] in *; [exact Hm | | exact Hm].
  now rewrite Hh.
Qed.

Lemma keeps_comments_create (doc_id content : pystr) :
  keeps_batches (comments_create doc_id content).
Proof.
  intros s. cbn [comments_create SimStore_DocStore].
  unfold sim_comments_create. now destruct (sim_create s).
Qed.

Lemma keeps_create_comment_with_context (doc_id content search_text : pystr)
    (occurrence : Z) :
  keeps_batches
    (create_comment_with_context doc_id content search_text occurrence).
Proof.
  unfold create_comment_with_context. apply keeps_try_except.
  - apply keeps_bind; [apply keeps_readonly, readonly_reading|]. intros doc.
    destruct (_find_text_in_document doc search_text) as [[|m ms]|];
      [apply keeps_ret | apply keeps_comments_create | apply keeps_diverge].
  - intros [status reason| | | | |];
      first [apply keeps_ret | apply keeps_raise].
Qed.

Lemma keeps_add_source_comment_phase (doc_id formatted : pystr)
    (options : MergeOptions) :
  keeps_batches (add_source_comment_phase doc_id formatted options).
Proof.
  unfold add_source_comment_phase.
  destruct (add_source_comment options
            && opt_truthy (source_description options)); [|apply keeps_ret].
  apply keeps_try_except; [|intros e; apply keeps_ret].
  apply keeps_bind; [apply keeps_create_comment_with_context|].
  intros [id|]; [apply keeps_ret | apply keeps_comments_create].
Qed.

Lemma simple_insert_has_no_delete (index : Z) (content : pystr)
    (tab_id : option pystr) (attribution : bool) (text : option pystr) :
  existsb is_delete
    (_simple_insert_requests index content tab_id attribution text)
  = false.
Proof.
  unfold _simple_insert_requests.
  now destruct (attribution && opt_truthy text).
Qed.

Lemma bind_Diverge {S A B : Type} (m : M S A) (k : A -> M S B) (s s' : S) :
  m s = (Diverge, s') -> bind m k s = (Diverge, s').
Proof. intros Hm. unfold bind. now rewrite Hm. Qed.

(** What [_simple_insert] does on the example store. *)
Lemma simple_insert_on_example_store (doc_id : pystr) (index : Z)
    (content : pystr) (tab_id : option pystr) (attribution : bool)
    (text : option pystr) (s : SimStore) :
  _simple_insert doc_id index content tab_id attribution text s
  = (Ret (match sim_batch_error s with Some _ => false | None => true end),
     snd (sim_batchUpdate doc_id
            (_simple_insert_requests index content tab_id attribution text)
            s)).
Proof.
  unfold _simple_insert, try_except, bind.
  cbn [documents_batchUpdate SimStore_DocStore]. unfold sim_batchUpdate.
  now destruct (sim_batch_error s).
Qed.

(** X18: on the store that keeps the batches it accepts, whatever the
    document, the comments and the answers of the services, one call of
    [merge_content] has no batch accepted or exactly one; that batch is
    the simple-insert batch of the padded content, for the id and the tab
    of the URL, and holds no [deleteContentRange]: a merge never deletes
    text. *)
Theorem merge_submits_at_most_one_insert_batch (s : SimStore)
    (doc_url content : pystr) (section : option pystr)
    (options : option MergeOptions) :
  sim_batches (snd (merge_content doc_url content section options s))
  = sim_batches s
  \/ exists index,
       sim_batches (snd (merge_content doc_url content section options s))
       = sim_batches s
         ++ [ (extract_doc_id doc_url,
               _simple_insert_requests index
                 (_format_content_for_insertion content)
                 (extract_tab_id doc_url)
                 (add_inline_attribution (get options default_MergeOptions))
                 (source_description (get options default_MergeOptions))) ]
       /\ existsb is_delete
            (_simple_insert_requests index
               (_format_content_for_insertion content)
               (extract_tab_id doc_url)
               (add_inline_attribution (get options default_MergeOptions))
               (source_description (get options default_MergeOptions)))
          = false.
Proof.
  set (o := get options default_MergeOptions).
  unfold merge_content. fold o.
  assert (Htry : forall (m : M SimStore MergeResult),
            sim_batches (snd (try_except m (fun e => ret (error_result e)) s))
            = sim_batches (snd (m s))).
  { intros m. unfold try_except. now destruct (m s) as [[r|e|] s']. }
  rewrite Htry. unfold merge_content_body.
  destruct (calculate_insertion_point (extract_doc_id doc_url)
              (or_else section (target_section o))
              (if preserve_comments o then lit "safe" else lit "simple") s)
    as [out s0] eqn:Hcalc.
  assert (s0 = s) as ->.
  { pose proof (readonly_calculate_insertion_point (extract_doc_id doc_url)
                  (or_else section (target_section o))
                  (if preserve_comments o then lit "safe" else lit "simple") s)
      as Hro.
    now rewrite Hcalc in Hro. }
  destruct out as [ip|e|];
    [|rewrite (bind_Raise _ _ _ _ _ Hcalc); now left
     |rewrite (bind_Diverge _ _ _ _ Hcalc); now left].
  rewrite (bind_Ret _ _ _ _ _ Hcalc).
  destruct (negb (Nat.eqb (length (ip_affected_comments ip)) 0)
            && PyStr.eqb (comment_strategy o) (lit "ask")); [now left|].
  unfold insert_content.
  rewrite (bind_Ret _ _ _ _ _ (simple_insert_on_example_store _ _ _ _ _ _ s)).
  unfold sim_batchUpdate.
  destruct (sim_batch_error s) as [e|] eqn:Herr; cbn [negb fst snd ret];
    [now left|].
  right. exists (ip_index ip).
  split; [|apply simple_insert_has_no_delete].
  match goal with
  | |- context [bind (add_source_comment_phase ?d ?f ?op) ?k ?st] =>
      pose proof (keeps_bind (add_source_comment_phase d f op) k
                    (keeps_add_source_comment_phase d f op)
                    (fun a => keeps_ret _) st) as Hkeep
  end.
  rewrite Hkeep. reflexivity.
Qed.

End Batches.

(** ** The search for the inserted text *)

Section EmptySearch.

Lemma contains_empty (s : pystr) : contains s [] = true.
Proof. unfold contains. now destruct s. Qed.

(** X20: with the empty search text, [_find_text_in_document] does not
    return on a document that has a top-level paragraph with a text run:
    the loop over that paragraph finds the empty string at offset 0, adds
    a match and starts again at offset 0, whatever number of turns it is
    given. *)
Theorem empty_search_text_never_returns (doc : Document)
    (elem : StructuralElement) (paragraph : Paragraph) :
  In elem (body_content (body doc)) ->
  se_paragraph elem = Some paragraph ->
  paragraph_truthy paragraph = true ->
  text_parts (get (p_elements paragraph) []) <> [] ->
  _find_text_in_document doc [] = None
  /\ forall fuel para_idx start_index full_text,
       find_occurrences fuel para_idx start_index full_text
         (lower full_text) (lower []) [] 0 = None.
Proof.
  intros Hin Hpara Htruthy Hparts. split.
  - apply empty_search_never_returns. apply existsb_exists. exists elem.
    split; [exact Hin|]. unfold paragraph_matches.
    rewrite Hpara, Htruthy. cbn [andb].
    destruct (text_parts (get (p_elements paragraph) [])); [congruence|].
    apply contains_empty.
  - intros fuel para_idx start_index full_text.
    apply find_occurrences_empty_search. lia.
Qed.

(** The example with a heading has paragraphs with text. *)
Lemma empty_search_text_never_returns_witness :
  _find_text_in_document notes_document [] = None
  /\ forall fuel para_idx start_index full_text,
       find_occurrences fuel para_idx start_index full_text
         (lower full_text) (lower []) [] 0 = None.
Proof.
  apply (empty_search_text_never_returns notes_document
           (text_paragraph 1 7 (Some (lit "HEADING_1"))
              [(1, lit "Notes" ++ [newline])])
           (mkParagraph
              (Some [ mkParagraphElement (Some 1)
                        (Some (mkTextRun (Some (lit "Notes" ++ [newline])))) ])
              (Some (mkParagraphStyle (Some (lit "HEADING_1"))))));
    [right; left; reflexivity | reflexivity | reflexivity | discriminate].
Defined.

End EmptySearch.

(** ** The errors of [get_document] *)

Section DocumentErrors.

Context {S : Type} `{DocStore S}.

(** X22: [get_document] raises what the authentication raises, before any
    read.  Once authenticated it returns the document the service returns;
    it turns the HTTP status 404 into a [ValueError] ("Document not
    found"), 403 into a [PermissionError], and 400 with "not supported" in
    the lower-cased text of the error into the [ValueError] on Word
    documents; every other exception of the read reaches the caller as it
    is.  It never changes the store. *)
Theorem get_document_error_mapping (s : S) (d : pystr) (b : bool) :
  (forall e,
     ensure_authenticated s = Some e -> get_document d b s = (Raise e, s))
  /\ (ensure_authenticated s = None ->
      (forall doc,
         documents_get (extract_doc_id d) b s = Ret doc ->
         get_document d b s = (Ret doc, s))
      /\ (forall reason,
            documents_get (extract_doc_id d) b s
            = Raise (HttpError 404 reason) ->
            exists msg,
              get_document d b s = (Raise (ValueError msg), s)
              /\ startswith msg (lit "Document not found: " ++ extract_doc_id d)
                 = true)
      /\ (forall reason,
            documents_get (extract_doc_id d) b s
            = Raise (HttpError 400 reason) ->
            contains (lower reason) (lit "not supported") = true ->
            get_document d b s = (Raise (ValueError docx_message), s))
      /\ (forall reason,
            documents_get (extract_doc_id d) b s
            = Raise (HttpError 403 reason) ->
            get_document d b s
            = (Raise (PermissionError
                        (lit "No permission to access document: "
                         ++ extract_doc_id d)), s))
      /\ (forall status reason,
            documents_get (extract_doc_id d) b s
            = Raise (HttpError status reason) ->
            status <> 404 -> status <> 403 ->
            (status = 400 ->
             contains (lower reason) (lit "not supported") = false) ->
            get_document d b s = (Raise (HttpError status reason), s))
      /\ (forall e,
            documents_get (extract_doc_id d) b s = Raise e ->
            (forall status reason, e <> HttpError status reason) ->
            get_document d b s = (Raise e, s)))
  /\ snd (get_document d b s) = s.
Proof.
  split; [|split; [|apply readonly_get_document]].
  - intros e Hauth. unfold get_document, bind, _ensure_authenticated.
    now rewrite Hauth.
  - intros Hauth.
    assert (Hrun : forall r,
              documents_get (extract_doc_id d) b s = r ->
              get_document d b s
              = try_except (fun s0 => (r, s0))
                  (fun error =>
                     match error with
                     | HttpError status _ =>
                         if status =? 404 then
                           raise (ValueError
                             (lit "Document not found: " ++ extract_doc_id d
                              ++ lit ". This might be a Word document (.docx), which cannot be edited via the Google Docs API."))
                         else if (status =? 400)
                                 && contains (lower (str_exn error))
                                      (lit "not supported")
                         then raise (ValueError docx_message)
                         else if status =? 403 then
                           raise (PermissionError
                             (lit "No permission to access document: "
                              ++ extract_doc_id d))
                         else raise error
                     | _ => raise error
                     end) s).
    { intros r Hr. unfold get_document, bind, _ensure_authenticated.
      rewrite Hauth. unfold try_except, reading. now rewrite Hr. }
    repeat split.
    + intros doc Hget. now rewrite (Hrun _ Hget).
    + intros reason Hget. rewrite (Hrun _ Hget). eexists. split;
        [reflexivity|]. unfold startswith. rewrite app_assoc.
      apply prefixb_app.
    + intros reason Hget Hdocx. rewrite (Hrun _ Hget).
      unfold try_except. cbn [str_exn Z.eqb Pos.eqb andb].
      now rewrite Hdocx.
    + intros reason Hget. now rewrite (Hrun _ Hget).
    + intros status reason Hget H404 H403 H400. rewrite (Hrun _ Hget).
      unfold try_except. cbn [str_exn].
      destruct (Z.eqb_spec status 404); [contradiction|].
      destruct (Z.eqb_spec status 403); [contradiction|].
      destruct (Z.eqb_spec status 400) as [H4|_]; [|reflexivity].
      now rewrite (H400 H4).
    + intros e Hget Hnot. rewrite (Hrun _ Hget). unfold try_except.
      destruct e as [status reason| | | | |]; try reflexivity.
      now destruct (Hnot status reason).
Qed.

End DocumentErrors.

(** ** What a match of the search holds *)

Section Matches.

Lemma lstrip_suffix (s : pystr) : exists p, s = p ++ lstrip s.
Proof.
  induction s as [|c s [p IH]]; [now exists []|]. cbn [lstrip].
  destruct (isspace c); [|now exists []].
  exists (c :: p). cbn [app]. now f_equal.
Qed.

Lemma lstrip_head (s : pystr) :
  match lstrip s with [] => True | c :: _ => isspace c = false end.
Proof.
  induction s as [|c s IH]; [exact I|]. cbn [lstrip].
  now destruct (isspace c) eqn:Hc.
Qed.

Lemma rstrip_prefix (s : pystr) : exists q, s = rstrip s ++ q.
Proof.
  unfold rstrip. destruct (lstrip_suffix (rev s)) as [p Hp].
  exists (rev p). rewrite <- rev_app_distr, <- Hp. now rewrite rev_involutive.
Qed.

Lemma strip_inside (s : pystr) : exists p q, s = p ++ strip s ++ q.
Proof.
  unfold strip. destruct (lstrip_suffix s) as [p Hp].
  destruct (rstrip_prefix (lstrip s)) as [q Hq].
  exists p, q. now rewrite <- Hq.
Qed.

Lemma strip_no_outer_space (s : pystr) : no_outer_space (strip s).
Proof.
  unfold no_outer_space, strip. split.
  - destruct (rstrip_prefix (lstrip s)) as [q Hq].
    pose proof (lstrip_head s) as Hhead. rewrite Hq in Hhead.
    now destruct (rstrip (lstrip s)).
  - unfold rstrip. rewrite rev_involutive. apply lstrip_head.
Qed.

Lemma replace_char_clears (a b : ascii) (s : pystr) :
  a <> b -> ~ In a (replace_char a b s).
Proof.
  intros Hab Hin. unfold replace_char in Hin. apply in_map_iff in Hin.
  destruct Hin as (c & Hc & _).
  destruct (Ascii.eqb_spec c a); congruence.
Qed.

Lemma slice_length (s : pystr) (a b : nat) : (length (slice s a b) <= b - a)%nat.
Proof. unfold slice. rewrite length_firstn. lia. Qed.

Lemma excerpt_ok (full_text search_text : pystr) (idx : nat) :
  let e := strip (replace_char newline space
                    (slice full_text (idx - 40)
                       (Nat.min (length full_text)
                          (idx + length search_text + 40)))) in
  ~ In newline e /\ len e <= len search_text + 80 /\ no_outer_space e.
Proof.
  intros e. subst e.
  set (raw := replace_char newline space _).
  destruct (strip_inside raw) as (p & q & Hraw).
  repeat split; try apply strip_no_outer_space.
  - intros Hin. apply (replace_char_clears newline space
                         (slice full_text (idx - 40)
                            (Nat.min (length full_text)
                               (idx + length search_text + 40))));
      [discriminate|].
    fold raw. rewrite Hraw. apply in_or_app. right. apply in_or_app. now left.
  - assert (Hlen : (length raw <= length search_text + 80)%nat).
    { unfold raw, replace_char. rewrite length_map.
      pose proof (slice_length full_text (idx - 40)
                    (Nat.min (length full_text)
                       (idx + length search_text + 40))). lia. }
    apply (f_equal (@length ascii)) in Hraw. rewrite !length_app in Hraw.
    unfold len. lia.
Qed.

Lemma find_occurrences_match_ok (para_idx : Z) (start_index : option Z)
    (full_text lower_text lower_search search_text : pystr) :
  forall fuel pos ms,
    find_occurrences fuel para_idx start_index full_text lower_text
      lower_search search_text pos = Some ms ->
    Forall (match_ok search_text para_idx) ms.
Proof.
  induction fuel as [|fuel IH]; intros pos ms; [discriminate|].
  cbn [find_occurrences].
  destruct (find_from lower_text lower_search pos) as [idx|];
    [|intros [= <-]; constructor].
  destruct (find_occurrences fuel para_idx start_index full_text lower_text
              lower_search search_text (idx + length search_text))
    as [rest|] eqn:Hrest; [|discriminate].
  intros [= <-]. constructor; [|now apply (IH _ _ Hrest)].
  unfold match_ok. cbn [paragraph_index match_length excerpt].
  split; [lia|]. split; [reflexivity|]. apply excerpt_ok.
Qed.

Lemma match_ok_weaken (search_text : pystr) (low low' : Z) (ms : list Match) :
  low' <= low ->
  Forall (match_ok search_text low) ms -> Forall (match_ok search_text low') ms.
Proof.
  intros Hle. apply Forall_impl. intros m (H1 & H2). split; [lia|exact H2].
Qed.

Lemma find_in_paragraphs_match_ok (search_text : pystr) :
  forall content_elems para_idx ms,
    find_in_paragraphs search_text para_idx content_elems = Some ms ->
    Forall (match_ok search_text (para_idx + 1)) ms.
Proof.
  induction content_elems as [|elem rest IH]; intros para_idx ms.
  - intros [= <-]. constructor.
  - cbn [find_in_paragraphs].
    destruct (se_paragraph elem) as [paragraph|]; [|apply IH].
    destruct (paragraph_truthy paragraph); cbn [negb]; [|apply IH].
    assert (Hlater : forall later,
              find_in_paragraphs search_text (para_idx + 1) rest = Some later ->
              Forall (match_ok search_text (para_idx + 1)) later).
    { intros later Hl. apply (match_ok_weaken _ (para_idx + 1 + 1)); [lia|].
      now apply IH. }
    destruct (text_parts (get (p_elements paragraph) [])) as [|part parts];
      [apply Hlater|].
    destruct (find_occurrences _ _ _ _ _ _ _ _) as [here|] eqn:Hhere;
      [|discriminate].
    destruct (find_in_paragraphs search_text (para_idx + 1) rest)
      as [later|] eqn:Hl; [|discriminate].
    intros [= <-]. apply Forall_app. split; [|now apply Hlater].
    apply (find_occurrences_match_ok _ _ _ _ _ _ _ _ _ Hhere).
Qed.

(** X21: every match that [_find_text_in_document] returns counts its
    paragraph from 0, has the length of the search text, and carries an
    excerpt without a line break, without white space at either end, and
    of at most 80 characters more than the search text. *)
Theorem matches_are_well_formed (doc : Document) (search_text : pystr)
    (ms : list Match) (m : Match) :
  _find_text_in_document doc search_text = Some ms ->
  In m ms ->
  0 <= paragraph_index m
  /\ match_length m = len search_text
  /\ ~ In newline (excerpt m)
  /\ len (excerpt m) <= len search_text + 80
  /\ no_outer_space (excerpt m).
Proof.
  intros Hfind Hin. unfold _find_text_in_document in Hfind.
  pose proof (find_in_paragraphs_match_ok _ _ _ _ Hfind) as Hall.
  rewrite Forall_forall in Hall. exact (Hall m Hin).
Qed.

(** The word [item] in the example with a heading: one match, in the
    second paragraph. *)
Lemma matches_are_well_formed_witness :
  0 <= paragraph_index (mkMatch 1 12 4 (lit "Todo item"))
  /\ match_length (mkMatch 1 12 4 (lit "Todo item")) = len (lit "item")
  /\ ~ In newline (excerpt (mkMatch 1 12 4 (lit "Todo item")))
  /\ len (excerpt (mkMatch 1 12 4 (lit "Todo item"))) <= len (lit "item") + 80
  /\ no_outer_space (excerpt (mkMatch 1 12 4 (lit "Todo item"))).
Proof.
  apply (matches_are_well_formed notes_document (lit "item")
           [mkMatch 1 12 4 (lit "Todo item")]);
    [vm_compute; reflexivity | left; reflexivity].
Defined.

End Matches.

(** ** The reply of the language model ([intelligent_merger.py]) *)

Section StrategyReply.

Lemma lstrip_id (s : pystr) :
  match s with [] => True | c :: _ => isspace c = false end -> lstrip s = s.
Proof. destruct s as [|c s]; [reflexivity|]. cbn [lstrip]. now intros ->. Qed.

Lemma rstrip_id (s : pystr) :
  match rev s with [] => True | c :: _ => isspace c = false end ->
  rstrip s = s.
Proof.
  intros Hs. unfold rstrip. rewrite (lstrip_id _ Hs). apply rev_involutive.
Qed.

Lemma strip_id (s : pystr) : no_outer_space s -> strip s = s.
Proof.
  intros [Hhead Hlast]. unfold strip.
  rewrite (lstrip_id _ Hhead). now apply rstrip_id.
Qed.

Lemma strip_after_space (a : pystr) :
  no_outer_space a -> strip (space :: a) = a.
Proof. intros Ha. unfold strip. cbn [lstrip]. now apply strip_id. Qed.

Lemma lstrip_app (x y : pystr) :
  match y with [] => False | c :: _ => isspace c = false end ->
  lstrip (x ++ y) = lstrip x ++ y.
Proof.
  intros Hy. induction x as [|c x IH].
  - cbn [app lstrip]. destruct y as [|d y]; [contradiction|].
    cbn [lstrip]. now rewrite Hy.
  - cbn [app lstrip]. now destruct (isspace c).
Qed.

Lemma rstrip_app (a r b : pystr) :
  r <> [] -> no_outer_space r ->
  rstrip ((a ++ r) ++ b) = (a ++ r) ++ rstrip b.
Proof.
  intros Hr [_ Hlast]. unfold rstrip. rewrite (rev_app_distr (a ++ r) b).
  rewrite lstrip_app.
  - now rewrite rev_app_distr, !rev_involutive.
  - rewrite rev_app_distr. destruct (rev r) as [|c q] eqn:Hrev.
    + apply (f_equal (@rev ascii)) in Hrev. rewrite rev_involutive in Hrev.
      contradiction.
    + exact Hlast.
Qed.

Lemma split_char_app (sep : ascii) (l s : pystr) :
  ~ In sep l -> split_char sep (l ++ sep :: s) = l :: split_char sep s.
Proof.
  induction l as [|c l IH]; intros Hl.
  - cbn [app split_char]. now rewrite ascii_eqb_refl.
  - cbn [app split_char].
    destruct (Ascii.eqb_spec c sep) as [->|_]; [destruct Hl; now left|].
    rewrite IH; [reflexivity|]. intros Hin. apply Hl. now right.
Qed.

Lemma split_char_no_sep (sep : ascii) (l : pystr) :
  ~ In sep l -> split_char sep l = [l].
Proof.
  induction l as [|c l IH]; intros Hl; [reflexivity|].
  cbn [split_char].
  destruct (Ascii.eqb_spec c sep) as [->|_]; [destruct Hl; now left|].
  rewrite IH; [reflexivity|]. intros Hin. apply Hl. now right.
Qed.

Lemma not_in_chars (c : ascii) (l : pystr) :
  existsb (Ascii.eqb c) l = false -> ~ In c l.
Proof.
  intros Hex Hin.
  assert (existsb (Ascii.eqb c) l = true); [|congruence].
  apply existsb_exists. exists c. split; [exact Hin | apply ascii_eqb_refl].
Qed.

(** The lines of a reply that opens with the three lines of the format. *)
Lemma reply_lines (l1 l2 a3 r : pystr) (more : option pystr) :
  match l1 with [] => False | c :: _ => isspace c = false end ->
  ~ In newline l1 -> ~ In newline l2 -> ~ In newline (a3 ++ r) ->
  r <> [] -> no_outer_space r ->
  exists others,
    split_char newline
      (strip (l1 ++ newline :: l2 ++ newline :: (a3 ++ r)
              ++ match more with
                 | Some rest => newline :: rest
                 | None => []
                 end))
    = l1 :: l2 :: (a3 ++ r) :: others.
Proof.
  intros Hhead H1 H2 H3 Hr Hspace.
  set (tail := match more with Some rest => newline :: rest | None => [] end).
  assert (Hstrip : strip (l1 ++ newline :: l2 ++ newline :: (a3 ++ r) ++ tail)
                   = l1 ++ newline :: l2 ++ newline :: (a3 ++ r)
                     ++ rstrip tail).
  { unfold strip. rewrite lstrip_id.
    - replace (l1 ++ newline :: l2 ++ newline :: (a3 ++ r) ++ tail)
        with (((l1 ++ newline :: l2 ++ [newline] ++ a3) ++ r) ++ tail)
        by (now rewrite <- !app_assoc; cbn [app];
            rewrite <- ?app_assoc; cbn [app]; rewrite <- ?app_assoc).
      rewrite (rstrip_app _ r tail Hr Hspace).
      now rewrite <- !app_assoc; cbn [app];
        rewrite <- ?app_assoc; cbn [app]; rewrite <- ?app_assoc.
    - destruct l1; [contradiction | exact Hhead]. }
  rewrite Hstrip, (split_char_app newline l1 _ H1),
    (split_char_app newline l2 _ H2).
  destruct (rstrip_prefix tail) as [q Hq].
  destruct (rstrip tail) as [|c rest'] eqn:Htail.
  - exists []. rewrite app_nil_r. now rewrite (split_char_no_sep _ _ H3).
  - assert (c = newline) as ->.
    { unfold tail in Hq. destruct more; [now injection Hq | discriminate]. }
    exists (split_char newline rest').
    now rewrite (split_char_app newline _ _ H3).
Qed.

(** X24: a reply that opens with the three lines of the format the prompt
    asks for ([STRATEGY: a], [TARGET_SECTION: t], [REASON: r], whatever
    follows on later lines), with fields that hold no line break and no
    white space at their ends and a reason that is not empty, is parsed to
    the action [a], the reason [r] and the target [t], with [N/A] read as
    no target.  Operations are only read for the action
    [MULTIPLE_OPERATIONS]. *)
Theorem strategy_reply_round_trip (a t r : pystr) (more : option pystr) :
  ~ In newline a -> ~ In newline t -> ~ In newline r ->
  no_outer_space a -> no_outer_space t -> no_outer_space r -> r <> [] ->
  let response :=
    lit "STRATEGY: " ++ a ++ [newline]
    ++ lit "TARGET_SECTION: " ++ t ++ [newline]
    ++ lit "REASON: " ++ r
    ++ match more with Some rest => newline :: rest | None => [] end in
  ms_action (_parse_strategy_response response) = a
  /\ ms_target_section (_parse_strategy_response response)
     = (if PyStr.eqb t (lit "N/A") then None else Some t)
  /\ ms_reason (_parse_strategy_response response) = r
  /\ (a <> lit "MULTIPLE_OPERATIONS" ->
      ms_operations (_parse_strategy_response response) = []).
Proof.
  intros Ha Ht Hr Hsa Hst Hsr Hne response.
  destruct (reply_lines (lit "STRATEGY: " ++ a) (lit "TARGET_SECTION: " ++ t)
              (lit "REASON: ") r more) as [others Hlines];
    try assumption.
  - exact eq_refl.
  - intros Hin. apply in_app_or in Hin as [Hin|Hin]; [|now apply Ha].
    revert Hin. now apply not_in_chars.
  - intros Hin. apply in_app_or in Hin as [Hin|Hin]; [|now apply Ht].
    revert Hin. now apply not_in_chars.
  - intros Hin. apply in_app_or in Hin as [Hin|Hin]; [|now apply Hr].
    revert Hin. now apply not_in_chars.
  - assert (Hresp : response
                    = (lit "STRATEGY: " ++ a) ++ newline
                      :: (lit "TARGET_SECTION: " ++ t) ++ newline
                      :: (lit "REASON: " ++ r)
                      ++ match more with
                         | Some rest => newline :: rest
                         | None => []
                         end).
    { unfold response. now rewrite <- !app_assoc. }
    rewrite Hresp. unfold _parse_strategy_response. rewrite Hlines.
    cbv zeta.
    change (first_line_with (lit "STRATEGY:") _)
      with (lit "STRATEGY: " ++ a).
    change (first_line_with (lit "TARGET_SECTION:") _)
      with (lit "TARGET_SECTION: " ++ t).
    change (first_line_with (lit "REASON:") _) with (lit "REASON: " ++ r).
    change (truthy (lit "STRATEGY: " ++ a)) with true.
    change (truthy (lit "TARGET_SECTION: " ++ t)) with true.
    change (truthy (lit "REASON: " ++ r)) with true.
    change (after_first ":" (lit "STRATEGY: " ++ a)) with (space :: a).
    change (after_first ":" (lit "TARGET_SECTION: " ++ t)) with (space :: t).
    change (after_first ":" (lit "REASON: " ++ r)) with (space :: r).
    cbv iota.
    rewrite (strip_after_space a Hsa), (strip_after_space t Hst),
      (strip_after_space r Hsr).
    cbn [ms_action ms_target_section ms_reason ms_operations].
    repeat split.
    intros Hsingle. now rewrite (pystr_eqb_neq _ _ Hsingle).
Qed.

(** The reply of the example: an update of the section [Notes]. *)
Lemma strategy_reply_round_trip_witness :
  ms_action (_parse_strategy_response update_reply)
  = lit "UPDATE_EXISTING_SECTION"
  /\ ms_target_section (_parse_strategy_response update_reply)
     = (if PyStr.eqb (lit "Notes") (lit "N/A") then None
        else Some (lit "Notes"))
  /\ ms_reason (_parse_strategy_response update_reply)
     = lit "The notes extend the section."
  /\ (lit "UPDATE_EXISTING_SECTION" <> lit "MULTIPLE_OPERATIONS" ->
      ms_operations (_parse_strategy_response update_reply) = []).
Proof.
  apply (strategy_reply_round_trip (lit "UPDATE_EXISTING_SECTION")
           (lit "Notes") (lit "The notes extend the section.")
           (Some (newline :: lit "OPERATIONS:" ++ [newline]
                  ++ lit "Single operation as described above")));
    try (apply not_in_chars; reflexivity);
    try (split; reflexivity);
    discriminate.
Defined.

End StrategyReply.

(** ** The runs of [analyze_and_merge] *)

Section MergerRuns.

Context {S : Type} `{DocStore S}.

Lemma analyze_sections_sections_of (content_elements : list StructuralElement) :
  fst (analyze_sections content_elements) = sections_of content_elements.
Proof.
  unfold analyze_sections.
  pose proof (analysis_fold content_elements [] None []) as Hfold.
  destruct (fold_left analysis_step content_elements ([], None, []))
    as [[sections current_section] text_content].
  exact Hfold.
Qed.

Lemma sections_of_nonempty (content_elements : list StructuralElement) :
  existsb is_heading content_elements = true ->
  sections_of content_elements <> [].
Proof.
  induction content_elements as [|element rest IH]; [discriminate|].
  cbn [existsb sections_of].
  destruct (is_heading element); [discriminate | exact IH].
Qed.

Lemma analyze_document_returns (s : S) (d : pystr) (doc : Document) :
  ensure_authenticated s = None ->
  documents_get (extract_doc_id d) true s = Ret doc ->
  comments_list (extract_doc_id d) s <> Diverge ->
  exists analysis,
    analyze_document d true s = (Ret analysis, s)
    /\ sections analysis
       = sections_of (get (content (get_tab_body doc (extract_tab_id d))) []).
Proof.
  intros Hauth Hget Hlist. unfold analyze_document.
  rewrite (bind_Ret _ _ _ _ _ (get_document_Ret _ _ _ _ Hauth Hget)).
  rewrite <- analyze_sections_sections_of.
  destruct (analyze_sections _) as [secs texts].
  unfold bind, try_except.
  destruct (comments_list (extract_doc_id d) s) as [results|e|] eqn:Hl;
    [| |congruence].
  - rewrite (get_comments_Ret _ _ _ Hl). eexists. split; reflexivity.
  - rewrite (get_comments_Raise _ _ _ Hl). eexists. split; reflexivity.
Qed.

Lemma bind_reading_Ret {A B : Type} (f : S -> outcome A) (k : A -> M S B)
    (s : S) (a : A) :
  f s = Ret a -> bind (reading f) k s = k a s.
Proof. intros Hf. unfold bind, reading. now rewrite Hf. Qed.

Lemma bind_reading_Raise {A B : Type} (f : S -> outcome A) (k : A -> M S B)
    (s : S) (e : exn) :
  f s = Raise e -> bind (reading f) k s = (Raise e, s).
Proof. intros Hf. unfold bind, reading. now rewrite Hf. Qed.

(** X23: on a document with a heading paragraph, [analyze_and_merge]
    raises [AttributeError]: the analysis holds its sections as dicts and
    [_format_document_structure] reads the attribute [level] of the first
    one.  It does so in front of the call of the language model and of
    every write: whatever the client and the notes are, the store is as it
    was. *)
Theorem analyze_and_merge_raises_on_headings (s : S)
    (client : pystr -> outcome pystr) (doc_url meeting_notes : pystr)
    (add_source_comment : bool) (source_description : option pystr)
    (doc : Document) :
  ensure_authenticated s = None ->
  documents_get (extract_doc_id doc_url) true s = Ret doc ->
  comments_list (extract_doc_id doc_url) s <> Diverge ->
  existsb is_heading
    (get (content (get_tab_body doc (extract_tab_id doc_url))) []) = true ->
  analyze_and_merge client doc_url meeting_notes add_source_comment
    source_description s
  = (Raise (OtherError (lit "AttributeError")
              (lit "'dict' object has no attribute 'level'")), s).
Proof.
  intros Hauth Hget Hlist Hhead.
  destruct (analyze_document_returns s doc_url doc Hauth Hget Hlist)
    as (analysis & Hrun & Hsections).
  apply sections_of_nonempty in Hhead. rewrite <- Hsections in Hhead.
  unfold analyze_and_merge. rewrite (bind_Ret _ _ _ _ _ Hrun).
  apply bind_reading_Raise. unfold _format_document_structure.
  destruct (sections analysis); [congruence | reflexivity].
Qed.

(** X25: on a document without a heading, whatever strategy the reply of
    the language model names, [analyze_and_merge] writes what
    [merge_content] writes for the notes with no section and the
    comment-preserving options: for each of the four strategies the run
    ends in the store of that call, with its result under the keys
    [strategy_used] and [strategy_reason]; the target section and the
    operations of the reply decide nothing.  For any other action it
    raises [ValueError] and the store is as it was. *)
Theorem merge_strategy_never_changes_the_write (s : S)
    (client : pystr -> outcome pystr) (doc_url meeting_notes : pystr)
    (add_source_comment : bool) (source_description : option pystr)
    (analysis : DocumentAnalysis) (structure response : pystr) :
  fst (analyze_document doc_url true s) = Ret analysis ->
  _format_document_structure analysis = Ret structure ->
  client (strategy_prompt structure (firstn 2000 (da_content analysis))
            meeting_notes) = Ret response ->
  (ms_action (_parse_strategy_response response) = lit "APPEND_TO_END"
   \/ ms_action (_parse_strategy_response response) = lit "CREATE_NEW_SECTION"
   \/ ms_action (_parse_strategy_response response)
      = lit "UPDATE_EXISTING_SECTION"
   \/ ms_action (_parse_strategy_response response)
      = lit "MULTIPLE_OPERATIONS" ->
   exists used reason,
     analyze_and_merge client doc_url meeting_notes add_source_comment
       source_description s
     = (match fst (merge_content doc_url meeting_notes None
                     (Some (strategy_options add_source_comment
                              source_description)) s) with
        | Ret result => Ret (mkStrategyResult result used reason)
        | Raise e => Raise e
        | Diverge => Diverge
        end,
        snd (merge_content doc_url meeting_notes None
               (Some (strategy_options add_source_comment
                        source_description)) s)))
  /\ (ms_action (_parse_strategy_response response) <> lit "APPEND_TO_END" ->
      ms_action (_parse_strategy_response response)
      <> lit "CREATE_NEW_SECTION" ->
      ms_action (_parse_strategy_response response)
      <> lit "UPDATE_EXISTING_SECTION" ->
      ms_action (_parse_strategy_response response)
      <> lit "MULTIPLE_OPERATIONS" ->
      analyze_and_merge client doc_url meeting_notes add_source_comment
        source_description s
      = (Raise (ValueError
                  (lit "Unknown strategy: "
                   ++ ms_action (_parse_strategy_response response))), s)).
Proof.
  intros Hrun Hformat Hreply.
  apply run_readonly in Hrun; [|apply readonly_analyze_document].
  assert (Hexec : analyze_and_merge client doc_url meeting_notes
                    add_source_comment source_description s
                  = _execute_merge_strategy doc_url
                      (_parse_strategy_response response) meeting_notes
                      add_source_comment source_description s).
  { unfold analyze_and_merge. rewrite (bind_Ret _ _ _ _ _ Hrun).
    rewrite (bind_reading_Ret _ _ _ _ Hformat).
    unfold _determine_merge_strategy.
    unfold bind at 1. rewrite (bind_reading_Ret _ _ _ _ Hreply).
    reflexivity. }
  rewrite Hexec. unfold _execute_merge_strategy, strategy_options.
  set (strategy := _parse_strategy_response response).
  set (merge := merge_content doc_url meeting_notes None _).
  split.
  - intros Hknown.
    destruct (PyStr.eqb (ms_action strategy) (lit "APPEND_TO_END")
              || PyStr.eqb (ms_action strategy) (lit "CREATE_NEW_SECTION"))
      eqn:E1;
      [unfold bind; destruct (merge s) as [[result|e|] s1];
       [eexists _, _ | exists [], [] | exists [], []]; reflexivity|].
    destruct (PyStr.eqb (ms_action strategy) (lit "UPDATE_EXISTING_SECTION"))
      eqn:E2;
      [unfold bind; destruct (merge s) as [[result|e|] s1];
       [eexists _, _ | exists [], [] | exists [], []]; reflexivity|].
    destruct (PyStr.eqb (ms_action strategy) (lit "MULTIPLE_OPERATIONS"))
      eqn:E3;
      [unfold bind; destruct (merge s) as [[result|e|] s1];
       [eexists _, _ | exists [], [] | exists [], []]; reflexivity|].
    apply orb_false_iff in E1 as [E0 E1].
    destruct Hknown as [Hk | [Hk | [Hk | Hk]]];
      apply pystr_eqb_eq in Hk; congruence.
  - intros N1 N2 N3 N4.
    now rewrite (pystr_eqb_neq _ _ N1), (pystr_eqb_neq _ _ N2),
      (pystr_eqb_neq _ _ N3), (pystr_eqb_neq _ _ N4).
Qed.

End MergerRuns.

Section MergerRunExamples.

(** A URL that names the child of the first tab: the child has a heading
    and the first tab has none, and the client is never reached. *)
Lemma analyze_and_merge_raises_on_headings_witness :
  analyze_and_merge silent_client child_tab_url (lit "New text") true None
    (sim_of (nested_tab_document (lit "NORMAL_TEXT") (lit "HEADING_1")) [])
  = (Raise (OtherError (lit "AttributeError")
              (lit "'dict' object has no attribute 'level'")),
     sim_of (nested_tab_document (lit "NORMAL_TEXT") (lit "HEADING_1")) []).
Proof.
  apply (analyze_and_merge_raises_on_headings
           (sim_of (nested_tab_document (lit "NORMAL_TEXT") (lit "HEADING_1"))
              [])
           silent_client child_tab_url (lit "New text") true None
           (nested_tab_document (lit "NORMAL_TEXT") (lit "HEADING_1")));
    [reflexivity | reflexivity | discriminate | reflexivity].
Defined.

(** The same URL where the child tab has no heading and the first tab has
    one, and the reply that names an update. *)
Lemma merge_strategy_never_changes_the_write_witness :
  (ms_action (_parse_strategy_response update_reply) = lit "APPEND_TO_END"
   \/ ms_action (_parse_strategy_response update_reply)
      = lit "CREATE_NEW_SECTION"
   \/ ms_action (_parse_strategy_response update_reply)
      = lit "UPDATE_EXISTING_SECTION"
   \/ ms_action (_parse_strategy_response update_reply)
      = lit "MULTIPLE_OPERATIONS" ->
   exists used reason,
     analyze_and_merge update_client child_tab_url (lit "New text") false
       None
       (sim_of (nested_tab_document (lit "HEADING_1") (lit "NORMAL_TEXT")) [])
     = (match fst (merge_content child_tab_url (lit "New text") None
                     (Some (strategy_options false None))
                     (sim_of (nested_tab_document (lit "HEADING_1")
                                (lit "NORMAL_TEXT")) [])) with
        | Ret result => Ret (mkStrategyResult result used reason)
        | Raise e => Raise e
        | Diverge => Diverge
        end,
        snd (merge_content child_tab_url (lit "New text") None
               (Some (strategy_options false None))
               (sim_of (nested_tab_document (lit "HEADING_1")
                          (lit "NORMAL_TEXT")) []))))
  /\ (ms_action (_parse_strategy_response update_reply)
      <> lit "APPEND_TO_END" ->
      ms_action (_parse_strategy_response update_reply)
      <> lit "CREATE_NEW_SECTION" ->
      ms_action (_parse_strategy_response update_reply)
      <> lit "UPDATE_EXISTING_SECTION" ->
      ms_action (_parse_strategy_response update_reply)
      <> lit "MULTIPLE_OPERATIONS" ->
      analyze_and_merge update_client child_tab_url (lit "New text") false
        None
        (sim_of (nested_tab_document (lit "HEADING_1") (lit "NORMAL_TEXT")) [])
      = (Raise (ValueError
                  (lit "Unknown strategy: "
                   ++ ms_action (_parse_strategy_response update_reply))),
         sim_of (nested_tab_document (lit "HEADING_1") (lit "NORMAL_TEXT"))
           [])).
Proof.
  eapply (merge_strategy_never_changes_the_write
            (sim_of (nested_tab_document (lit "HEADING_1") (lit "NORMAL_TEXT"))
               [])
            update_client child_tab_url (lit "New text") false None);
    [vm_compute; reflexivity | vm_compute; reflexivity | reflexivity].
Defined.

End MergerRunExamples.
